(** * Jobly: the partial-update builder and the Company / Job models

    A shallow embedding of [helpers/sql.js], [models/company.js] and
    [models/job.js].  JavaScript values are a small inductive type, objects
    are association lists in property order, the translation table handed to
    the builder is a finite map of its own properties under the members that
    every plain object inherits, and the asynchronous model methods are
    programs over one effect, [db.query]. *)

From Stdlib Require Import ZArith String Ascii List Lia DecimalString.
From stdpp Require Import base decidable option list strings gmap.
Import ListNotations.

Local Open Scope Z_scope.
Local Open Scope nat_scope.

(** ** JavaScript values *)

Set Warnings "-register-all".

(** Numbers are the integer-valued ones (counts, salaries, ids, indexes);
    objects keep their own properties in enumeration order; a function is a
    built-in one, known by its name. *)
Inductive JsVal : Type :=
| JUndefined
| JNull
| JBool (b : bool)
| JNum (z : Z)
| JStr (s : string)
| JObj (fields : list (string * JsVal))
| JFun (name : string).

Abbreviation Obj := (list (string * JsVal)).

(** ToBoolean. *)
Definition truthy (v : JsVal) : bool :=
  match v with
  | JUndefined | JNull => false
  | JBool b => b
  | JNum z => negb (Z.eqb z 0)
  | JStr s => negb (String.eqb s "")
  | JObj _ => true
  | JFun _ => true
  end.

(** [a || b]. *)
Definition js_or (a b : JsVal) : JsVal := if truthy a then a else b.

(** Decimal numerals, as [String(n)] prints an integer. *)
Definition dec (n : nat) : string := NilZero.string_of_uint (Nat.to_uint n).
Definition decZ (z : Z) : string := NilZero.string_of_int (Z.to_int z).

(** ToString, as a template literal applies it to an interpolated value; a
    built-in function gives the text that Node prints for it. *)
Definition js_string (v : JsVal) : string :=
  match v with
  | JUndefined => "undefined"
  | JNull => "null"
  | JBool true => "true"
  | JBool false => "false"
  | JNum z => decZ z
  | JStr s => s
  | JObj _ => "[object Object]"
  | JFun name => "function " +:+ name +:+ "() { [native code] }"
  end.

(** The double-quote and line-feed characters of the SQL templates. *)
Definition dq : string := String "034"%char EmptyString.
Definition nl : string := String "010"%char EmptyString.

(** A template literal that spans several source lines. *)
Definition lines (l : list string) : string := String.concat nl l.

(** [Array.prototype.join] on an array of strings. *)
Definition join (sep : string) (l : list string) : string := String.concat sep l.

(** Own enumerable properties of an object, in enumeration order. *)
Definition Object_keys (o : Obj) : list string := map fst o.
Definition Object_values (o : Obj) : list JsVal := map snd o.

(** [o[k]] on a row or data object: [undefined] when the property is missing. *)
Fixpoint prop (o : Obj) (k : string) : JsVal :=
  match o with
  | [] => JUndefined
  | (k', v) :: o' => if String.eqb k' k then v else prop o' k
  end.


(** [delete o[k]]. *)
Definition obj_delete (k : string) (o : Obj) : Obj :=
  List.filter (fun kv => negb (String.eqb (fst kv) k)) o.

(** [o[k] = v]: an existing property keeps its place, a new one goes last. *)
Fixpoint obj_set (k : string) (v : JsVal) (o : Obj) : Obj :=
  match o with
  | [] => [(k, v)]
  | (k', v') :: o' => if String.eqb k' k then (k, v) :: o' else (k', v') :: obj_set k v o'
  end.

(** The members of [Object.prototype], which every plain object inherits:
    the built-in methods, and [__proto__], which reads as the prototype
    itself, an object without enumerable properties. *)
Definition Object_prototype : Obj :=
  [("constructor", JFun "Object");
   ("__defineGetter__", JFun "__defineGetter__");
   ("__defineSetter__", JFun "__defineSetter__");
   ("hasOwnProperty", JFun "hasOwnProperty");
   ("__lookupGetter__", JFun "__lookupGetter__");
   ("__lookupSetter__", JFun "__lookupSetter__");
   ("isPrototypeOf", JFun "isPrototypeOf");
   ("propertyIsEnumerable", JFun "propertyIsEnumerable");
   ("toString", JFun "toString");
   ("valueOf", JFun "valueOf");
   ("__proto__", JObj []);
   ("toLocaleString", JFun "toLocaleString")].

(** [t[k]] on a translation table, a plain object used as a map and given
    by its own properties: an own property is read first, then a member of
    [Object.prototype], and [undefined] is what a name gives that is
    neither. *)
Definition table_get (t : gmap string JsVal) (k : string) : JsVal :=
  match t !! k with
  | Some v => v
  | None => prop Object_prototype k
  end.

(** ** Errors *)

(** Modelled from the spec: the error classes.  [BadRequestError] and
    [NotFoundError] are the two that the models import from [expressError]
    and throw with a message; [StorageError] stands for a rejection raised
    by [db.query] itself, which no model method catches. *)
Inductive Error : Type :=
| BadRequestError (msg : string)
| NotFoundError (msg : string)
| StorageError (msg : string).

(** The error kinds of the specification.  Both ValidationError and
    DuplicateKeyError are raised as [BadRequestError]; the duplicate is told
    apart by its message. *)
Definition is_ValidationError (e : Error) : Prop :=
  match e with BadRequestError _ => True | _ => False end.
Definition is_NotFoundError (e : Error) : Prop :=
  match e with NotFoundError _ => True | _ => False end.
Definition is_DuplicateKeyError (e : Error) : Prop :=
  exists h, e = BadRequestError ("Duplicate company: " +:+ h).

(** ** helpers/sql.js *)

Record PartialUpdate : Type := { setCols : string; values : list JsVal }.

(** The interpolation [${jsToSql[colName] || colName}]. *)
Definition column_of (jsToSql : gmap string JsVal) (colName : string) : string :=
  js_string (js_or (table_get jsToSql colName) (JStr colName)).

(** The arrow function mapped over the keys. *)
Definition assignment (jsToSql : gmap string JsVal) (idx : nat) (colName : string) : string :=
  dq +:+ column_of jsToSql colName +:+ dq +:+ "=$" +:+ dec (idx + 1).

Definition sqlForPartialUpdate (dataToUpdate : Obj) (jsToSql : gmap string JsVal)
  : Error + PartialUpdate :=
  let keys := Object_keys dataToUpdate in
  if Nat.eqb (length keys) 0 then inl (BadRequestError "No data")
  else
    let cols := imap (assignment jsToSql) keys in
    inr {| setCols := join ", " cols; values := Object_values dataToUpdate |}.

(** ** Programs over [db.query] *)

Inductive Prog (A : Type) : Type :=
| Ret (a : A)
| Throw (e : Error)
| Query (sql : string) (qparams : list JsVal) (k : list Obj -> Prog A).
Arguments Ret {A} a.
Arguments Throw {A} e.
Arguments Query {A} sql qparams k.

Fixpoint bind {A B} (p : Prog A) (f : A -> Prog B) : Prog B :=
  match p with
  | Ret a => f a
  | Throw e => Throw e
  | Query sql ps k => Query sql ps (fun rows => bind (k rows) f)
  end.

Definition db_query (sql : string) (ps : list JsVal) : Prog (list Obj) :=
  Query sql ps Ret.

Definition lift {A} (r : Error + A) : Prog A :=
  match r with inl e => Throw e | inr a => Ret a end.

Notation "x <- p ;; q" := (bind p (fun x => q))
  (at level 20, p at level 99, q at level 200, only parsing).

(** [result.rows[0]]. *)
Definition row0 (rows : list Obj) : JsVal :=
  match rows with
  | [] => JUndefined
  | r :: _ => JObj r
  end.

(** Property access, [delete] and assignment on a value that holds a row. *)
Definition js_prop (v : JsVal) (k : string) : JsVal :=
  match v with JObj o => prop o k | _ => JUndefined end.
Definition js_delete (v : JsVal) (k : string) : JsVal :=
  match v with JObj o => JObj (obj_delete k o) | _ => v end.
Definition js_set (v : JsVal) (k : string) (x : JsVal) : JsVal :=
  match v with JObj o => JObj (obj_set k x o) | _ => v end.

(** Filter values as the callers hand them over: a search string or a
    number, [None] when the key is missing ([undefined] after destructuring). *)
Definition js_of_str (o : option string) : JsVal :=
  match o with Some s => JStr s | None => JUndefined end.
Definition js_of_num (o : option Z) : JsVal :=
  match o with Some z => JNum z | None => JUndefined end.

(** [a > b] on two such numbers; a comparison with [undefined] is false. *)
Definition js_gt (a b : option Z) : bool :=
  match a, b with
  | Some x, Some y => Z.gtb x y
  | _, _ => false
  end.

(** ** models/company.js *)

Module Company.

Record Filters : Type :=
  { name : option string; minEmployees : option Z; maxEmployees : option Z }.

Definition no_filters : Filters :=
  {| name := None; minEmployees := None; maxEmployees := None |}.

Definition jsToSql : gmap string JsVal :=
  {[ "numEmployees" := JStr "num_employees"; "logoUrl" := JStr "logo_url" ]}.

Definition duplicateCheck_sql : string :=
  lines ["SELECT handle";
         "           FROM companies";
         "           WHERE handle = $1"].

Definition insert_sql : string :=
  lines ["INSERT INTO companies";
         "           (handle, name, description, num_employees, logo_url)";
         "           VALUES ($1, $2, $3, $4, $5)";
         "           RETURNING handle, name, description, num_employees AS "
           +:+ dq +:+ "numEmployees" +:+ dq +:+ ", logo_url AS "
           +:+ dq +:+ "logoUrl" +:+ dq].

Definition create (data : Obj) : Prog JsVal :=
  let handle := prop data "handle" in
  duplicateCheck <- db_query duplicateCheck_sql [handle] ;;
  if truthy (row0 duplicateCheck)
  then Throw (BadRequestError ("Duplicate company: " +:+ js_string handle))
  else
    result <-
      db_query insert_sql
               [handle; prop data "name"; prop data "description";
                prop data "numEmployees"; prop data "logoUrl"] ;;
    let company := row0 result in
    Ret company.

(** The statement text and the value list that [findAll] has assembled
    when it reaches [db.query]. *)
Definition findAll_query (filters : Filters) : string * list JsVal :=
  let query := lines ["SELECT handle, ";
                      "                        name, ";
                      "                        description, ";
                      "                        num_employees AS " +:+ dq +:+ "numEmployees" +:+ dq +:+ ", ";
                      "                        logo_url AS " +:+ dq +:+ "logoUrl" +:+ dq +:+ " ";
                      "                        FROM companies"] in
  let whereClauses : list string := [] in
  let qVal : list JsVal := [] in
  let name := js_of_str (name filters) in
  let minEmployees := js_of_num (minEmployees filters) in
  let maxEmployees := js_of_num (maxEmployees filters) in
  let qVal := if truthy name then qVal ++ [JStr ("%" +:+ js_string name +:+ "%")] else qVal in
  let whereClauses :=
    if truthy name then whereClauses ++ ["name ILIKE $" +:+ dec (length qVal)]
    else whereClauses in
  let qVal := if truthy minEmployees then qVal ++ [minEmployees] else qVal in
  let whereClauses :=
    if truthy minEmployees then whereClauses ++ ["num_employees >= $" +:+ dec (length qVal)]
    else whereClauses in
  let qVal := if truthy maxEmployees then qVal ++ [maxEmployees] else qVal in
  let whereClauses :=
    if truthy maxEmployees then whereClauses ++ ["num_employees <= $" +:+ dec (length qVal)]
    else whereClauses in
  let query :=
    if Nat.ltb 0 (length whereClauses)
    then query +:+ " WHERE " +:+ join " AND " whereClauses
    else query in
  let query := query +:+ " ORDER BY name" in
  (query, qVal).

Definition findAll (filters : Filters) : Prog (list Obj) :=
  if js_gt (minEmployees filters) (maxEmployees filters)
  then Throw (BadRequestError "minEmployees cannot be greater than maxEmployees")
  else
    result <- db_query (fst (findAll_query filters)) (snd (findAll_query filters)) ;;
    Ret result.

Definition get_sql : string :=
  lines ["SELECT handle,";
         "                  name,";
         "                  description,";
         "                  num_employees AS " +:+ dq +:+ "numEmployees" +:+ dq +:+ ",";
         "                  logo_url AS " +:+ dq +:+ "logoUrl" +:+ dq;
         "           FROM companies";
         "           WHERE handle = $1"].

Definition get (handle : JsVal) : Prog JsVal :=
  companyRes <- db_query get_sql [handle] ;;
  let company := row0 companyRes in
  if negb (truthy company)
  then Throw (NotFoundError ("No company: " +:+ js_string handle))
  else Ret company.

Definition update_sql (setCols handleVarIdx : string) : string :=
  lines ["UPDATE companies ";
         "                      SET " +:+ setCols +:+ " ";
         "                      WHERE handle = " +:+ handleVarIdx +:+ " ";
         "                      RETURNING handle, ";
         "                                name, ";
         "                                description, ";
         "                                num_employees AS " +:+ dq +:+ "numEmployees" +:+ dq +:+ ", ";
         "                                logo_url AS " +:+ dq +:+ "logoUrl" +:+ dq].

Definition update (handle : JsVal) (data : Obj) : Prog JsVal :=
  pu <- lift (sqlForPartialUpdate data jsToSql) ;;
  let handleVarIdx := "$" +:+ dec (length (values pu) + 1) in
  let querySql := update_sql (setCols pu) handleVarIdx in
  result <- db_query querySql (values pu ++ [handle]) ;;
  let company := row0 result in
  if negb (truthy company)
  then Throw (NotFoundError ("No company: " +:+ js_string handle))
  else Ret company.

Definition remove_sql : string :=
  lines ["DELETE";
         "           FROM companies";
         "           WHERE handle = $1";
         "           RETURNING handle"].

Definition remove (handle : JsVal) : Prog unit :=
  result <- db_query remove_sql [handle] ;;
  let company := row0 result in
  if negb (truthy company)
  then Throw (NotFoundError ("No company: " +:+ js_string handle))
  else Ret tt.

End Company.

(** ** models/job.js *)

Module Job.

Record Filters : Type :=
  { minSalary : option Z; hasEquity : JsVal; title : option string }.

Definition no_filters : Filters :=
  {| minSalary := None; hasEquity := JUndefined; title := None |}.

Definition insert_sql : string :=
  lines ["INSERT INTO jobs (title, salary, equity, company_handle)";
         "               VALUES ($1, $2, $3, $4)";
         "               RETURNING id, title, salary, equity, company_handle AS "
           +:+ dq +:+ "companyHandle" +:+ dq].

Definition create (data : Obj) : Prog JsVal :=
  result <-
    db_query insert_sql
             [prop data "title"; prop data "salary"; prop data "equity";
              prop data "companyHandle"] ;;
  let job := row0 result in
  Ret job.

Definition findAll_query (filters : Filters) : string * list JsVal :=
  let query := lines ["SELECT j.id, j.title, j.salary, j.equity, ";
                      "                    j.company_handle AS " +:+ dq +:+ "companyHandle" +:+ dq
                        +:+ ", c.name AS " +:+ dq +:+ "companyName" +:+ dq;
                      "                    FROM jobs j LEFT JOIN companies AS c ON c.handle = j.company_handle"] in
  let whereClauses : list string := [] in
  let qVal : list JsVal := [] in
  let minSalary := js_of_num (minSalary filters) in
  let hasEquity := hasEquity filters in
  let title := js_of_str (title filters) in
  let qVal := if truthy title then qVal ++ [JStr ("%" +:+ js_string title +:+ "%")] else qVal in
  let whereClauses :=
    if truthy title then whereClauses ++ ["title ILIKE $" +:+ dec (length qVal)]
    else whereClauses in
  let qVal := if truthy minSalary then qVal ++ [minSalary] else qVal in
  let whereClauses :=
    if truthy minSalary then whereClauses ++ ["salary >= $" +:+ dec (length qVal)]
    else whereClauses in
  let whereClauses :=
    if truthy hasEquity then whereClauses ++ ["equity > 0"] else whereClauses in
  let query :=
    if Nat.ltb 0 (length whereClauses)
    then query +:+ " WHERE " +:+ join " AND " whereClauses
    else query in
  let query := query +:+ " ORDER BY title" in
  (query, qVal).

Definition findAll (filters : Filters) : Prog (list Obj) :=
  result <- db_query (fst (findAll_query filters)) (snd (findAll_query filters)) ;;
  Ret result.

Definition get_sql : string :=
  lines ["SELECT id, title, salary, equity, company_handle AS "
           +:+ dq +:+ "companyHandle" +:+ dq;
         "           FROM jobs WHERE id = $1"].

Definition company_sql : string :=
  lines ["SELECT handle, name, description, num_employees AS "
           +:+ dq +:+ "numEmployees" +:+ dq +:+ ",";
         "            logo_url AS " +:+ dq +:+ "logoUrl" +:+ dq +:+ " FROM companies";
         "            WHERE handle = $1"].

Definition get (id : JsVal) : Prog JsVal :=
  jobRes <- db_query get_sql [id] ;;
  let job := row0 jobRes in
  if negb (truthy job)
  then Throw (NotFoundError ("No job: " +:+ js_string id))
  else
    companiesRes <- db_query company_sql [js_prop job "companyHandle"] ;;
    let job := js_delete job "companyHandle" in
    let job := js_set job "company" (row0 companiesRes) in
    Ret job.

Definition update_sql (setCols idVarIdx : string) : string :=
  lines ["UPDATE jobs ";
         "                      SET " +:+ setCols +:+ " ";
         "                      WHERE id = " +:+ idVarIdx +:+ " ";
         "                      RETURNING id, ";
         "                                title, ";
         "                                salary, ";
         "                                equity,";
         "                                company_handle AS " +:+ dq +:+ "companyHandle" +:+ dq].

Definition update (id : JsVal) (data : Obj) : Prog JsVal :=
  pu <- lift (sqlForPartialUpdate data ∅) ;;
  let idVarIdx := "$" +:+ dec (length (values pu) + 1) in
  let querySql := update_sql (setCols pu) idVarIdx in
  result <- db_query querySql (values pu ++ [id]) ;;
  let job := row0 result in
  if negb (truthy job)
  then Throw (NotFoundError ("No job: " +:+ js_string id))
  else Ret job.

Definition remove_sql : string :=
  lines ["DELETE FROM jobs WHERE id = $1";
         "           RETURNING id"].

Definition remove (id : JsVal) : Prog unit :=
  result <- db_query remove_sql [id] ;;
  let job := row0 result in
  if negb (truthy job)
  then Throw (NotFoundError ("No job: " +:+ js_string id))
  else Ret tt.

End Job.

(** ** Running a program against a store *)

Section Run.
Context {Store : Type}.

(** The storage adapter: a statement and its values, run on a store, are
    rejected or give rows and the store that results. *)
Definition Db : Type := string -> list JsVal -> Store -> Error + (list Obj * Store).

(** What a call leaves behind: its result, the store, and the statements
    it handed to [db.query], oldest first. *)
Record Outcome (A : Type) : Type :=
  { result : Error + A; store : Store; issued : list (string * list JsVal) }.
Arguments result {A} _.
Arguments store {A} _.
Arguments issued {A} _.

Fixpoint run_from {A} (db : Db) (p : Prog A) (st : Store)
         (log : list (string * list JsVal)) : Outcome A :=
  match p with
  | Ret a => {| result := inr a; store := st; issued := log |}
  | Throw e => {| result := inl e; store := st; issued := log |}
  | Query sql ps k =>
      match db sql ps st with
      | inl e => {| result := inl e; store := st; issued := log ++ [(sql, ps)] |}
      | inr (rows, st') => run_from db (k rows) st' (log ++ [(sql, ps)])
      end
  end.

Definition run {A} (db : Db) (p : Prog A) (st : Store) : Outcome A :=
  run_from db p st [].
End Run.
Arguments result {Store A} _.
Arguments store {Store A} _.
Arguments issued {Store A} _.
Arguments Db : clear implicits.
Arguments Outcome : clear implicits.


(** ** The store

    The models reach the database through [db.query] alone.  The store is
    two tables and an engine that reads the statement text it is handed: it
    covers the forms of SELECT, INSERT, UPDATE and DELETE that the models
    issue and rejects every other text.
    A column that the table does not have, an assignment repeated for one
    column and a value that does not fit its column are rejected before any
    row is looked at, as a relational engine resolves a statement before it
    runs it.  Of the constraints, the primary keys and the reference from a
    job to its company are kept (a deleted company takes its jobs with it);
    value ranges are not part of the model. *)

(** Modelled from the spec: a row of the table [companies].  The columns
    are the ones the INSERT and RETURNING lists of [models/company.js] name;
    the number of employees and the logo may be absent. *)
Record CompanyRow : Type :=
  { c_handle : string; c_name : string; c_description : string;
    c_num_employees : option Z; c_logo_url : option string }.

(** Modelled from the spec: a row of the table [jobs]; salary and equity
    may be absent, the equity is a decimal kept in text form. *)
Record JobRow : Type :=
  { j_id : Z; j_title : string; j_salary : option Z;
    j_equity : option string; j_company_handle : string }.

(** Modelled from the spec: the persistent store, with the next id that
    the store will generate for a job. *)
Record Store : Type :=
  { companies : list CompanyRow; jobs : list JobRow; next_job_id : Z }.

Module Sql.

(** *** Tokens *)

Inductive Keyword : Type :=
| K_SELECT | K_FROM | K_WHERE | K_AS | K_AND | K_ORDER | K_BY | K_INSERT
| K_INTO | K_VALUES | K_RETURNING | K_UPDATE | K_SET | K_DELETE
| K_LEFT | K_JOIN | K_ON.

Inductive CmpOp : Type := OpEq | OpGe | OpLe | OpGt | OpLt | OpILike.

Inductive Token : Type :=
| KW (k : Keyword)
| Ident (s : string)
| Quoted (s : string)
| Param (n : nat)
| IntLit (z : Z)
| Comma
| LParen
| RParen
| Op (o : CmpOp)
| Bad.

Definition is_space (c : ascii) : bool :=
  Ascii.eqb c " " || Ascii.eqb c "010" || Ascii.eqb c "009" || Ascii.eqb c "013".

Definition is_digit (c : ascii) : bool :=
  let n := nat_of_ascii c in Nat.leb 48 n && Nat.leb n 57.

Definition is_upper (c : ascii) : bool :=
  let n := nat_of_ascii c in Nat.leb 65 n && Nat.leb n 90.

Definition is_lower (c : ascii) : bool :=
  let n := nat_of_ascii c in Nat.leb 97 n && Nat.leb n 122.

Definition lower (c : ascii) : ascii :=
  if is_upper c then ascii_of_nat (nat_of_ascii c + 32) else c.

Fixpoint lower_string (s : string) : string :=
  match s with
  | EmptyString => EmptyString
  | String c s' => String (lower c) (lower_string s')
  end.

Fixpoint all_chars (f : ascii -> bool) (s : string) : bool :=
  match s with
  | EmptyString => true
  | String c s' => f c && all_chars f s'
  end.

Definition all_digits (s : string) : bool :=
  negb (String.eqb s "") && all_chars is_digit s.

Definition is_ident_char (c : ascii) : bool :=
  is_lower c || is_digit c || Ascii.eqb c "_" || Ascii.eqb c ".".

Definition nat_of_digits (s : string) : option nat :=
  if all_digits s then Nat.of_uint <$> NilEmpty.uint_of_string s else None.

Definition keywords : list (string * Keyword) :=
  [("select", K_SELECT); ("from", K_FROM); ("where", K_WHERE); ("as", K_AS);
   ("and", K_AND); ("order", K_ORDER); ("by", K_BY); ("insert", K_INSERT);
   ("into", K_INTO); ("values", K_VALUES); ("returning", K_RETURNING);
   ("update", K_UPDATE); ("set", K_SET); ("delete", K_DELETE);
   ("left", K_LEFT); ("join", K_JOIN); ("on", K_ON)].

Fixpoint assoc {A} (k : string) (l : list (string * A)) : option A :=
  match l with
  | [] => None
  | (k', a) :: l' => if String.eqb k' k then Some a else assoc k l'
  end.

(** An unquoted word, already folded to lower case. *)
Definition classify (w : string) : Token :=
  match assoc w keywords with
  | Some k => KW k
  | None =>
      if String.eqb w "ilike" then Op OpILike
      else
        match w with
        | String c d =>
            if Ascii.eqb c "$"
            then match nat_of_digits d with Some n => Param n | None => Bad end
            else if all_digits w
                 then match nat_of_digits w with
                      | Some n => IntLit (Z.of_nat n)
                      | None => Bad
                      end
                 else if all_chars is_ident_char w then Ident w else Bad
        | EmptyString => Bad
        end
  end.

Definition classify_op (o : string) : Token :=
  if String.eqb o "=" then Op OpEq
  else if String.eqb o ">=" then Op OpGe
  else if String.eqb o "<=" then Op OpLe
  else if String.eqb o ">" then Op OpGt
  else if String.eqb o "<" then Op OpLt
  else Bad.

Inductive LexState : Type :=
| LNone
| LWord (acc : string)
| LOp (acc : string)
| LQuoted (acc : string).

Definition flush (st : LexState) : list Token :=
  match st with
  | LNone => []
  | LWord w => [classify w]
  | LOp o => [classify_op o]
  | LQuoted _ => [Bad]
  end.

Definition snoc (s : string) (c : ascii) : string := s +:+ String c EmptyString.

Definition is_op_char (c : ascii) : bool :=
  Ascii.eqb c "=" || Ascii.eqb c "<" || Ascii.eqb c ">".

Fixpoint lex_from (st : LexState) (s : string) : list Token :=
  match s with
  | EmptyString => flush st
  | String c s' =>
      match st with
      | LQuoted acc =>
          if Ascii.eqb c "034" then Quoted acc :: lex_from LNone s'
          else lex_from (LQuoted (snoc acc c)) s'
      | _ =>
          if is_space c then flush st ++ lex_from LNone s'
          else if Ascii.eqb c "034" then flush st ++ lex_from (LQuoted EmptyString) s'
          else if Ascii.eqb c "," then flush st ++ Comma :: lex_from LNone s'
          else if Ascii.eqb c "(" then flush st ++ LParen :: lex_from LNone s'
          else if Ascii.eqb c ")" then flush st ++ RParen :: lex_from LNone s'
          else if is_op_char c
               then match st with
                    | LOp acc => lex_from (LOp (snoc acc c)) s'
                    | _ => flush st ++ lex_from (LOp (String c EmptyString)) s'
                    end
               else match st with
                    | LWord acc => lex_from (LWord (snoc acc (lower c))) s'
                    | _ => flush st ++ lex_from (LWord (String (lower c) EmptyString)) s'
                    end
      end
  end.

Definition lex (s : string) : list Token := lex_from LNone s.

(** *** Statements *)

Inductive Operand : Type := OParam (n : nat) | OInt (z : Z).

Record Cond : Type := { cond_col : string; cond_op : CmpOp; cond_arg : Operand }.

(** A selected column and the name it is returned under. *)
Abbreviation Item := (string * string)%type.

Inductive From : Type :=
| FTable (t : string)
| FLeftJoin (t1 a1 t2 a2 : string) (on_l on_r : string).

Inductive Stmt : Type :=
| SSelect (items : list Item) (from : From) (conds : list Cond) (order_by : option string)
| SInsert (table : string) (cols : list string) (vals : list Operand) (returning : list Item)
| SUpdate (table : string) (assigns : list (string * Operand)) (conds : list Cond)
          (returning : list Item)
| SDelete (table : string) (conds : list Cond) (returning : list Item).

Definition colref (t : Token) : option string :=
  match t with
  | Ident s | Quoted s => Some s
  | _ => None
  end.

Definition operand (t : Token) : option Operand :=
  match t with
  | Param n => Some (OParam n)
  | IntLit z => Some (OInt z)
  | _ => None
  end.

Abbreviation Parsed A := (option (A * list Token)).

(** The part of a qualified name after its last dot. *)
Fixpoint unqualified (s : string) : string :=
  match s with
  | EmptyString => EmptyString
  | String c s' =>
      if existsb (Ascii.eqb ".") (list_ascii_of_string s') then unqualified s'
      else if Ascii.eqb c "." then s' else s
  end.

(** The name a column is returned under when the statement gives none. *)
Definition output_name (t : Token) : option string :=
  match t with
  | Ident s => Some (unqualified s)
  | Quoted s => Some s
  | _ => None
  end.

Fixpoint parse_items (ts : list Token) : Parsed (list Item) :=
  match ts with
  | c :: KW K_AS :: a :: Comma :: ts' =>
      c' ← colref c; a' ← colref a;
      r ← parse_items ts'; Some ((c', a') :: r.1, r.2)
  | c :: KW K_AS :: a :: ts' =>
      c' ← colref c; a' ← colref a; Some ([(c', a')], ts')
  | c :: Comma :: ts' =>
      c' ← colref c; a' ← output_name c;
      r ← parse_items ts'; Some ((c', a') :: r.1, r.2)
  | c :: ts' =>
      c' ← colref c; a' ← output_name c; Some ([(c', a')], ts')
  | [] => None
  end.

Fixpoint parse_cols (ts : list Token) : Parsed (list string) :=
  match ts with
  | c :: Comma :: ts' =>
      c' ← colref c; r ← parse_cols ts'; Some (c' :: r.1, r.2)
  | c :: ts' => c' ← colref c; Some ([c'], ts')
  | [] => None
  end.

Fixpoint parse_operands (ts : list Token) : Parsed (list Operand) :=
  match ts with
  | o :: Comma :: ts' =>
      o' ← operand o; r ← parse_operands ts'; Some (o' :: r.1, r.2)
  | o :: ts' => o' ← operand o; Some ([o'], ts')
  | [] => None
  end.

Fixpoint parse_assigns (ts : list Token) : Parsed (list (string * Operand)) :=
  match ts with
  | c :: Op OpEq :: o :: Comma :: ts' =>
      c' ← colref c; o' ← operand o;
      r ← parse_assigns ts'; Some ((c', o') :: r.1, r.2)
  | c :: Op OpEq :: o :: ts' =>
      c' ← colref c; o' ← operand o; Some ([(c', o')], ts')
  | _ => None
  end.

Fixpoint parse_conds (ts : list Token) : Parsed (list Cond) :=
  match ts with
  | c :: Op op :: o :: KW K_AND :: ts' =>
      c' ← colref c; o' ← operand o;
      r ← parse_conds ts';
      Some ({| cond_col := c'; cond_op := op; cond_arg := o' |} :: r.1, r.2)
  | c :: Op op :: o :: ts' =>
      c' ← colref c; o' ← operand o;
      Some ([{| cond_col := c'; cond_op := op; cond_arg := o' |}], ts')
  | _ => None
  end.

Definition parse_where (ts : list Token) : Parsed (list Cond) :=
  match ts with
  | KW K_WHERE :: ts' => parse_conds ts'
  | _ => Some ([], ts)
  end.

Definition parse_order (ts : list Token) : option (option string) :=
  match ts with
  | [] => Some None
  | [KW K_ORDER; KW K_BY; c] => c' ← colref c; Some (Some c')
  | _ => None
  end.

Definition parse_from (ts : list Token) : Parsed From :=
  match ts with
  | Ident t1 :: Ident a1 :: KW K_LEFT :: KW K_JOIN :: Ident t2 :: KW K_AS :: Ident a2
      :: KW K_ON :: Ident l :: Op OpEq :: Ident r :: ts' =>
      Some (FLeftJoin t1 a1 t2 a2 l r, ts')
  | Ident t :: ts' => Some (FTable t, ts')
  | _ => None
  end.

Definition parse_returning (ts : list Token) : option (list Item) :=
  match ts with
  | KW K_RETURNING :: ts' =>
      r ← parse_items ts';
      match r.2 with [] => Some r.1 | _ => None end
  | _ => None
  end.

Definition parse (ts : list Token) : option Stmt :=
  match ts with
  | KW K_SELECT :: ts1 =>
      items ← parse_items ts1;
      match items.2 with
      | KW K_FROM :: ts2 =>
          from ← parse_from ts2;
          conds ← parse_where from.2;
          order ← parse_order conds.2;
          Some (SSelect items.1 from.1 conds.1 order)
      | _ => None
      end
  | KW K_INSERT :: KW K_INTO :: Ident t :: LParen :: ts1 =>
      cols ← parse_cols ts1;
      match cols.2 with
      | RParen :: KW K_VALUES :: LParen :: ts2 =>
          vals ← parse_operands ts2;
          match vals.2 with
          | RParen :: ts3 =>
              ret ← parse_returning ts3;
              Some (SInsert t cols.1 vals.1 ret)
          | _ => None
          end
      | _ => None
      end
  | KW K_UPDATE :: Ident t :: KW K_SET :: ts1 =>
      assigns ← parse_assigns ts1;
      match assigns.2 with
      | KW K_WHERE :: ts2 =>
          conds ← parse_conds ts2;
          ret ← parse_returning conds.2;
          Some (SUpdate t assigns.1 conds.1 ret)
      | _ => None
      end
  | KW K_DELETE :: KW K_FROM :: Ident t :: KW K_WHERE :: ts1 =>
      conds ← parse_conds ts1;
      ret ← parse_returning conds.2;
      Some (SDelete t conds.1 ret)
  | _ => None
  end.

(** *** Cells and columns *)

Inductive ColType : Type := TText | TInt | TNumeric.

(** A NUMERIC cell keeps its decimal text, as the driver returns it. *)
Inductive Cell : Type := CNull | CInt (z : Z) | CText (s : string) | CNum (s : string).

Definition cell_to_js (c : Cell) : JsVal :=
  match c with
  | CNull => JNull
  | CInt z => JNum z
  | CText s | CNum s => JStr s
  end.

(** An integer in text form: an optional sign and digits. *)
Definition int_of_string (s : string) : option Z :=
  match s with
  | String c d =>
      if Ascii.eqb c "-" then (fun n => (- Z.of_nat n)%Z) <$> nat_of_digits d
      else if Ascii.eqb c "+" then Z.of_nat <$> nat_of_digits d
      else Z.of_nat <$> nat_of_digits s
  | EmptyString => None
  end.

Fixpoint split_dot (s : string) : string * option string :=
  match s with
  | EmptyString => (EmptyString, None)
  | String c s' =>
      if Ascii.eqb c "." then (EmptyString, Some s')
      else let r := split_dot s' in (String c r.1, r.2)
  end.

Definition canonical_nat (s : string) : option nat :=
  match s with
  | String c s' =>
      if Ascii.eqb c "0" && negb (String.eqb s' "") then None else nat_of_digits s
  | EmptyString => None
  end.

(** A decimal numeral in the form the store prints it: mantissa and scale. *)
Definition unsigned_numeric (s : string) : option (Z * nat) :=
  let p := split_dot s in
  i ← canonical_nat p.1;
  match p.2 with
  | None => Some (Z.of_nat i, 0)
  | Some f =>
      n ← nat_of_digits f;
      Some ((Z.of_nat i * 10 ^ Z.of_nat (String.length f) + Z.of_nat n)%Z, String.length f)
  end.

Definition numeric_value (s : string) : option (Z * nat) :=
  match s with
  | String c d =>
      if Ascii.eqb c "-"
      then v ← unsigned_numeric d;
           if Z.eqb v.1 0 then None else Some ((- v.1)%Z, v.2)
      else unsigned_numeric s
  | EmptyString => None
  end.

Definition numeric_compare (a b : Z * nat) : comparison :=
  (a.1 * 10 ^ Z.of_nat b.2 ?= b.1 * 10 ^ Z.of_nat a.2)%Z.

(** What a bound value becomes in a column of the given type; [None] when
    the store rejects it.  The driver sends [undefined] as NULL and every
    other scalar in its text form. *)
Definition coerce (ty : ColType) (v : JsVal) : option Cell :=
  match v with
  | JUndefined | JNull => Some CNull
  | JObj _ | JFun _ => None
  | JNum z =>
      match ty with
      | TText => Some (CText (decZ z))
      | TInt => Some (CInt z)
      | TNumeric => Some (CNum (decZ z))
      end
  | JStr s =>
      match ty with
      | TText => Some (CText s)
      | TInt => CInt <$> int_of_string s
      | TNumeric => match numeric_value s with Some _ => Some (CNum s) | None => None end
      end
  | JBool _ =>
      match ty with
      | TText => Some (CText (js_string v))
      | _ => None
      end
  end.

Definition cell_compare (a b : Cell) : option comparison :=
  match a, b with
  | CInt x, CInt y => Some (x ?= y)%Z
  | CText x, CText y => Some (String.compare x y)
  | CNum x, CNum y =>
      n ← numeric_value x; m ← numeric_value y; Some (numeric_compare n m)
  | _, _ => None
  end.

(** LIKE: [%] any run of characters, [_] any one, backslash the escape. *)
Fixpoint like (p s : list ascii) : bool :=
  match p with
  | [] => match s with [] => true | _ => false end
  | c :: p' =>
      if Ascii.eqb c "%"
      then (fix skip (s : list ascii) : bool :=
              like p' s || match s with [] => false | _ :: s' => skip s' end) s
      else if Ascii.eqb c "_"
      then match s with [] => false | _ :: s' => like p' s' end
      else if Ascii.eqb c "\"
      then match p', s with
           | c2 :: p'', x :: s' => Ascii.eqb x c2 && like p'' s'
           | _, _ => false
           end
      else match s with
           | x :: s' => Ascii.eqb x c && like p' s'
           | [] => false
           end
  end.

Definition ilike (pattern s : string) : bool :=
  like (list_ascii_of_string (lower_string pattern))
       (list_ascii_of_string (lower_string s)).

(** A comparison with NULL is never true. *)
Definition cell_test (op : CmpOp) (a b : Cell) : bool :=
  match op with
  | OpILike =>
      match a, b with CText s, CText p => ilike p s | _, _ => false end
  | _ =>
      match cell_compare a b with
      | Some c =>
          match op, c with
          | OpEq, Eq => true
          | OpGe, (Eq | Gt) => true
          | OpLe, (Eq | Lt) => true
          | OpGt, Gt => true
          | OpLt, Lt => true
          | _, _ => false
          end
      | None => false
      end
  end.

(** Ascending order, NULL last. *)
Definition cell_le (a b : Cell) : bool :=
  match a, b with
  | _, CNull => true
  | CNull, _ => false
  | _, _ => match cell_compare a b with Some Gt => false | _ => true end
  end.

(** *** Tables *)

Class Relation (R : Type) : Type :=
  { columns : list (string * ColType);
    get_col : R -> string -> Cell }.

Class Table (R : Type) `{Relation R} : Type :=
  { set_col : string -> Cell -> R -> option R;
    blank : Z -> R;
    required : list string }.

Section Engine.
Context {R : Type} `{Table R}.

Definition col_type (c : string) : option ColType := assoc c columns.

Definition param (ps : list JsVal) (n : nat) : option JsVal :=
  match n with
  | 0 => None
  | S i => ps !! i
  end.

Definition bind_operand (ty : ColType) (ps : list JsVal) (o : Operand) : option Cell :=
  match o with
  | OParam n => v ← param ps n; coerce ty v
  | OInt z => match ty with TText => None | _ => coerce ty (JNum z) end
  end.

Definition op_ok (ty : ColType) (op : CmpOp) : bool :=
  match op, ty with
  | OpILike, (TInt | TNumeric) => false
  | _, _ => true
  end.

(** A condition with its value bound: column, operator, cell. *)
Definition bind_cond (ps : list JsVal) (c : Cond) : option (string * CmpOp * Cell) :=
  ty ← col_type (cond_col c);
  if op_ok ty (cond_op c)
  then v ← bind_operand ty ps (cond_arg c); Some (cond_col c, cond_op c, v)
  else None.

Definition matches (bcs : list (string * CmpOp * Cell)) (r : R) : bool :=
  forallb (fun bc => cell_test bc.1.2 (get_col r bc.1.1) bc.2) bcs.

Definition items_ok (items : list Item) : bool :=
  forallb (fun it => bool_decide (is_Some (col_type it.1))) items.

Definition project (items : list Item) (r : R) : Obj :=
  map (fun it => (it.2, cell_to_js (get_col r it.1))) items.

Fixpoint insert_by (c : string) (r : R) (l : list R) : list R :=
  match l with
  | [] => [r]
  | r' :: l' =>
      if cell_le (get_col r c) (get_col r' c) then r :: l
      else r' :: insert_by c r l'
  end.

Definition sort_by (c : string) (l : list R) : list R :=
  foldr (insert_by c) [] l.

Definition select (items : list Item) (conds : list Cond) (order : option string)
           (ps : list JsVal) (tbl : list R) : option (list Obj) :=
  bcs ← mapM (bind_cond ps) conds;
  if items_ok items
  then
    let rows := List.filter (matches bcs) tbl in
    match order with
    | None => Some (map (project items) rows)
    | Some c =>
        if bool_decide (is_Some (col_type c))
        then Some (map (project items) (sort_by c rows))
        else None
    end
  else None.

Definition bind_assign (ps : list JsVal) (a : string * Operand) : option (string * Cell) :=
  ty ← col_type a.1; v ← bind_operand ty ps a.2; Some (a.1, v).

Fixpoint apply_assigns (bas : list (string * Cell)) (r : R) : option R :=
  match bas with
  | [] => Some r
  | (c, v) :: bas' => r' ← set_col c v r; apply_assigns bas' r'
  end.

(** The returned rows and the table after the update. *)
Fixpoint update_rows (bas : list (string * Cell)) (bcs : list (string * CmpOp * Cell))
         (ret : list Item) (tbl : list R) : option (list Obj * list R) :=
  match tbl with
  | [] => Some ([], [])
  | r :: tbl' =>
      rest ← update_rows bas bcs ret tbl';
      if matches bcs r
      then r' ← apply_assigns bas r; Some (project ret r' :: rest.1, r' :: rest.2)
      else Some (rest.1, r :: rest.2)
  end.

Definition update (assigns : list (string * Operand)) (conds : list Cond)
           (ret : list Item) (ps : list JsVal) (tbl : list R)
  : option (list Obj * list R) :=
  bas ← mapM (bind_assign ps) assigns;
  bcs ← mapM (bind_cond ps) conds;
  if bool_decide (NoDup (map fst assigns)) && items_ok ret
  then update_rows bas bcs ret tbl
  else None.

(** The returned rows, the rows deleted and the table that is left. *)
Definition delete (conds : list Cond) (ret : list Item) (ps : list JsVal)
           (tbl : list R) : option (list Obj * list R * list R) :=
  bcs ← mapM (bind_cond ps) conds;
  if items_ok ret
  then let gone := List.filter (matches bcs) tbl in
       Some (map (project ret) gone, gone,
             List.filter (fun r => negb (matches bcs r)) tbl)
  else None.

Definition insert (cols : list string) (vals : list Operand) (ret : list Item)
           (ps : list JsVal) (serial : Z) (tbl : list R)
  : option (list Obj * list R) :=
  if Nat.eqb (length cols) (length vals)
  then
    bas ← mapM (bind_assign ps) (combine cols vals);
    if bool_decide (NoDup cols) && items_ok ret
       && forallb (fun c => existsb (String.eqb c) cols) required
    then r ← apply_assigns bas (blank serial); Some ([project ret r], tbl ++ [r])
    else None
  else None.
End Engine.

(** *** The two tables *)

Definition text_cell (o : option string) : Cell :=
  match o with Some s => CText s | None => CNull end.
Definition int_cell (o : option Z) : Cell :=
  match o with Some z => CInt z | None => CNull end.
Definition num_cell (o : option string) : Cell :=
  match o with Some s => CNum s | None => CNull end.

Definition company_columns : list (string * ColType) :=
  [("handle", TText); ("name", TText); ("description", TText);
   ("num_employees", TInt); ("logo_url", TText)].

Definition company_get (r : CompanyRow) (c : string) : Cell :=
  if String.eqb c "handle" then CText (c_handle r)
  else if String.eqb c "name" then CText (c_name r)
  else if String.eqb c "description" then CText (c_description r)
  else if String.eqb c "num_employees" then int_cell (c_num_employees r)
  else if String.eqb c "logo_url" then text_cell (c_logo_url r)
  else CNull.

Definition company_set (c : string) (v : Cell) (r : CompanyRow) : option CompanyRow :=
  let '{| c_handle := h; c_name := n; c_description := d;
          c_num_employees := e; c_logo_url := l |} := r in
  if String.eqb c "handle" then
    match v with
    | CText s => Some {| c_handle := s; c_name := n; c_description := d;
                         c_num_employees := e; c_logo_url := l |}
    | _ => None
    end
  else if String.eqb c "name" then
    match v with
    | CText s => Some {| c_handle := h; c_name := s; c_description := d;
                         c_num_employees := e; c_logo_url := l |}
    | _ => None
    end
  else if String.eqb c "description" then
    match v with
    | CText s => Some {| c_handle := h; c_name := n; c_description := s;
                         c_num_employees := e; c_logo_url := l |}
    | _ => None
    end
  else if String.eqb c "num_employees" then
    match v with
    | CInt z => Some {| c_handle := h; c_name := n; c_description := d;
                        c_num_employees := Some z; c_logo_url := l |}
    | CNull => Some {| c_handle := h; c_name := n; c_description := d;
                       c_num_employees := None; c_logo_url := l |}
    | _ => None
    end
  else if String.eqb c "logo_url" then
    match v with
    | CText s => Some {| c_handle := h; c_name := n; c_description := d;
                         c_num_employees := e; c_logo_url := Some s |}
    | CNull => Some {| c_handle := h; c_name := n; c_description := d;
                       c_num_employees := e; c_logo_url := None |}
    | _ => None
    end
  else None.

#[global] Instance company_relation : Relation CompanyRow :=
  {| columns := company_columns; get_col := company_get |}.

#[global] Instance company_table : Table CompanyRow :=
  {| set_col := company_set;
     blank := fun _ => {| c_handle := ""; c_name := ""; c_description := "";
                          c_num_employees := None; c_logo_url := None |};
     required := ["handle"; "name"; "description"] |}.

Definition job_columns : list (string * ColType) :=
  [("id", TInt); ("title", TText); ("salary", TInt); ("equity", TNumeric);
   ("company_handle", TText)].

Definition job_get (r : JobRow) (c : string) : Cell :=
  if String.eqb c "id" then CInt (j_id r)
  else if String.eqb c "title" then CText (j_title r)
  else if String.eqb c "salary" then int_cell (j_salary r)
  else if String.eqb c "equity" then num_cell (j_equity r)
  else if String.eqb c "company_handle" then CText (j_company_handle r)
  else CNull.

Definition job_set (c : string) (v : Cell) (r : JobRow) : option JobRow :=
  let '{| j_id := i; j_title := t; j_salary := s; j_equity := e;
          j_company_handle := h |} := r in
  if String.eqb c "id" then
    match v with
    | CInt z => Some {| j_id := z; j_title := t; j_salary := s; j_equity := e;
                        j_company_handle := h |}
    | _ => None
    end
  else if String.eqb c "title" then
    match v with
    | CText x => Some {| j_id := i; j_title := x; j_salary := s; j_equity := e;
                         j_company_handle := h |}
    | _ => None
    end
  else if String.eqb c "salary" then
    match v with
    | CInt z => Some {| j_id := i; j_title := t; j_salary := Some z; j_equity := e;
                        j_company_handle := h |}
    | CNull => Some {| j_id := i; j_title := t; j_salary := None; j_equity := e;
                       j_company_handle := h |}
    | _ => None
    end
  else if String.eqb c "equity" then
    match v with
    | CNum x => Some {| j_id := i; j_title := t; j_salary := s; j_equity := Some x;
                        j_company_handle := h |}
    | CNull => Some {| j_id := i; j_title := t; j_salary := s; j_equity := None;
                       j_company_handle := h |}
    | _ => None
    end
  else if String.eqb c "company_handle" then
    match v with
    | CText x => Some {| j_id := i; j_title := t; j_salary := s; j_equity := e;
                         j_company_handle := x |}
    | _ => None
    end
  else None.

#[global] Instance job_relation : Relation JobRow :=
  {| columns := job_columns; get_col := job_get |}.

#[global] Instance job_table : Table JobRow :=
  {| set_col := job_set;
     blank := fun serial => {| j_id := serial; j_title := ""; j_salary := None;
                               j_equity := None; j_company_handle := "" |};
     required := ["title"; "company_handle"] |}.

(** The rows of [jobs j LEFT JOIN companies AS c ON c.handle =
    j.company_handle]: a job and its company, if it has one.  The columns
    answer to their qualified names and, no name being shared by the two
    tables, to their bare names. *)
Definition qualify (a : string) (cols : list (string * ColType)) : list (string * ColType) :=
  map (fun c => (a +:+ "." +:+ c.1, c.2)) cols.

Definition joined_columns : list (string * ColType) :=
  qualify "j" job_columns ++ qualify "c" company_columns
    ++ job_columns ++ company_columns.

Definition joined_get (r : JobRow * option CompanyRow) (c : string) : Cell :=
  let bare := unqualified c in
  if bool_decide (is_Some (assoc bare job_columns)) then job_get r.1 bare
  else match r.2 with
       | Some co => company_get co bare
       | None => CNull
       end.

#[global] Instance joined_relation : Relation (JobRow * option CompanyRow) :=
  {| columns := joined_columns; get_col := joined_get |}.

Definition company_of (st : Store) (j : JobRow) : option CompanyRow :=
  List.find (fun c => String.eqb (c_handle c) (j_company_handle j)) (companies st).

(** *** Statements on the store *)

Definition with_companies (st : Store) (l : list CompanyRow) : Store :=
  {| companies := l; jobs := jobs st; next_job_id := next_job_id st |}.
Definition with_jobs (st : Store) (l : list JobRow) : Store :=
  {| companies := companies st; jobs := l; next_job_id := next_job_id st |}.

(** Primary keys are unique and every job has its company. *)
Definition store_ok (st : Store) : bool :=
  bool_decide (NoDup (map c_handle (companies st)))
  && bool_decide (NoDup (map j_id (jobs st)))
  && forallb (fun j => bool_decide (is_Some (company_of st j))) (jobs st).

(** The constraints are checked when a statement has touched a row. *)
Definition checked (out : list Obj) (st' : Store) : option (list Obj * Store) :=
  match out with
  | [] => Some (out, st')
  | _ => if store_ok st' then Some (out, st') else None
  end.

(** Deleting companies takes the jobs that refer to them along. *)
Definition cascade (deleted : list CompanyRow) (st : Store) : Store :=
  with_jobs st
    (List.filter
       (fun j => negb (existsb (fun c => String.eqb (c_handle c) (j_company_handle j))
                               deleted))
       (jobs st)).

Definition exec (s : Stmt) (ps : list JsVal) (st : Store) : option (list Obj * Store) :=
  match s with
  | SSelect items (FTable t) conds order =>
      if String.eqb t "companies"
      then out ← select items conds order ps (companies st); Some (out, st)
      else if String.eqb t "jobs"
      then out ← select items conds order ps (jobs st); Some (out, st)
      else None
  | SSelect items (FLeftJoin t1 a1 t2 a2 l r) conds order =>
      if String.eqb t1 "jobs" && String.eqb a1 "j" && String.eqb t2 "companies"
         && String.eqb a2 "c" && String.eqb l "c.handle"
         && String.eqb r "j.company_handle"
      then out ← select items conds order ps
                   (map (fun j => (j, company_of st j)) (jobs st));
           Some (out, st)
      else None
  | SInsert t cols vals ret =>
      if String.eqb t "companies"
      then r ← insert cols vals ret ps 0%Z (companies st);
           checked r.1 (with_companies st r.2)
      else if String.eqb t "jobs"
      then r ← insert cols vals ret ps (next_job_id st) (jobs st);
           checked r.1 {| companies := companies st; jobs := r.2;
                          next_job_id := (next_job_id st + 1)%Z |}
      else None
  | SUpdate t assigns conds ret =>
      if String.eqb t "companies"
      then r ← update assigns conds ret ps (companies st);
           checked r.1 (with_companies st r.2)
      else if String.eqb t "jobs"
      then r ← update assigns conds ret ps (jobs st);
           checked r.1 (with_jobs st r.2)
      else None
  | SDelete t conds ret =>
      if String.eqb t "companies"
      then r ← delete conds ret ps (companies st);
           Some (r.1.1, cascade r.1.2 (with_companies st r.2))
      else if String.eqb t "jobs"
      then r ← delete conds ret ps (jobs st); Some (r.1.1, with_jobs st r.2)
      else None
  end.

End Sql.

(** Modelled from the spec: [db.query], the storage adapter, on the store.
    It takes a statement text and a positional value list and gives the
    result rows in order, or rejects the statement. *)
Definition pg_query : Db Store := fun sql ps st =>
  match Sql.parse (Sql.lex sql) with
  | None => inl (StorageError "syntax error")
  | Some stmt =>
      match Sql.exec stmt ps st with
      | None => inl (StorageError "statement rejected")
      | Some r => inr r
      end
  end.

(** ** Which filters are active

    The filters whose branch [findAll] takes: the keys that are present
    with a truthy value. *)
Definition company_active (f : Company.Filters) : bool * bool * bool :=
  (truthy (js_of_str (Company.name f)),
   truthy (js_of_num (Company.minEmployees f)),
   truthy (js_of_num (Company.maxEmployees f))).

Definition job_active (f : Job.Filters) : bool * bool * bool :=
  (truthy (js_of_str (Job.title f)),
   truthy (js_of_num (Job.minSalary f)),
   truthy (Job.hasEquity f)).

(** The values of the active filters, as they are bound. *)
Definition company_bound_values (f : Company.Filters) : list JsVal :=
  (if truthy (js_of_str (Company.name f))
   then [JStr ("%" +:+ js_string (js_of_str (Company.name f)) +:+ "%")] else [])
  ++ (if truthy (js_of_num (Company.minEmployees f))
      then [js_of_num (Company.minEmployees f)] else [])
  ++ (if truthy (js_of_num (Company.maxEmployees f))
      then [js_of_num (Company.maxEmployees f)] else []).

Definition job_bound_values (f : Job.Filters) : list JsVal :=
  (if truthy (js_of_str (Job.title f))
   then [JStr ("%" +:+ js_string (js_of_str (Job.title f)) +:+ "%")] else [])
  ++ (if truthy (js_of_num (Job.minSalary f))
      then [js_of_num (Job.minSalary f)] else []).

(** ** Statements the builder's output parses to *)

#[export] Instance operand_eq_dec : EqDecision Sql.Operand.
Proof. solve_decision. Defined.
#[export] Instance cmpop_eq_dec : EqDecision Sql.CmpOp.
Proof. solve_decision. Defined.
#[export] Instance cond_eq_dec : EqDecision Sql.Cond.
Proof. solve_decision. Defined.
#[export] Instance from_eq_dec : EqDecision Sql.From.
Proof. solve_decision. Defined.
#[export] Instance stmt_eq_dec : EqDecision Sql.Stmt.
Proof. solve_decision. Defined.

(** The condition that compares the key column with the [n]-th value. *)
Definition key_cond (key : string) (n : nat) : Sql.Cond :=
  {| Sql.cond_col := key; Sql.cond_op := Sql.OpEq; Sql.cond_arg := Sql.OParam n |}.

(** The SET clause for a list of column names, and the UPDATE statement it
    stands for: the [i]-th column takes the [i]-th value and the key is
    compared with the value after the last. *)
Definition set_clause (cols : list string) : string :=
  join ", " (imap (fun i c => dq +:+ c +:+ dq +:+ "=$" +:+ dec (i + 1)) cols).

Definition update_stmt (table key : string) (ret : list Sql.Item) (cols : list string)
  : Sql.Stmt :=
  Sql.SUpdate table (imap (fun i c => (c, Sql.OParam (i + 1))) cols)
              [key_cond key (length cols + 1)] ret.

Definition company_items : list Sql.Item :=
  [("handle", "handle"); ("name", "name"); ("description", "description");
   ("num_employees", "numEmployees"); ("logo_url", "logoUrl")].

Definition job_items : list Sql.Item :=
  [("id", "id"); ("title", "title"); ("salary", "salary"); ("equity", "equity");
   ("company_handle", "companyHandle")].

Definition company_update_parses (cols : list string) : bool :=
  bool_decide
    (Sql.parse (Sql.lex (Company.update_sql (set_clause cols) ("$" +:+ dec (length cols + 1))))
     = Some (update_stmt "companies" "handle" company_items cols)).

Definition job_update_parses (cols : list string) : bool :=
  bool_decide
    (Sql.parse (Sql.lex (Job.update_sql (set_clause cols) ("$" +:+ dec (length cols + 1))))
     = Some (update_stmt "jobs" "id" job_items cols)).

(** Every list over [xs] of length at most [n]. *)
Fixpoint lists_upto {A} (xs : list A) (n : nat) : list (list A) :=
  match n with
  | 0 => [[]]
  | S n' => [] :: flat_map (fun x => map (cons x) (lists_upto xs n')) xs
  end.

(** The field maps whose UPDATE the store takes: every key resolves to a
    column of the table, no column is assigned twice, and every value fits
    the type of its column. *)
Definition accepted (columns : list (string * Sql.ColType)) (jsToSql : gmap string JsVal)
           (data : Obj) : bool :=
  forallb (fun kv =>
             match Sql.assoc (column_of jsToSql kv.1) columns with
             | Some ty => bool_decide (is_Some (Sql.coerce ty kv.2))
             | None => false
             end) data
  && bool_decide (NoDup (map (fun kv => column_of jsToSql kv.1) data)).

(** ** The filters as the specification reads them *)

(** [needle] occurs in [hay]. *)
Fixpoint occurs_in (needle hay : string) : bool :=
  String.prefix needle hay
  || match hay with
     | EmptyString => false
     | String _ hay' => occurs_in needle hay'
     end.

(** Modelled from the spec: a company passes a filter set when its name
    contains the given string, letter case aside, and its number of employees
    is at least the given minimum and at most the given maximum; a filter
    that is not supplied asks nothing. *)
Definition spec_company_passes (f : Company.Filters) (c : CompanyRow) : bool :=
  match Company.name f with
  | Some n => occurs_in (Sql.lower_string n) (Sql.lower_string (c_name c))
  | None => true
  end
  && match Company.minEmployees f with
     | Some a => match c_num_employees c with Some e => Z.leb a e | None => false end
     | None => true
     end
  && match Company.maxEmployees f with
     | Some b => match c_num_employees c with Some e => Z.leb e b | None => false end
     | None => true
     end.

(** ** A sample store

    The company and the three jobs of the route tests, and two more
    companies, one of them without an employee count. *)
Definition sample_store : Store :=
  {| companies :=
       [ {| c_handle := "c1"; c_name := "C1"; c_description := "Desc1";
            c_num_employees := Some 1%Z; c_logo_url := Some "http://c1.img" |};
         {| c_handle := "c2"; c_name := "C2"; c_description := "Desc2";
            c_num_employees := Some 2%Z; c_logo_url := Some "http://c2.img" |};
         {| c_handle := "c3"; c_name := "C3"; c_description := "Desc3";
            c_num_employees := None; c_logo_url := None |} ];
     jobs :=
       [ {| j_id := 1; j_title := "J1"; j_salary := Some 1%Z; j_equity := Some "0.1";
            j_company_handle := "c1" |};
         {| j_id := 2; j_title := "J2"; j_salary := Some 2%Z; j_equity := Some "0.2";
            j_company_handle := "c1" |};
         {| j_id := 3; j_title := "J3"; j_salary := Some 3%Z; j_equity := None;
            j_company_handle := "c1" |} ];
     next_job_id := 4 |}.

(** ** What [findAll] asks for and returns *)

(** The conditions that the WHERE clause of [Company.findAll] stands for,
    by active filter; the placeholders count the active filters before. *)
Definition company_conds (act : bool * bool * bool) : list Sql.Cond :=
  let n1 := if act.1.1 then 1 else 0 in
  let n2 := n1 + (if act.1.2 then 1 else 0) in
  (if act.1.1
   then [{| Sql.cond_col := "name"; Sql.cond_op := Sql.OpILike;
            Sql.cond_arg := Sql.OParam 1 |}] else [])
  ++ (if act.1.2
      then [{| Sql.cond_col := "num_employees"; Sql.cond_op := Sql.OpGe;
               Sql.cond_arg := Sql.OParam (n1 + 1) |}] else [])
  ++ (if act.2
      then [{| Sql.cond_col := "num_employees"; Sql.cond_op := Sql.OpLe;
               Sql.cond_arg := Sql.OParam (n2 + 1) |}] else []).

Definition company_select (act : bool * bool * bool) : Sql.Stmt :=
  Sql.SSelect company_items (Sql.FTable "companies") (company_conds act) (Some "name").

Definition job_list_items : list Sql.Item :=
  [("j.id", "id"); ("j.title", "title"); ("j.salary", "salary"); ("j.equity", "equity");
   ("j.company_handle", "companyHandle"); ("c.name", "companyName")].

Definition job_conds (act : bool * bool * bool) : list Sql.Cond :=
  let n1 := if act.1.1 then 1 else 0 in
  (if act.1.1
   then [{| Sql.cond_col := "title"; Sql.cond_op := Sql.OpILike;
            Sql.cond_arg := Sql.OParam 1 |}] else [])
  ++ (if act.1.2
      then [{| Sql.cond_col := "salary"; Sql.cond_op := Sql.OpGe;
               Sql.cond_arg := Sql.OParam (n1 + 1) |}] else [])
  ++ (if act.2
      then [{| Sql.cond_col := "equity"; Sql.cond_op := Sql.OpGt;
               Sql.cond_arg := Sql.OInt 0 |}] else []).

Definition job_select (act : bool * bool * bool) : Sql.Stmt :=
  Sql.SSelect job_list_items
              (Sql.FLeftJoin "jobs" "j" "companies" "c" "c.handle" "j.company_handle")
              (job_conds act) (Some "title").

(** A company and a job as the rows of the result show them. *)
Definition company_object (c : CompanyRow) : Obj :=
  [("handle", JStr (c_handle c)); ("name", JStr (c_name c));
   ("description", JStr (c_description c));
   ("numEmployees", Sql.cell_to_js (Sql.int_cell (c_num_employees c)));
   ("logoUrl", Sql.cell_to_js (Sql.text_cell (c_logo_url c)))].

Definition job_object (j : JobRow) : Obj :=
  [("id", JNum (j_id j)); ("title", JStr (j_title j));
   ("salary", Sql.cell_to_js (Sql.int_cell (j_salary j)));
   ("equity", Sql.cell_to_js (Sql.num_cell (j_equity j)));
   ("companyHandle", JStr (j_company_handle j))].

Definition listed_job_object (jc : JobRow * option CompanyRow) : Obj :=
  job_object jc.1
  ++ [("companyName", match jc.2 with Some c => JStr (c_name c) | None => JNull end)].

(** The companies that [Company.findAll] selects: a filter that is missing,
    an empty name and a bound of zero ask nothing; a name is wrapped in
    percent signs and matched as an ILIKE pattern; a company without a
    number of employees passes no bound. *)
Definition company_where (f : Company.Filters) (c : CompanyRow) : bool :=
  match Company.name f with
  | Some n => if String.eqb n "" then true else Sql.ilike ("%" +:+ n +:+ "%") (c_name c)
  | None => true
  end
  && match Company.minEmployees f with
     | Some a =>
         if Z.eqb a 0 then true
         else match c_num_employees c with Some e => Z.leb a e | None => false end
     | None => true
     end
  && match Company.maxEmployees f with
     | Some b =>
         if Z.eqb b 0 then true
         else match c_num_employees c with Some e => Z.leb e b | None => false end
     | None => true
     end.

(** An equity that is present and greater than zero. *)
Definition equity_positive (e : option string) : bool :=
  match e with
  | Some s => match Sql.numeric_value s with Some v => Z.ltb 0 v.1 | None => false end
  | None => false
  end.

(** The jobs that [Job.findAll] selects. *)
Definition job_where (f : Job.Filters) (j : JobRow) : bool :=
  match Job.title f with
  | Some t => if String.eqb t "" then true else Sql.ilike ("%" +:+ t +:+ "%") (j_title j)
  | None => true
  end
  && match Job.minSalary f with
     | Some a =>
         if Z.eqb a 0 then true
         else match j_salary j with Some s => Z.leb a s | None => false end
     | None => true
     end
  && (if truthy (Job.hasEquity f) then equity_positive (j_equity j) else true).

(** A character that stands for itself in a LIKE pattern. *)
Definition plain_char (c : ascii) : bool :=
  negb (Ascii.eqb c "%") && negb (Ascii.eqb c "_") && negb (Ascii.eqb c "\").

(** A job passes a filter set when its title contains the given string,
    letter case aside, its salary is at least the given minimum, and, where
    [hasEquity] is truthy, its equity is above zero. *)
Definition job_passes (f : Job.Filters) (j : JobRow) : bool :=
  match Job.title f with
  | Some t => occurs_in (Sql.lower_string t) (Sql.lower_string (j_title j))
  | None => true
  end
  && match Job.minSalary f with
     | Some a => match j_salary j with Some s => Z.leb a s | None => false end
     | None => true
     end
  && (if truthy (Job.hasEquity f) then equity_positive (j_equity j) else true).

(** * Properties *)

(** ** The builder *)

Lemma sqlForPartialUpdate_nonempty (F : Obj) (T : gmap string JsVal) :
  F <> [] ->
  sqlForPartialUpdate F T =
    inr {| setCols := join ", " (imap (assignment T) (Object_keys F));
           values := Object_values F |}.
Proof.
  intros HF. unfold sqlForPartialUpdate.
  destruct F as [|kv F]; [congruence|]. reflexivity.
Qed.

Lemma sqlForPartialUpdate_empty (T : gmap string JsVal) :
  sqlForPartialUpdate [] T = inl (BadRequestError "No data").
Proof. reflexivity. Qed.

Lemma assignment_at (F : Obj) (T : gmap string JsVal) (i : nat) (k : string) (v : JsVal) :
  F !! i = Some (k, v) ->
  imap (assignment T) (Object_keys F) !! i = Some (assignment T i k).
Proof.
  intros Hi. rewrite list_lookup_imap. unfold Object_keys.
  rewrite list_lookup_fmap, Hi. reflexivity.
Qed.

Lemma table_get_own (T : gmap string JsVal) (k : string) (t : JsVal) :
  T !! k = Some t -> table_get T k = t.
Proof. intros Hk. unfold table_get. rewrite Hk. reflexivity. Qed.

Lemma table_get_inherited (T : gmap string JsVal) (k : string) :
  T !! k = None -> table_get T k = prop Object_prototype k.
Proof. intros Hk. unfold table_get. rewrite Hk. reflexivity. Qed.

(** The column written for a key: the own entry of the table when there is
    one, the inherited member otherwise, and the key itself when that value
    is falsy. *)
Lemma column_of_lookup (T : gmap string JsVal) (k : string) :
  column_of T k
  = match T !! k with
    | Some t => if truthy t then js_string t else k
    | None => if truthy (prop Object_prototype k)
              then js_string (prop Object_prototype k) else k
    end.
Proof.
  unfold column_of, js_or, table_get.
  destruct (T !! k) as [t|].
  - destruct (truthy t); reflexivity.
  - destruct (truthy (prop Object_prototype k)); reflexivity.
Qed.

(** C1.  For a non-empty field map [F] and any translation table [T] the
    builder succeeds; its SET clause is [|F|] fragments with a comma and a
    space between them; the fragment at position [i] is the column of the
    [i]-th key of [F] between double quotes, followed by [=$] and the
    numeral [i + 1]; and the value list is the values of [F] in the same
    order.  The column is resolved through [T]: it is the text of [T]'s own
    entry for the key when that entry is truthy, the text of the member that
    [T] inherits under that name when it has no own entry, and the key
    itself otherwise. *)
Theorem sqlForPartialUpdate_builds_set_clause (F : Obj) (T : gmap string JsVal) :
  F <> [] ->
  exists frags : list string,
    sqlForPartialUpdate F T
    = inr {| setCols := String.concat ", " frags; values := map snd F |}
    /\ length frags = length F
    /\ (forall i k v, F !! i = Some (k, v) ->
          frags !! i =
            Some (String "034"%char EmptyString
                  +:+ match T !! k with
                      | Some t => if truthy t then js_string t else k
                      | None => if truthy (prop Object_prototype k)
                                then js_string (prop Object_prototype k) else k
                      end
                  +:+ String "034"%char EmptyString
                  +:+ "=$" +:+ NilZero.string_of_uint (Nat.to_uint (i + 1)))
          /\ map snd F !! i = Some v).
Proof.
  intros HF. exists (imap (assignment T) (Object_keys F)).
  split; [exact (sqlForPartialUpdate_nonempty F T HF)|].
  split.
  - rewrite length_imap. unfold Object_keys. apply length_map.
  - intros i k v Hi. split.
    + rewrite (assignment_at F T i k v Hi). unfold assignment.
      rewrite column_of_lookup. reflexivity.
    + change (map snd F) with (snd <$> F). rewrite list_lookup_fmap, Hi. reflexivity.
Qed.

Lemma sqlForPartialUpdate_builds_set_clause_witness :
  let q := String "034"%char EmptyString in
  let F := [("firstName", JStr "John"); ("age", JNum 30); ("constructor", JNum 1)] in
  let T : gmap string JsVal := {[ "firstName" := JStr "first_name" ]} in
  F <> []
  /\ sqlForPartialUpdate F T
     = inr {| setCols := q +:+ "first_name" +:+ q +:+ "=$1, "
                         +:+ q +:+ "age" +:+ q +:+ "=$2, "
                         +:+ q +:+ "function Object() { [native code] }" +:+ q +:+ "=$3";
              values := [JStr "John"; JNum 30; JNum 1] |}.
Proof.
  intros q F T.
  assert (HF : F <> []) by discriminate.
  split; [exact HF|].
  destruct (sqlForPartialUpdate_builds_set_clause F T HF) as (frags & Heq & Hlen & Hat).
  destruct (Hat 0 "firstName" (JStr "John") eq_refl) as [H0 _].
  destruct (Hat 1 "age" (JNum 30) eq_refl) as [H1 _].
  destruct (Hat 2 "constructor" (JNum 1) eq_refl) as [H2 _].
  destruct frags as [|x0 [|x1 [|x2 [|x3 frags]]]]; try discriminate Hlen.
  vm_compute in H0, H1, H2.
  injection H0 as ->. injection H1 as ->. injection H2 as ->.
  rewrite Heq. vm_compute. reflexivity.
Defined.

(** The tests of [helpers/sql.test.js]. *)
Example sql_test_valid_input :
  sqlForPartialUpdate
    [("firstName", JStr "John"); ("lastName", JStr "Doe"); ("age", JNum 30)]
    {[ "firstName" := JStr "first_name"; "lastName" := JStr "last_name" ]}
  = inr {| setCols := dq +:+ "first_name" +:+ dq +:+ "=$1, " +:+ dq +:+ "last_name" +:+ dq
                         +:+ "=$2, " +:+ dq +:+ "age" +:+ dq +:+ "=$3";
           values := [JStr "John"; JStr "Doe"; JNum 30] |}.
Proof. vm_compute. reflexivity. Qed.

Example sql_test_undefined_entry :
  sqlForPartialUpdate
    [("firstName", JStr "John"); ("lastName", JStr "Doe"); ("age", JNum 30)]
    {[ "firstName" := JStr "first_name"; "lastName" := JUndefined ]}
  = inr {| setCols := dq +:+ "first_name" +:+ dq +:+ "=$1, " +:+ dq +:+ "lastName" +:+ dq
                         +:+ "=$2, " +:+ dq +:+ "age" +:+ dq +:+ "=$3";
           values := [JStr "John"; JStr "Doe"; JNum 30] |}.
Proof. vm_compute. reflexivity. Qed.

(** A member that every object inherits is written in place of the key
    that names it: the table [{}] has no entry for [constructor], and the
    column is the text of the function. *)
Example sql_inherited_member :
  sqlForPartialUpdate [("constructor", JNum 1); ("__proto__", JNum 2)] ∅
  = inr {| setCols := dq +:+ "function Object() { [native code] }" +:+ dq +:+ "=$1, "
                         +:+ dq +:+ "[object Object]" +:+ dq +:+ "=$2";
           values := [JNum 1; JNum 2] |}.
Proof. vm_compute. reflexivity. Qed.



(** ** Calls that stop before the store *)

(** C3.  An empty field set is refused at every level: the builder returns
    the bad-request error whatever the table, and [update] of either model,
    whatever the key, the storage adapter and the store, ends with that
    error, the store as it was and no statement issued. *)
Theorem empty_update_is_a_validation_error :
  (forall T, sqlForPartialUpdate [] T = inl (BadRequestError "No data"))
  /\ is_ValidationError (BadRequestError "No data")
  /\ (forall (Store : Type) (db : Db Store) (st : Store) (k : JsVal),
        run db (Company.update k []) st
        = {| result := inl (BadRequestError "No data"); store := st; issued := [] |})
  /\ (forall (Store : Type) (db : Db Store) (st : Store) (k : JsVal),
        run db (Job.update k []) st
        = {| result := inl (BadRequestError "No data"); store := st; issued := [] |}).
Proof.
  split; [exact sqlForPartialUpdate_empty|].
  split; [exact I|].
  split; intros Store db st k; reflexivity.
Qed.

(** C5.  With both bounds given and the lower one greater, [findAll] ends
    with the bad-request error; the store is as it was and no statement has
    been issued, whatever the name filter, the adapter and the store. *)
Theorem findAll_rejects_inverted_range
        (a b : Z) (n : option string) (Store : Type) (db : Db Store) (st : Store) :
  (a > b)%Z ->
  run db (Company.findAll {| Company.name := n; Company.minEmployees := Some a;
                             Company.maxEmployees := Some b |}) st
  = {| result := inl (BadRequestError "minEmployees cannot be greater than maxEmployees");
       store := st; issued := [] |}
  /\ is_ValidationError (BadRequestError "minEmployees cannot be greater than maxEmployees").
Proof.
  intros Hab. split; [|exact I].
  unfold Company.findAll. cbn [js_gt Company.minEmployees Company.maxEmployees].
  replace (a >? b)%Z with true by (symmetry; apply Z.gtb_lt; lia).
  reflexivity.
Qed.

Lemma findAll_rejects_inverted_range_witness :
  (5 > 3)%Z
  /\ run pg_query (Company.findAll {| Company.name := None; Company.minEmployees := Some 5%Z;
                                      Company.maxEmployees := Some 3%Z |})
         {| companies := []; jobs := []; next_job_id := 1 |}
     = {| result := inl (BadRequestError "minEmployees cannot be greater than maxEmployees");
          store := {| companies := []; jobs := []; next_job_id := 1 |}; issued := [] |}.
Proof.
  split; [reflexivity|].
  apply (findAll_rejects_inverted_range 5 3 None Store pg_query
           {| companies := []; jobs := []; next_job_id := 1 |}).
  reflexivity.
Defined.

(** ** The statements of [findAll] *)

Lemma company_findAll_issued {Store} (db : Db Store) (st : Store) (f : Company.Filters) :
  issued (run db (Company.findAll f) st) = []
  \/ issued (run db (Company.findAll f) st) = [Company.findAll_query f].
Proof.
  unfold Company.findAll.
  destruct (js_gt _ _); [left; reflexivity|].
  right. unfold run. cbn [bind db_query run_from].
  destruct (Company.findAll_query f) as [q ps]. cbn [fst snd].
  destruct (db q ps st) as [e|[rows st']]; reflexivity.
Qed.

Lemma job_findAll_issued {Store} (db : Db Store) (st : Store) (f : Job.Filters) :
  issued (run db (Job.findAll f) st) = [Job.findAll_query f].
Proof.
  unfold Job.findAll, run. cbn [bind db_query run_from].
  destruct (Job.findAll_query f) as [q ps]. cbn [fst snd].
  destruct (db q ps st) as [e|[rows st']]; reflexivity.
Qed.

Lemma company_findAll_query_text (f1 f2 : Company.Filters) :
  company_active f1 = company_active f2 ->
  fst (Company.findAll_query f1) = fst (Company.findAll_query f2).
Proof.
  unfold company_active, Company.findAll_query. intros [= Hn Hmin Hmax].
  cbn [fst]. rewrite Hn, Hmin, Hmax.
  destruct (truthy (js_of_str (Company.name f2))),
           (truthy (js_of_num (Company.minEmployees f2))),
           (truthy (js_of_num (Company.maxEmployees f2))); reflexivity.
Qed.

Lemma job_findAll_query_text (f1 f2 : Job.Filters) :
  job_active f1 = job_active f2 ->
  fst (Job.findAll_query f1) = fst (Job.findAll_query f2).
Proof.
  unfold job_active, Job.findAll_query. intros [= Ht Hs He].
  cbn [fst]. rewrite Ht, Hs, He.
  destruct (truthy (js_of_str (Job.title f2))),
           (truthy (js_of_num (Job.minSalary f2))),
           (truthy (Job.hasEquity f2)); reflexivity.
Qed.

Lemma company_findAll_query_values (f : Company.Filters) :
  snd (Company.findAll_query f) = company_bound_values f.
Proof.
  unfold Company.findAll_query, company_bound_values. cbn [snd].
  destruct (truthy (js_of_str (Company.name f))),
           (truthy (js_of_num (Company.minEmployees f))),
           (truthy (js_of_num (Company.maxEmployees f))); reflexivity.
Qed.

Lemma job_findAll_query_values (f : Job.Filters) :
  snd (Job.findAll_query f) = job_bound_values f.
Proof.
  unfold Job.findAll_query, job_bound_values. cbn [snd].
  destruct (truthy (js_of_str (Job.title f))),
           (truthy (js_of_num (Job.minSalary f))); reflexivity.
Qed.

(** C10.  The statement text of [findAll] is a function of the set of
    active filters alone: two filter sets with the same active filters give
    the same text, in either model, and any statement the two calls hand to
    [db.query] has that one text, whatever the adapters and stores.  The
    filter values reach the store only in the value list: a search string
    between two percent signs, a number as it is, in the order name (title),
    lower bound, upper bound. *)
Theorem findAll_text_depends_on_active_filters_only :
  (forall f1 f2 : Company.Filters,
      company_active f1 = company_active f2 ->
      fst (Company.findAll_query f1) = fst (Company.findAll_query f2)
      /\ forall (S1 S2 : Type) (db1 : Db S1) (db2 : Db S2) (st1 : S1) (st2 : S2) q1 q2,
           In q1 (issued (run db1 (Company.findAll f1) st1)) ->
           In q2 (issued (run db2 (Company.findAll f2) st2)) ->
           fst q1 = fst q2
           /\ snd q1 = company_bound_values f1 /\ snd q2 = company_bound_values f2)
  /\ (forall f1 f2 : Job.Filters,
      job_active f1 = job_active f2 ->
      fst (Job.findAll_query f1) = fst (Job.findAll_query f2)
      /\ forall (S1 S2 : Type) (db1 : Db S1) (db2 : Db S2) (st1 : S1) (st2 : S2) q1 q2,
           In q1 (issued (run db1 (Job.findAll f1) st1)) ->
           In q2 (issued (run db2 (Job.findAll f2) st2)) ->
           fst q1 = fst q2
           /\ snd q1 = job_bound_values f1 /\ snd q2 = job_bound_values f2).
Proof.
  split.
  - intros f1 f2 Hact. split; [exact (company_findAll_query_text f1 f2 Hact)|].
    intros S1 S2 db1 db2 st1 st2 q1 q2 H1 H2.
    destruct (company_findAll_issued db1 st1 f1) as [E1|E1]; rewrite E1 in H1;
      [destruct H1|].
    destruct (company_findAll_issued db2 st2 f2) as [E2|E2]; rewrite E2 in H2;
      [destruct H2|].
    destruct H1 as [<-|[]]. destruct H2 as [<-|[]].
    split; [exact (company_findAll_query_text f1 f2 Hact)|].
    split; apply company_findAll_query_values.
  - intros f1 f2 Hact. split; [exact (job_findAll_query_text f1 f2 Hact)|].
    intros S1 S2 db1 db2 st1 st2 q1 q2 H1 H2.
    rewrite job_findAll_issued in H1. rewrite job_findAll_issued in H2.
    destruct H1 as [<-|[]]. destruct H2 as [<-|[]].
    split; [exact (job_findAll_query_text f1 f2 Hact)|].
    split; apply job_findAll_query_values.
Qed.

Lemma findAll_text_depends_on_active_filters_only_witness :
  let f1 := {| Company.name := Some "net"; Company.minEmployees := Some 2%Z;
               Company.maxEmployees := None |} in
  let f2 := {| Company.name := Some "x' OR 1=1"; Company.minEmployees := Some (-7)%Z;
               Company.maxEmployees := Some 0%Z |} in
  let g1 := {| Job.minSalary := Some 2%Z; Job.hasEquity := JBool true; Job.title := None |} in
  let g2 := {| Job.minSalary := Some 9%Z; Job.hasEquity := JStr "false";
               Job.title := Some "" |} in
  let st := {| companies := []; jobs := []; next_job_id := 1 |} in
  (company_active f1 = company_active f2
   /\ In (Company.findAll_query f1) (issued (run pg_query (Company.findAll f1) st))
   /\ In (Company.findAll_query f2) (issued (run pg_query (Company.findAll f2) st))
   /\ fst (Company.findAll_query f1) = fst (Company.findAll_query f2))
  /\ (job_active g1 = job_active g2
      /\ In (Job.findAll_query g1) (issued (run pg_query (Job.findAll g1) st))
      /\ In (Job.findAll_query g2) (issued (run pg_query (Job.findAll g2) st))
      /\ fst (Job.findAll_query g1) = fst (Job.findAll_query g2)).
Proof.
  intros f1 f2 g1 g2 st.
  assert (Hc : company_active f1 = company_active f2) by reflexivity.
  assert (Hj : job_active g1 = job_active g2) by reflexivity.
  assert (Hc1 : In (Company.findAll_query f1) (issued (run pg_query (Company.findAll f1) st)))
    by (vm_compute; left; reflexivity).
  assert (Hc2 : In (Company.findAll_query f2) (issued (run pg_query (Company.findAll f2) st)))
    by (vm_compute; left; reflexivity).
  assert (Hj1 : In (Job.findAll_query g1) (issued (run pg_query (Job.findAll g1) st)))
    by (vm_compute; left; reflexivity).
  assert (Hj2 : In (Job.findAll_query g2) (issued (run pg_query (Job.findAll g2) st)))
    by (vm_compute; left; reflexivity).
  split.
  - repeat (split; [assumption|]).
    exact (proj1 (proj2 (proj1 findAll_text_depends_on_active_filters_only f1 f2 Hc)
                    Store Store pg_query pg_query st st _ _ Hc1 Hc2)).
  - repeat (split; [assumption|]).
    exact (proj1 (proj2 (proj2 findAll_text_depends_on_active_filters_only g1 g2 Hj)
                    Store Store pg_query pg_query st st _ _ Hj1 Hj2)).
Defined.

(** ** The store's answers *)


Lemma with_companies_same (st : Store) : Sql.with_companies st (companies st) = st.
Proof. destruct st; reflexivity. Qed.

Lemma with_jobs_same (st : Store) : Sql.with_jobs st (jobs st) = st.
Proof. destruct st; reflexivity. Qed.

Lemma filter_none {A} (f : A -> bool) (l : list A) :
  (forall x, In x l -> f x = false) -> List.filter f l = [].
Proof.
  induction l as [|x l IH]; intros Hf; [reflexivity|]. cbn.
  rewrite (Hf x (or_introl eq_refl)). apply IH. intros y Hy. apply Hf. right. exact Hy.
Qed.

Lemma filter_all {A} (f : A -> bool) (l : list A) :
  (forall x, In x l -> f x = true) -> List.filter f l = l.
Proof.
  induction l as [|x l IH]; intros Hf; [reflexivity|]. cbn.
  rewrite (Hf x (or_introl eq_refl)). f_equal. apply IH. intros y Hy. apply Hf. right. exact Hy.
Qed.

Lemma filter_some {A} (f : A -> bool) (l : list A) (x : A) :
  In x l -> f x = true -> exists y l', List.filter f l = y :: l' /\ In y l /\ f y = true.
Proof.
  induction l as [|z l IH]; intros Hx Hf; [destruct Hx|]. cbn.
  destruct (f z) eqn:Hz.
  - exists z, (List.filter f l). split; [reflexivity|]. split; [left; reflexivity|exact Hz].
  - destruct Hx as [->|Hx]; [congruence|].
    destruct (IH Hx Hf) as (y & l' & E & Hy & Hfy).
    exists y, l'. split; [exact E|]. split; [right; exact Hy|exact Hfy].
Qed.

Lemma filter_head {A} (f : A -> bool) (l : list A) (y : A) (l' : list A) :
  List.filter f l = y :: l' -> In y l /\ f y = true.
Proof.
  intros E. apply filter_In. rewrite E. left. reflexivity.
Qed.

Lemma string_compare_refl (s : string) : String.compare s s = Eq.
Proof.
  pose proof (String.compare_antisym s s) as H.
  destruct (String.compare s s); [reflexivity|discriminate H|discriminate H].
Qed.

Lemma company_key_matches (h : string) (c : CompanyRow) :
  Sql.matches [("handle", Sql.OpEq, Sql.CText h)] c = bool_decide (c_handle c = h).
Proof.
  unfold Sql.matches. cbn.
  destruct (String.compare (c_handle c) h) eqn:E.
  - apply String.compare_eq_iff in E. rewrite bool_decide_eq_true_2; [reflexivity|exact E].
  - rewrite bool_decide_eq_false_2; [reflexivity|]. intros <-.
    rewrite string_compare_refl in E. discriminate.
  - rewrite bool_decide_eq_false_2; [reflexivity|]. intros <-.
    rewrite string_compare_refl in E. discriminate.
Qed.

Lemma job_key_matches (id : Z) (j : JobRow) :
  Sql.matches [("id", Sql.OpEq, Sql.CInt id)] j = bool_decide (j_id j = id).
Proof.
  unfold Sql.matches. cbn.
  destruct (Z.compare_spec (j_id j) id) as [E|E|E].
  - rewrite bool_decide_eq_true_2; [reflexivity|exact E].
  - rewrite bool_decide_eq_false_2; [reflexivity|lia].
  - rewrite bool_decide_eq_false_2; [reflexivity|lia].
Qed.

Lemma company_items_ok : Sql.items_ok (R := CompanyRow) company_items = true.
Proof. vm_compute. reflexivity. Qed.

Lemma job_items_ok : Sql.items_ok (R := JobRow) job_items = true.
Proof. vm_compute. reflexivity. Qed.

Lemma parse_company_get :
  Sql.parse (Sql.lex Company.get_sql)
  = Some (Sql.SSelect company_items (Sql.FTable "companies") [key_cond "handle" 1] None).
Proof. vm_compute. reflexivity. Qed.

Lemma parse_company_duplicateCheck :
  Sql.parse (Sql.lex Company.duplicateCheck_sql)
  = Some (Sql.SSelect [("handle", "handle")] (Sql.FTable "companies")
                      [key_cond "handle" 1] None).
Proof. vm_compute. reflexivity. Qed.

Lemma parse_company_remove :
  Sql.parse (Sql.lex Company.remove_sql)
  = Some (Sql.SDelete "companies" [key_cond "handle" 1] [("handle", "handle")]).
Proof. vm_compute. reflexivity. Qed.

Lemma parse_job_get :
  Sql.parse (Sql.lex Job.get_sql)
  = Some (Sql.SSelect job_items (Sql.FTable "jobs") [key_cond "id" 1] None).
Proof. vm_compute. reflexivity. Qed.

Lemma parse_job_remove :
  Sql.parse (Sql.lex Job.remove_sql)
  = Some (Sql.SDelete "jobs" [key_cond "id" 1] [("id", "id")]).
Proof. vm_compute. reflexivity. Qed.

Lemma filter_company_key (h : string) (l : list CompanyRow) :
  List.filter (Sql.matches [("handle", Sql.OpEq, Sql.CText h)]) l
  = List.filter (fun c => bool_decide (c_handle c = h)) l.
Proof. apply List.filter_ext. intros c. apply company_key_matches. Qed.

Lemma filter_job_key (id : Z) (l : list JobRow) :
  List.filter (Sql.matches [("id", Sql.OpEq, Sql.CInt id)]) l
  = List.filter (fun j => bool_decide (j_id j = id)) l.
Proof. apply List.filter_ext. intros j. apply job_key_matches. Qed.

(** The SELECT of [Company.get] returns the companies with the handle. *)
Lemma pg_company_get (k : JsVal) (h : string) (st : Store) :
  Sql.coerce Sql.TText k = Some (Sql.CText h) ->
  pg_query Company.get_sql [k] st
  = inr (map (Sql.project company_items)
             (List.filter (fun c => bool_decide (c_handle c = h)) (companies st)), st).
Proof.
  intros Hk. unfold pg_query. rewrite parse_company_get.
  cbn -[Sql.matches Sql.project company_items Sql.coerce]. rewrite Hk.
  cbn -[Sql.matches Sql.project company_items].
  rewrite company_items_ok, filter_company_key. reflexivity.
Qed.

Lemma pg_company_duplicateCheck (h : string) (st : Store) :
  pg_query Company.duplicateCheck_sql [JStr h] st
  = inr (map (Sql.project [("handle", "handle")])
             (List.filter (fun c => bool_decide (c_handle c = h)) (companies st)), st).
Proof.
  unfold pg_query. rewrite parse_company_duplicateCheck.
  cbn -[Sql.matches Sql.project].
  rewrite filter_company_key. reflexivity.
Qed.

Lemma pg_job_get (k : JsVal) (id : Z) (st : Store) :
  Sql.coerce Sql.TInt k = Some (Sql.CInt id) ->
  pg_query Job.get_sql [k] st
  = inr (map (Sql.project job_items)
             (List.filter (fun j => bool_decide (j_id j = id)) (jobs st)), st).
Proof.
  intros Hk. unfold pg_query. rewrite parse_job_get.
  cbn -[Sql.matches Sql.project job_items Sql.coerce]. rewrite Hk.
  cbn -[Sql.matches Sql.project job_items].
  rewrite job_items_ok, filter_job_key. reflexivity.
Qed.

(** A DELETE whose key no row has returns nothing and leaves the store. *)
Lemma pg_company_remove_missing (k : JsVal) (h : string) (st : Store) :
  Sql.coerce Sql.TText k = Some (Sql.CText h) ->
  (forall c, In c (companies st) -> c_handle c <> h) ->
  pg_query Company.remove_sql [k] st = inr ([], st).
Proof.
  intros Hk Hno. unfold pg_query. rewrite parse_company_remove.
  cbn -[Sql.matches Sql.project Sql.coerce]. rewrite Hk.
  cbn -[Sql.matches Sql.project].
  rewrite filter_company_key.
  rewrite (filter_none (fun c => bool_decide (c_handle c = h))).
  2:{ intros c Hc. apply bool_decide_eq_false_2. apply Hno, Hc. }
  rewrite (filter_all (fun r => negb (Sql.matches _ r))).
  2:{ intros c Hc. rewrite company_key_matches.
      rewrite bool_decide_eq_false_2; [reflexivity|]. apply Hno, Hc. }
  cbn. unfold Sql.cascade. cbn.
  rewrite (filter_all (fun _ => true)) by reflexivity.
  destruct st; reflexivity.
Qed.

Lemma pg_job_remove_missing (k : JsVal) (id : Z) (st : Store) :
  Sql.coerce Sql.TInt k = Some (Sql.CInt id) ->
  (forall j, In j (jobs st) -> j_id j <> id) ->
  pg_query Job.remove_sql [k] st = inr ([], st).
Proof.
  intros Hk Hno. unfold pg_query. rewrite parse_job_remove.
  cbn -[Sql.matches Sql.project Sql.coerce]. rewrite Hk.
  cbn -[Sql.matches Sql.project].
  rewrite filter_job_key.
  rewrite (filter_none (fun j => bool_decide (j_id j = id))).
  2:{ intros j Hj. apply bool_decide_eq_false_2. apply Hno, Hj. }
  rewrite (filter_all (fun r => negb (Sql.matches _ r))).
  2:{ intros j Hj. rewrite job_key_matches.
      rewrite bool_decide_eq_false_2; [reflexivity|]. apply Hno, Hj. }
  cbn. rewrite with_jobs_same. reflexivity.
Qed.

(** ** The scenarios of the route tests, on the sample store *)

Example scenario_create_job :
  result (run pg_query
              (Job.create [("title", JStr "New Job"); ("salary", JNum 70000);
                           ("equity", JStr "0.02"); ("companyHandle", JStr "c1")])
              sample_store)
  = inr (JObj [("id", JNum 4); ("title", JStr "New Job"); ("salary", JNum 70000);
               ("equity", JStr "0.02"); ("companyHandle", JStr "c1")]).
Proof. vm_compute. reflexivity. Qed.

Example scenario_all_jobs :
  map (fun o => (prop o "title", prop o "equity", prop o "companyName"))
      (match result (run pg_query (Job.findAll Job.no_filters) sample_store) with
       | inr rows => rows
       | inl _ => []
       end)
  = [(JStr "J1", JStr "0.1", JStr "C1"); (JStr "J2", JStr "0.2", JStr "C1");
     (JStr "J3", JNull, JStr "C1")].
Proof. vm_compute. reflexivity. Qed.

Example scenario_jobs_by_title :
  result (run pg_query
              (Job.findAll {| Job.minSalary := None; Job.hasEquity := JUndefined;
                              Job.title := Some "2" |})
              sample_store)
  = inr [[("id", JNum 2); ("title", JStr "J2"); ("salary", JNum 2); ("equity", JStr "0.2");
          ("companyHandle", JStr "c1"); ("companyName", JStr "C1")]].
Proof. vm_compute. reflexivity. Qed.

Example scenario_jobs_by_title_and_salary :
  map (fun o => prop o "title")
      (match result (run pg_query
                         (Job.findAll {| Job.minSalary := Some 2%Z; Job.hasEquity := JUndefined;
                                         Job.title := Some "2" |})
                         sample_store) with
       | inr rows => rows
       | inl _ => []
       end)
  = [JStr "J2"]
  /\ map (fun o => prop o "title")
         (match result (run pg_query
                            (Job.findAll {| Job.minSalary := Some 2%Z;
                                            Job.hasEquity := JUndefined; Job.title := None |})
                            sample_store) with
          | inr rows => rows
          | inl _ => []
          end)
     = [JStr "J2"; JStr "J3"].
Proof. vm_compute. split; reflexivity. Qed.

Example scenario_jobs_with_equity :
  map (fun o => prop o "title")
      (match result (run pg_query
                         (Job.findAll {| Job.minSalary := None; Job.hasEquity := JBool true;
                                         Job.title := None |})
                         sample_store) with
       | inr rows => rows
       | inl _ => []
       end)
  = [JStr "J1"; JStr "J2"].
Proof. vm_compute. reflexivity. Qed.

Example scenario_get_job :
  result (run pg_query (Job.get (JNum 1)) sample_store)
  = inr (JObj [("id", JNum 1); ("title", JStr "J1"); ("salary", JNum 1);
               ("equity", JStr "0.1");
               ("company",
                JObj [("handle", JStr "c1"); ("name", JStr "C1");
                      ("description", JStr "Desc1"); ("numEmployees", JNum 1);
                      ("logoUrl", JStr "http://c1.img")])]).
Proof. vm_compute. reflexivity. Qed.

Example scenario_update_job :
  result (run pg_query (Job.update (JNum 1) [("title", JStr "New Job")]) sample_store)
  = inr (JObj [("id", JNum 1); ("title", JStr "New Job"); ("salary", JNum 1);
               ("equity", JStr "0.1"); ("companyHandle", JStr "c1")]).
Proof. vm_compute. reflexivity. Qed.

Example scenario_remove_job :
  result (run pg_query (Job.remove (JNum 1)) sample_store) = inr tt
  /\ map j_id (jobs (store (run pg_query (Job.remove (JNum 1)) sample_store))) = [2%Z; 3%Z]
  /\ result (run pg_query (Job.remove (JStr "0")) sample_store)
     = inl (NotFoundError "No job: 0").
Proof. vm_compute. repeat split; reflexivity. Qed.

Example scenario_companies_by_name_and_size :
  map (fun o => prop o "handle")
      (match result (run pg_query
                         (Company.findAll {| Company.name := Some "c";
                                             Company.minEmployees := Some 2%Z;
                                             Company.maxEmployees := Some 3%Z |})
                         sample_store) with
       | inr rows => rows
       | inl _ => []
       end)
  = [JStr "c2"].
Proof. vm_compute. reflexivity. Qed.

(** ** Fetching a company *)

(** C2.  [Company.get] issues one statement, the SELECT on [companies]; what
    it returns for a handle that exists is that row alone, with the five
    columns of the company and no [jobs] property.  On the sample store the
    company [c1] has three jobs and the value returned for it carries none. *)
Theorem company_get_returns_no_jobs :
  (forall (st : Store) (h : string),
      issued (run pg_query (Company.get (JStr h)) st) = [(Company.get_sql, [JStr h])]
      /\ match result (run pg_query (Company.get (JStr h)) st) with
         | inr company =>
             exists c, In c (companies st) /\ c_handle c = h
               /\ company = JObj [("handle", JStr (c_handle c)); ("name", JStr (c_name c));
                                  ("description", JStr (c_description c));
                                  ("numEmployees",
                                   Sql.cell_to_js (Sql.int_cell (c_num_employees c)));
                                  ("logoUrl",
                                   Sql.cell_to_js (Sql.text_cell (c_logo_url c)))]
               /\ js_prop company "jobs" = JUndefined
         | inl e => e = NotFoundError ("No company: " +:+ h)
         end)
  /\ result (run pg_query (Company.get (JStr "c1")) sample_store)
     = inr (JObj [("handle", JStr "c1"); ("name", JStr "C1"); ("description", JStr "Desc1");
                  ("numEmployees", JNum 1); ("logoUrl", JStr "http://c1.img")])
  /\ map j_title (List.filter (fun j => String.eqb (j_company_handle j) "c1")
                              (jobs sample_store))
     = ["J1"; "J2"; "J3"].
Proof.
  split; [|split; vm_compute; reflexivity].
  intros st h. unfold run, Company.get. cbn [bind db_query run_from].
  rewrite (pg_company_get (JStr h) h st eq_refl).
  destruct (List.filter _ (companies st)) as [|c l] eqn:E.
  - cbn. split; reflexivity.
  - apply filter_head in E. destruct E as [Hc Hh]. apply bool_decide_eq_true_1 in Hh.
    cbn. split; [reflexivity|]. exists c. repeat split; assumption.
Qed.

(** ** Creating a company *)

(** C9.  When the store holds a company with the handle of the data,
    [Company.create] ends with the duplicate error; it has issued the
    SELECT of the duplicate check and nothing after it, and the store is as
    it was. *)
Theorem create_rejects_existing_handle
        (st : Store) (data : Obj) (h : string) (c : CompanyRow) :
  prop data "handle" = JStr h ->
  In c (companies st) ->
  c_handle c = h ->
  run pg_query (Company.create data) st
  = {| result := inl (BadRequestError ("Duplicate company: " +:+ h));
       store := st;
       issued := [(Company.duplicateCheck_sql, [JStr h])] |}
  /\ is_DuplicateKeyError (BadRequestError ("Duplicate company: " +:+ h)).
Proof.
  intros Hh Hc Hch. split; [|exists h; reflexivity].
  unfold run, Company.create. cbn [bind db_query run_from]. rewrite Hh.
  rewrite pg_company_duplicateCheck.
  destruct (filter_some (fun c => bool_decide (c_handle c = h)) (companies st) c Hc)
    as (y & l & E & _ & _).
  { apply bool_decide_eq_true_2, Hch. }
  rewrite E. reflexivity.
Qed.

Lemma create_rejects_existing_handle_witness :
  let data := [("handle", JStr "c1"); ("name", JStr "New");
               ("description", JStr "New Description"); ("numEmployees", JNum 1);
               ("logoUrl", JStr "http://new.img")] in
  let c := {| c_handle := "c1"; c_name := "C1"; c_description := "Desc1";
              c_num_employees := Some 1%Z; c_logo_url := Some "http://c1.img" |} in
  prop data "handle" = JStr "c1"
  /\ In c (companies sample_store)
  /\ c_handle c = "c1"
  /\ run pg_query (Company.create data) sample_store
     = {| result := inl (BadRequestError "Duplicate company: c1");
          store := sample_store;
          issued := [(Company.duplicateCheck_sql, [JStr "c1"])] |}.
Proof.
  intros data c.
  assert (Hh : prop data "handle" = JStr "c1") by reflexivity.
  assert (Hc : In c (companies sample_store)) by (left; reflexivity).
  assert (Hch : c_handle c = "c1") by reflexivity.
  split; [exact Hh|]. split; [exact Hc|]. split; [exact Hch|].
  exact (proj1 (create_rejects_existing_handle sample_store data "c1" c Hh Hc Hch)).
Defined.

(** ** Updates the store takes *)

Lemma param_last (vals : list JsVal) (k : JsVal) :
  Sql.param (vals ++ [k]) (length vals + 1) = Some k.
Proof.
  rewrite Nat.add_1_r. cbn [Sql.param].
  rewrite lookup_app_r by lia. rewrite Nat.sub_diag. reflexivity.
Qed.

Lemma param_lookup (vals : list JsVal) (k : JsVal) (i : nat) (v : JsVal) :
  vals !! i = Some v -> Sql.param (vals ++ [k]) (i + 1) = Some v.
Proof.
  intros Hi. rewrite Nat.add_1_r. cbn [Sql.param].
  rewrite lookup_app_l; [exact Hi|]. apply lookup_lt_Some in Hi. exact Hi.
Qed.

Lemma assoc_In {A} (k : string) (l : list (string * A)) (a : A) :
  Sql.assoc k l = Some a -> In k (map fst l).
Proof.
  induction l as [|[k' a'] l IH]; [discriminate|]. cbn.
  destruct (String.eqb k' k) eqn:E.
  - intros _. left. apply String.eqb_eq, E.
  - intros Hl. right. apply IH, Hl.
Qed.

Lemma lists_upto_complete {A} (xs : list A) (n : nat) (l : list A) :
  Forall (fun x => In x xs) l -> length l <= n -> In l (lists_upto xs n).
Proof.
  revert l. induction n as [|n IH]; intros l Hl Hn.
  - destruct l; [left; reflexivity|cbn in Hn; lia].
  - destruct l as [|x l]; [left; reflexivity|].
    right. apply in_flat_map. exists x.
    inversion Hl; subst. split; [assumption|].
    apply in_map. apply IH; [assumption|cbn in Hn; lia].
Qed.

Lemma set_clause_of_keys (T : gmap string JsVal) (keys : list string) :
  join ", " (imap (assignment T) keys) = set_clause (map (column_of T) keys).
Proof.
  unfold set_clause. f_equal.
  change (map (column_of T) keys) with (column_of T <$> keys).
  rewrite imap_fmap. reflexivity.
Qed.

Section UpdateFacts.
Context {R : Type} `{Sql.Table R}.

Lemma update_rows_no_match bas bcs ret (tbl : list R) :
  (forall r, In r tbl -> Sql.matches bcs r = false) ->
  Sql.update_rows bas bcs ret tbl = Some ([], tbl).
Proof.
  induction tbl as [|r tbl IH]; intros Hno; [reflexivity|].
  cbn [Sql.update_rows]. rewrite IH by (intros r' Hr'; apply Hno; right; exact Hr').
  cbn. rewrite (Hno r (or_introl eq_refl)). reflexivity.
Qed.

Lemma bind_assigns_accepted (T : gmap string JsVal) (data : Obj) (k : JsVal) :
  accepted Sql.columns T data = true ->
  is_Some (mapM (Sql.bind_assign (map snd data ++ [k]))
                (imap (fun i c => (c, Sql.OParam (i + 1)))
                      (map (fun kv => column_of T kv.1) data))).
Proof.
  intros Hacc. apply andb_prop in Hacc. destruct Hacc as [Hall _].
  apply mapM_is_Some. apply Forall_lookup. intros i [c o] Hi.
  rewrite list_lookup_imap in Hi.
  change (map (fun kv => column_of T kv.1) data)
    with ((fun kv => column_of T kv.1) <$> data) in Hi.
  rewrite list_lookup_fmap in Hi.
  destruct (data !! i) as [[key v]|] eqn:Hd; [|discriminate].
  cbn in Hi. injection Hi as <- <-.
  assert (Hin : In (key, v) data).
  { apply list_elem_of_In. apply list_elem_of_lookup. exists i. exact Hd. }
  pose proof (proj1 (forallb_forall _ _) Hall _ Hin) as Hkv. cbn in Hkv.
  unfold compose, Sql.bind_assign, Sql.col_type. cbn [fst snd Sql.bind_operand].
  destruct (Sql.assoc (column_of T key) Sql.columns) as [ty|]; [|discriminate].
  apply bool_decide_eq_true_1 in Hkv. destruct Hkv as [cell Hcell].
  cbn. rewrite (param_lookup (map snd data) k i v).
  2:{ change (map snd data) with (snd <$> data). rewrite list_lookup_fmap, Hd. reflexivity. }
  cbn. rewrite Hcell. cbn. eauto.
Qed.

Lemma update_missing (key : string) (kty : Sql.ColType) (kcell : Sql.Cell) (kv : JsVal)
      (T : gmap string JsVal) (data : Obj) (ret : list Sql.Item) (tbl : list R) :
  Sql.col_type key = Some kty ->
  Sql.coerce kty kv = Some kcell ->
  accepted Sql.columns T data = true ->
  Sql.items_ok ret = true ->
  (forall r, In r tbl -> Sql.matches [(key, Sql.OpEq, kcell)] r = false) ->
  Sql.update (imap (fun i c => (c, Sql.OParam (i + 1)))
                   (map (fun kv => column_of T kv.1) data))
             [key_cond key (length (map (fun kv => column_of T kv.1) data) + 1)]
             ret (map snd data ++ [kv]) tbl
  = Some ([], tbl).
Proof.
  intros Hty Hco Hacc Hret Hno. unfold Sql.update.
  destruct (bind_assigns_accepted T data kv Hacc) as [bas ->]. cbn [mbind option_bind].
  assert (Hcond : mapM (Sql.bind_cond (map snd data ++ [kv]))
                       [key_cond key (length (map (fun kv => column_of T kv.1) data) + 1)]
                  = Some [(key, Sql.OpEq, kcell)]).
  { cbn [mapM]. unfold Sql.bind_cond, key_cond.
    cbn [Sql.cond_col Sql.cond_op Sql.cond_arg Sql.bind_operand].
    rewrite Hty. cbn [mbind option_bind].
    replace (Sql.op_ok kty Sql.OpEq) with true by (destruct kty; reflexivity).
    rewrite length_map. rewrite <- (length_map snd data).
    rewrite param_last. cbn. rewrite Hco. reflexivity. }
  rewrite Hcond. cbn [mbind option_bind].
  apply andb_prop in Hacc. destruct Hacc as [_ Hnd].
  assert (Hfst : map fst (imap (fun i c => (c, Sql.OParam (i + 1)))
                               (map (fun kv => column_of T kv.1) data))
                 = map (fun kv => column_of T kv.1) data).
  { change (map fst ?l) with (fst <$> l). rewrite fmap_imap.
    unfold compose. cbn [fst].
    rewrite (imap_const (fun c : string => c)). apply list_fmap_id. }
  rewrite Hfst, Hnd, Hret. cbn [andb].
  apply update_rows_no_match, Hno.
Qed.
End UpdateFacts.

Lemma company_update_parses_all :
  forallb (fun cols => negb (bool_decide (NoDup cols)) || bool_decide (cols = [])
                       || company_update_parses cols)
          (lists_upto (map fst Sql.company_columns) 5) = true.
Proof. vm_compute. reflexivity. Qed.

Lemma job_update_parses_all :
  forallb (fun cols => negb (bool_decide (NoDup cols)) || bool_decide (cols = [])
                       || job_update_parses cols)
          (lists_upto (map fst Sql.job_columns) 5) = true.
Proof. vm_compute. reflexivity. Qed.

Lemma accepted_columns (columns : list (string * Sql.ColType)) (T : gmap string JsVal)
      (data : Obj) :
  accepted columns T data = true ->
  NoDup (map (fun kv => column_of T kv.1) data)
  /\ Forall (fun c => In c (map fst columns)) (map (fun kv => column_of T kv.1) data).
Proof.
  intros Hacc. apply andb_prop in Hacc. destruct Hacc as [Hall Hnd].
  split; [apply bool_decide_eq_true_1 in Hnd; exact Hnd|].
  apply Forall_forall. intros c Hc. apply list_elem_of_In in Hc.
  apply in_map_iff in Hc. destruct Hc as ([key v] & <- & Hin).
  pose proof (proj1 (forallb_forall _ _) Hall _ Hin) as Hkv. cbn in Hkv.
  destruct (Sql.assoc (column_of T key) columns) as [ty|] eqn:E; [|discriminate].
  cbn. eapply assoc_In, E.
Qed.

Lemma parses_of_all (check : list string -> bool) (names cols : list string) :
  forallb (fun cols => negb (bool_decide (NoDup cols)) || bool_decide (cols = []) || check cols)
          (lists_upto names (length names)) = true ->
  cols <> [] -> NoDup cols -> Forall (fun c => In c names) cols ->
  check cols = true.
Proof.
  intros Hall Hne Hnd Hin.
  assert (Hlen : length cols <= length names).
  { apply NoDup_incl_length; [apply NoDup_ListNoDup; exact Hnd|].
    intros c Hc. exact (proj1 (Forall_forall _ _) Hin c (proj2 (list_elem_of_In _ _) Hc)). }
  pose proof (proj1 (forallb_forall _ _) Hall cols
                    (lists_upto_complete names _ cols Hin Hlen)) as Hc.
  cbn beta in Hc.
  rewrite bool_decide_eq_true_2 in Hc by exact Hnd.
  rewrite bool_decide_eq_false_2 in Hc by exact Hne.
  exact Hc.
Qed.

(** An accepted UPDATE on a handle no company has returns nothing and
    leaves the store. *)
Lemma pg_company_update_missing (k : JsVal) (h : string) (data : Obj) (st : Store) :
  Sql.coerce Sql.TText k = Some (Sql.CText h) ->
  data <> [] ->
  accepted Sql.company_columns Company.jsToSql data = true ->
  (forall c, In c (companies st) -> c_handle c <> h) ->
  pg_query (Company.update_sql
              (join ", " (imap (assignment Company.jsToSql) (Object_keys data)))
              ("$" +:+ dec (length (Object_values data) + 1)))
           (Object_values data ++ [k]) st
  = inr ([], st).
Proof.
  intros Hk Hne Hacc Hno. unfold pg_query.
  rewrite set_clause_of_keys. unfold Object_keys, Object_values.
  rewrite map_map.
  replace (length (map snd data))
    with (length (map (fun kv => column_of Company.jsToSql kv.1) data))
    by (rewrite !length_map; reflexivity).
  destruct (accepted_columns _ _ _ Hacc) as [Hnd Hin].
  assert (Hp : company_update_parses (map (fun kv => column_of Company.jsToSql kv.1) data)
               = true).
  { apply (parses_of_all company_update_parses (map fst Sql.company_columns)).
    - exact company_update_parses_all.
    - destruct data; [congruence|discriminate].
    - exact Hnd.
    - exact Hin. }
  apply bool_decide_eq_true_1 in Hp. rewrite Hp.
  unfold update_stmt. cbn [Sql.exec String.eqb Ascii.eqb Bool.eqb].
  rewrite (update_missing (R := CompanyRow) "handle" Sql.TText (Sql.CText h) k).
  - cbn. rewrite with_companies_same. reflexivity.
  - reflexivity.
  - exact Hk.
  - exact Hacc.
  - exact company_items_ok.
  - intros c Hc. rewrite company_key_matches.
    apply bool_decide_eq_false_2, Hno, Hc.
Qed.

Lemma pg_job_update_missing (k : JsVal) (id : Z) (data : Obj) (st : Store) :
  Sql.coerce Sql.TInt k = Some (Sql.CInt id) ->
  data <> [] ->
  accepted Sql.job_columns ∅ data = true ->
  (forall j, In j (jobs st) -> j_id j <> id) ->
  pg_query (Job.update_sql
              (join ", " (imap (assignment ∅) (Object_keys data)))
              ("$" +:+ dec (length (Object_values data) + 1)))
           (Object_values data ++ [k]) st
  = inr ([], st).
Proof.
  intros Hk Hne Hacc Hno. unfold pg_query.
  rewrite set_clause_of_keys. unfold Object_keys, Object_values.
  rewrite map_map.
  replace (length (map snd data))
    with (length (map (fun kv => column_of ∅ kv.1) data))
    by (rewrite !length_map; reflexivity).
  destruct (accepted_columns _ _ _ Hacc) as [Hnd Hin].
  assert (Hp : job_update_parses (map (fun kv => column_of ∅ kv.1) data) = true).
  { apply (parses_of_all job_update_parses (map fst Sql.job_columns)).
    - exact job_update_parses_all.
    - destruct data; [congruence|discriminate].
    - exact Hnd.
    - exact Hin. }
  apply bool_decide_eq_true_1 in Hp. rewrite Hp.
  unfold update_stmt. cbn [Sql.exec String.eqb Ascii.eqb Bool.eqb].
  rewrite (update_missing (R := JobRow) "id" Sql.TInt (Sql.CInt id) k).
  - cbn. rewrite with_jobs_same. reflexivity.
  - reflexivity.
  - exact Hk.
  - exact Hacc.
  - exact job_items_ok.
  - intros j Hj. rewrite job_key_matches.
    apply bool_decide_eq_false_2, Hno, Hj.
Qed.

(** ** Keys that no record has *)

Lemma run_company_update {Store} (db : Db Store) (st : Store) (k : JsVal) (data : Obj) :
  data <> [] ->
  run db (Company.update k data) st
  = match db (Company.update_sql
                (join ", " (imap (assignment Company.jsToSql) (Object_keys data)))
                ("$" +:+ dec (length (Object_values data) + 1)))
             (Object_values data ++ [k]) st with
    | inl e =>
        {| result := inl e; store := st;
           issued := [(Company.update_sql
                         (join ", " (imap (assignment Company.jsToSql) (Object_keys data)))
                         ("$" +:+ dec (length (Object_values data) + 1)),
                       Object_values data ++ [k])] |}
    | inr (rows, st') =>
        {| result := if negb (truthy (row0 rows))
                     then inl (NotFoundError ("No company: " +:+ js_string k))
                     else inr (row0 rows);
           store := st';
           issued := [(Company.update_sql
                         (join ", " (imap (assignment Company.jsToSql) (Object_keys data)))
                         ("$" +:+ dec (length (Object_values data) + 1)),
                       Object_values data ++ [k])] |}
    end.
Proof.
  intros Hne. unfold run, Company.update.
  rewrite (sqlForPartialUpdate_nonempty data _ Hne).
  cbn [lift bind db_query run_from setCols values app].
  destruct (db _ _ st) as [e|[rows st']]; [reflexivity|].
  destruct (negb (truthy (row0 rows))); reflexivity.
Qed.

Lemma run_job_update {Store} (db : Db Store) (st : Store) (k : JsVal) (data : Obj) :
  data <> [] ->
  run db (Job.update k data) st
  = match db (Job.update_sql
                (join ", " (imap (assignment ∅) (Object_keys data)))
                ("$" +:+ dec (length (Object_values data) + 1)))
             (Object_values data ++ [k]) st with
    | inl e =>
        {| result := inl e; store := st;
           issued := [(Job.update_sql
                         (join ", " (imap (assignment ∅) (Object_keys data)))
                         ("$" +:+ dec (length (Object_values data) + 1)),
                       Object_values data ++ [k])] |}
    | inr (rows, st') =>
        {| result := if negb (truthy (row0 rows))
                     then inl (NotFoundError ("No job: " +:+ js_string k))
                     else inr (row0 rows);
           store := st';
           issued := [(Job.update_sql
                         (join ", " (imap (assignment ∅) (Object_keys data)))
                         ("$" +:+ dec (length (Object_values data) + 1)),
                       Object_values data ++ [k])] |}
    end.
Proof.
  intros Hne. unfold run, Job.update.
  rewrite (sqlForPartialUpdate_nonempty data _ Hne).
  cbn [lift bind db_query run_from setCols values app].
  destruct (db _ _ st) as [e|[rows st']]; [reflexivity|].
  destruct (negb (truthy (row0 rows))); reflexivity.
Qed.

(** C8, as amended.  On a key that no record has, [get] and [remove] of
    either model end with the not-found error, and so does [update] with a
    non-empty field map that the store accepts: every key resolves to a
    column of the table, no column twice, and every value fits its column.
    The key is one the store can compare with the key column: a handle in
    text form, an id as a number or a numeral.  The store is as it was. *)
Theorem missing_key_is_not_found :
  (forall (st : Store) (k : JsVal) (h : string),
      Sql.coerce Sql.TText k = Some (Sql.CText h) ->
      (forall c, In c (companies st) -> c_handle c <> h) ->
      run pg_query (Company.get k) st
      = {| result := inl (NotFoundError ("No company: " +:+ js_string k)); store := st;
           issued := [(Company.get_sql, [k])] |}
      /\ (forall data : Obj,
            data <> [] ->
            accepted Sql.company_columns Company.jsToSql data = true ->
            result (run pg_query (Company.update k data) st)
            = inl (NotFoundError ("No company: " +:+ js_string k))
            /\ store (run pg_query (Company.update k data) st) = st)
      /\ run pg_query (Company.remove k) st
         = {| result := inl (NotFoundError ("No company: " +:+ js_string k)); store := st;
              issued := [(Company.remove_sql, [k])] |})
  /\ (forall (st : Store) (k : JsVal) (id : Z),
      Sql.coerce Sql.TInt k = Some (Sql.CInt id) ->
      (forall j, In j (jobs st) -> j_id j <> id) ->
      run pg_query (Job.get k) st
      = {| result := inl (NotFoundError ("No job: " +:+ js_string k)); store := st;
           issued := [(Job.get_sql, [k])] |}
      /\ (forall data : Obj,
            data <> [] ->
            accepted Sql.job_columns ∅ data = true ->
            result (run pg_query (Job.update k data) st)
            = inl (NotFoundError ("No job: " +:+ js_string k))
            /\ store (run pg_query (Job.update k data) st) = st)
      /\ run pg_query (Job.remove k) st
         = {| result := inl (NotFoundError ("No job: " +:+ js_string k)); store := st;
              issued := [(Job.remove_sql, [k])] |}).
Proof.
  split.
  - intros st k h Hk Hno. split; [|split].
    + unfold run, Company.get. cbn [bind db_query run_from].
      rewrite (pg_company_get k h st Hk).
      rewrite (filter_none (fun c => bool_decide (c_handle c = h))); [reflexivity|].
      intros c Hc. apply bool_decide_eq_false_2, Hno, Hc.
    + intros data Hne Hacc. rewrite (run_company_update pg_query st k data Hne).
      rewrite (pg_company_update_missing k h data st Hk Hne Hacc Hno).
      split; reflexivity.
    + unfold run, Company.remove. cbn [bind db_query run_from].
      rewrite (pg_company_remove_missing k h st Hk Hno). reflexivity.
  - intros st k id Hk Hno. split; [|split].
    + unfold run, Job.get. cbn [bind db_query run_from].
      rewrite (pg_job_get k id st Hk).
      rewrite (filter_none (fun j => bool_decide (j_id j = id))); [reflexivity|].
      intros j Hj. apply bool_decide_eq_false_2, Hno, Hj.
    + intros data Hne Hacc. rewrite (run_job_update pg_query st k data Hne).
      rewrite (pg_job_update_missing k id data st Hk Hne Hacc Hno).
      split; reflexivity.
    + unfold run, Job.remove. cbn [bind db_query run_from].
      rewrite (pg_job_remove_missing k id st Hk Hno). reflexivity.
Qed.

Lemma sample_store_has_no_company_nope :
  forall c, In c (companies sample_store) -> c_handle c <> "nope".
Proof. intros c [<-|[<-|[<-|[]]]]; discriminate. Qed.

Lemma sample_store_has_no_job_0 :
  forall j, In j (jobs sample_store) -> j_id j <> 0%Z.
Proof. intros j [<-|[<-|[<-|[]]]]; discriminate. Qed.

Lemma missing_key_is_not_found_witness :
  (Sql.coerce Sql.TText (JStr "nope") = Some (Sql.CText "nope")
   /\ (forall c, In c (companies sample_store) -> c_handle c <> "nope")
   /\ [("name", JStr "New"); ("numEmployees", JNum 5)] <> []
   /\ accepted Sql.company_columns Company.jsToSql
               [("name", JStr "New"); ("numEmployees", JNum 5)] = true
   /\ result (run pg_query (Company.get (JStr "nope")) sample_store)
      = inl (NotFoundError "No company: nope")
   /\ result (run pg_query (Company.update (JStr "nope")
                                           [("name", JStr "New"); ("numEmployees", JNum 5)])
                  sample_store)
      = inl (NotFoundError "No company: nope")
   /\ result (run pg_query (Company.remove (JStr "nope")) sample_store)
      = inl (NotFoundError "No company: nope"))
  /\ (Sql.coerce Sql.TInt (JStr "0") = Some (Sql.CInt 0)
      /\ (forall j, In j (jobs sample_store) -> j_id j <> 0%Z)
      /\ [("title", JStr "New Job")] <> []
      /\ accepted Sql.job_columns ∅ [("title", JStr "New Job")] = true
      /\ result (run pg_query (Job.get (JStr "0")) sample_store)
         = inl (NotFoundError "No job: 0")
      /\ result (run pg_query (Job.update (JStr "0") [("title", JStr "New Job")]) sample_store)
         = inl (NotFoundError "No job: 0")
      /\ result (run pg_query (Job.remove (JStr "0")) sample_store)
         = inl (NotFoundError "No job: 0")).
Proof.
  split.
  - destruct (proj1 missing_key_is_not_found sample_store (JStr "nope") "nope" eq_refl
                    sample_store_has_no_company_nope) as (Hget & Hupd & Hrem).
    assert (Hne : [("name", JStr "New"); ("numEmployees", JNum 5)] <> []) by discriminate.
    assert (Hacc : accepted Sql.company_columns Company.jsToSql
                            [("name", JStr "New"); ("numEmployees", JNum 5)] = true)
      by (vm_compute; reflexivity).
    split; [reflexivity|].
    split; [exact sample_store_has_no_company_nope|].
    split; [exact Hne|]. split; [exact Hacc|].
    split; [rewrite Hget; reflexivity|].
    split; [exact (proj1 (Hupd _ Hne Hacc))|].
    rewrite Hrem. reflexivity.
  - destruct (proj2 missing_key_is_not_found sample_store (JStr "0") 0%Z eq_refl
                    sample_store_has_no_job_0) as (Hget & Hupd & Hrem).
    assert (Hne : [("title", JStr "New Job")] <> []) by discriminate.
    assert (Hacc : accepted Sql.job_columns ∅ [("title", JStr "New Job")] = true)
      by (vm_compute; reflexivity).
    split; [reflexivity|].
    split; [exact sample_store_has_no_job_0|].
    split; [exact Hne|]. split; [exact Hacc|].
    split; [rewrite Hget; reflexivity|].
    split; [exact (proj1 (Hupd _ Hne Hacc))|].
    rewrite Hrem. reflexivity.
Defined.

(** C8 as stated fails: a non-empty field map whose key is no column of the
    table makes the store reject the statement, and [update] ends with that
    rejection, not with the not-found error, though no job has the id.  The
    store rejects in the same way a value that does not fit its column, two
    fields that resolve to one column, and a key it cannot compare with the
    key column. *)
Lemma update_missing_key_with_unknown_field :
  (forall j, In j (jobs sample_store) -> j_id j <> 0%Z)
  /\ result (run pg_query (Job.update (JNum 0) [("foo", JNum 1)]) sample_store)
     = inl (StorageError "statement rejected")
  /\ ~ is_NotFoundError (StorageError "statement rejected")
  /\ ~ (forall (st : Store) (id : Z) (data : Obj),
           (forall j, In j (jobs st) -> j_id j <> id) ->
           data <> [] ->
           exists m, result (run pg_query (Job.update (JNum id) data) st)
                     = inl (NotFoundError m))
  /\ result (run pg_query (Job.update (JNum 0) [("salary", JStr "abc")]) sample_store)
     = inl (StorageError "statement rejected")
  /\ result (run pg_query
                 (Company.update (JStr "nope")
                                 [("numEmployees", JNum 1); ("num_employees", JNum 2)])
                 sample_store)
     = inl (StorageError "statement rejected")
  /\ result (run pg_query (Job.get (JStr "abc")) sample_store)
     = inl (StorageError "statement rejected").
Proof.
  split; [exact sample_store_has_no_job_0|].
  assert (Hrun : result (run pg_query (Job.update (JNum 0) [("foo", JNum 1)]) sample_store)
                 = inl (StorageError "statement rejected"))
    by (vm_compute; reflexivity).
  split; [exact Hrun|]. split; [intros []|].
  split.
  - intros Hclaim.
    destruct (Hclaim sample_store 0%Z [("foo", JNum 1)] sample_store_has_no_job_0)
      as [m Hm]; [discriminate|].
    rewrite Hrun in Hm. discriminate.
  - repeat split; vm_compute; reflexivity.
Qed.

(** ** Key fields in an update *)



Lemma job_column_of (k : string) :
  prop Object_prototype k = JUndefined -> column_of ∅ k = k.
Proof. intros Hk. rewrite column_of_lookup, lookup_empty, Hk. reflexivity. Qed.




(** ** Filters with the value zero *)

(** C6 fails on the code: a bound of zero is skipped like a missing one.
    Whatever the other filters, the statement and the values assembled for a
    bound of 0 are those assembled without the bound.  Asked for the
    companies with at most 0 employees, [findAll] issues the statement
    without a WHERE clause and returns every company of the sample store, of
    which none passes the filter as the specification reads it; asked for
    those with at least 0, it returns also the company whose number of
    employees is not known.  The range check of the same method does count
    a bound of 0 as given. *)
Theorem findAll_skips_a_bound_of_zero :
  let at_most_0 := {| Company.name := None; Company.minEmployees := None;
                      Company.maxEmployees := Some 0%Z |} in
  let at_least_0 := {| Company.name := None; Company.minEmployees := Some 0%Z;
                       Company.maxEmployees := None |} in
  (forall n m,
      Company.findAll_query {| Company.name := n; Company.minEmployees := m;
                               Company.maxEmployees := Some 0%Z |}
      = Company.findAll_query {| Company.name := n; Company.minEmployees := m;
                                 Company.maxEmployees := None |})
  /\ (forall n m,
      Company.findAll_query {| Company.name := n; Company.minEmployees := Some 0%Z;
                               Company.maxEmployees := m |}
      = Company.findAll_query {| Company.name := n; Company.minEmployees := None;
                                 Company.maxEmployees := m |})
  /\ map (fun o => prop o "handle")
         (match result (run pg_query (Company.findAll at_most_0) sample_store) with
          | inr rows => rows
          | inl _ => []
          end)
     = [JStr "c1"; JStr "c2"; JStr "c3"]
  /\ List.filter (spec_company_passes at_most_0) (companies sample_store) = []
  /\ map (fun o => prop o "handle")
         (match result (run pg_query (Company.findAll at_least_0) sample_store) with
          | inr rows => rows
          | inl _ => []
          end)
     = [JStr "c1"; JStr "c2"; JStr "c3"]
  /\ map c_handle (List.filter (spec_company_passes at_least_0) (companies sample_store))
     = ["c1"; "c2"]
  /\ result (run pg_query
                 (Company.findAll {| Company.name := None; Company.minEmployees := Some 1%Z;
                                     Company.maxEmployees := Some 0%Z |})
                 sample_store)
     = inl (BadRequestError "minEmployees cannot be greater than maxEmployees").
Proof.
  intros at_most_0 at_least_0.
  split; [intros n m; reflexivity|].
  split; [intros n m; reflexivity|].
  vm_compute. repeat split; reflexivity.
Qed.


(** * Further properties *)

(** ** Objects *)

Lemma prop_obj_delete_same (k : string) (o : Obj) : prop (obj_delete k o) k = JUndefined.
Proof.
  induction o as [|[k' v] o IH]; [reflexivity|].
  unfold obj_delete in *. cbn.
  destruct (String.eqb k' k) eqn:E; cbn; [exact IH|].
  rewrite E. exact IH.
Qed.

Lemma prop_obj_delete_other (k k' : string) (o : Obj) :
  k' <> k -> prop (obj_delete k o) k' = prop o k'.
Proof.
  intros Hne. induction o as [|[k0 v] o IH]; [reflexivity|].
  unfold obj_delete in *. cbn.
  destruct (String.eqb k0 k) eqn:E; cbn.
  - apply String.eqb_eq in E. subst k0.
    rewrite (proj2 (String.eqb_neq k k')) by congruence. exact IH.
  - destruct (String.eqb k0 k'); [reflexivity|exact IH].
Qed.

Lemma prop_obj_set_same (k : string) (v : JsVal) (o : Obj) : prop (obj_set k v o) k = v.
Proof.
  induction o as [|[k' v'] o IH]; cbn.
  - rewrite String.eqb_refl. reflexivity.
  - destruct (String.eqb k' k) eqn:E; cbn.
    + rewrite String.eqb_refl. reflexivity.
    + rewrite E. exact IH.
Qed.

Lemma prop_obj_set_other (k k' : string) (v : JsVal) (o : Obj) :
  k' <> k -> prop (obj_set k v o) k' = prop o k'.
Proof.
  intros Hne. induction o as [|[k0 v0] o IH]; cbn.
  - rewrite (proj2 (String.eqb_neq k k')) by congruence. reflexivity.
  - destruct (String.eqb k0 k) eqn:E; cbn.
    + apply String.eqb_eq in E. subst k0.
      rewrite (proj2 (String.eqb_neq k k')) by congruence. reflexivity.
    + destruct (String.eqb k0 k'); [reflexivity|exact IH].
Qed.

(** ** What [Job.get] returns *)

(** X1.  Whatever the storage adapter and the store: when [Job.get] returns a
    job, the first statement has given at least one row and the second one
    has been answered; the job is the first row of the first answer without
    its [companyHandle], with the first row of the second answer
    ([undefined] when there is none) as [company], and every other property
    as it was.  The second statement is keyed by the [companyHandle] of that
    first row. *)
Theorem job_get_replaces_handle_by_company
        (Store : Type) (db : Db Store) (st : Store) (id job : JsVal) :
  result (run db (Job.get id) st) = inr job ->
  exists (jobrow : Obj) (rest : list Obj) (st1 : Store) (companyrows : list Obj) (st2 : Store),
    db Job.get_sql [id] st = inr (jobrow :: rest, st1)
    /\ db Job.company_sql [prop jobrow "companyHandle"] st1 = inr (companyrows, st2)
    /\ issued (run db (Job.get id) st)
       = [(Job.get_sql, [id]); (Job.company_sql, [prop jobrow "companyHandle"])]
    /\ store (run db (Job.get id) st) = st2
    /\ js_prop job "companyHandle" = JUndefined
    /\ js_prop job "company" = row0 companyrows
    /\ (forall k, k <> "companyHandle" -> k <> "company" -> js_prop job k = prop jobrow k).
Proof.
  unfold run, Job.get. cbn [bind db_query run_from app].
  destruct (db Job.get_sql [id] st) as [e|[rows st1]] eqn:E1; [discriminate|].
  destruct rows as [|jobrow rest]; [discriminate|].
  cbn [row0 truthy negb js_prop bind db_query run_from app].
  destruct (db Job.company_sql [prop jobrow "companyHandle"] st1) as [e|[crows st2]] eqn:E2;
    [discriminate|].
  cbn. intros [= <-].
  exists jobrow, rest, st1, crows, st2.
  split; [reflexivity|]. split; [exact E2|]. split; [reflexivity|]. split; [reflexivity|].
  split; [|split].
  - cbn. rewrite prop_obj_set_other by discriminate. apply prop_obj_delete_same.
  - cbn. apply prop_obj_set_same.
  - intros k Hk1 Hk2. cbn. rewrite prop_obj_set_other by exact Hk2.
    apply prop_obj_delete_other. exact Hk1.
Qed.

Lemma job_get_replaces_handle_by_company_witness :
  let job := JObj [("id", JNum 1); ("title", JStr "J1"); ("salary", JNum 1);
                   ("equity", JStr "0.1");
                   ("company",
                    JObj [("handle", JStr "c1"); ("name", JStr "C1");
                          ("description", JStr "Desc1"); ("numEmployees", JNum 1);
                          ("logoUrl", JStr "http://c1.img")])] in
  result (run pg_query (Job.get (JNum 1)) sample_store) = inr job
  /\ js_prop job "companyHandle" = JUndefined
  /\ issued (run pg_query (Job.get (JNum 1)) sample_store)
     = [(Job.get_sql, [JNum 1]); (Job.company_sql, [JStr "c1"])].
Proof.
  intros job.
  assert (H : result (run pg_query (Job.get (JNum 1)) sample_store) = inr job)
    by (vm_compute; reflexivity).
  split; [exact H|].
  destruct (job_get_replaces_handle_by_company Store pg_query sample_store (JNum 1) job H)
    as (jobrow & rest & st1 & crows & st2 & _ & _ & _ & _ & Hh & _ & _).
  split; [exact Hh|]. vm_compute. reflexivity.
Defined.

(** ** The text of an UPDATE *)

(** X2.  The statement text that [update] hands to the store is settled by the
    keys of the field map alone: two non-empty field maps with the same keys
    give the same text, whatever their values, the record keys, the adapters
    and the stores.  The values travel in the value list, in order, followed
    by the record key, and one statement is issued. *)
Theorem update_text_depends_on_keys_only
        (S1 S2 : Type) (db1 : Db S1) (db2 : Db S2) (st1 : S1) (st2 : S2)
        (k1 k2 : JsVal) (d1 d2 : Obj) :
  d1 <> [] ->
  Object_keys d1 = Object_keys d2 ->
  (map fst (issued (run db1 (Company.update k1 d1) st1))
   = map fst (issued (run db2 (Company.update k2 d2) st2))
   /\ map snd (issued (run db1 (Company.update k1 d1) st1)) = [Object_values d1 ++ [k1]]
   /\ map snd (issued (run db2 (Company.update k2 d2) st2)) = [Object_values d2 ++ [k2]])
  /\ (map fst (issued (run db1 (Job.update k1 d1) st1))
      = map fst (issued (run db2 (Job.update k2 d2) st2))
      /\ map snd (issued (run db1 (Job.update k1 d1) st1)) = [Object_values d1 ++ [k1]]
      /\ map snd (issued (run db2 (Job.update k2 d2) st2)) = [Object_values d2 ++ [k2]]).
Proof.
  intros Hne Hkeys.
  assert (Hne2 : d2 <> []).
  { intros ->. destruct d1; [congruence|discriminate]. }
  assert (Hlen : length (Object_values d1) = length (Object_values d2)).
  { unfold Object_values. rewrite !length_map.
    rewrite <- (length_map fst d1), <- (length_map fst d2).
    unfold Object_keys in Hkeys. rewrite Hkeys. reflexivity. }
  split.
  - rewrite (run_company_update db1 st1 k1 d1 Hne), (run_company_update db2 st2 k2 d2 Hne2).
    rewrite Hkeys, Hlen.
    destruct (db1 _ _ st1) as [e1|[rows1 st1']], (db2 _ _ st2) as [e2|[rows2 st2']];
      repeat split; reflexivity.
  - rewrite (run_job_update db1 st1 k1 d1 Hne), (run_job_update db2 st2 k2 d2 Hne2).
    rewrite Hkeys, Hlen.
    destruct (db1 _ _ st1) as [e1|[rows1 st1']], (db2 _ _ st2) as [e2|[rows2 st2']];
      repeat split; reflexivity.
Qed.

Lemma update_text_depends_on_keys_only_witness :
  let d1 := [("name", JStr "New"); ("numEmployees", JNum 5)] in
  let d2 := [("name", JStr "x', handle = 'z"); ("numEmployees", JNull)] in
  d1 <> []
  /\ Object_keys d1 = Object_keys d2
  /\ map fst (issued (run pg_query (Company.update (JStr "c1") d1) sample_store))
     = map fst (issued (run pg_query (Company.update (JStr "c2") d2) sample_store)).
Proof.
  intros d1 d2.
  assert (Hne : d1 <> []) by discriminate.
  assert (Hk : Object_keys d1 = Object_keys d2) by reflexivity.
  split; [exact Hne|]. split; [exact Hk|].
  exact (proj1 (proj1 (update_text_depends_on_keys_only
                         Store Store pg_query pg_query sample_store sample_store
                         (JStr "c1") (JStr "c2") d1 d2 Hne Hk))).
Defined.

(** ** What [findAll] returns *)

Lemma company_findAll_parses (f : Company.Filters) :
  Sql.parse (Sql.lex (fst (Company.findAll_query f))) = Some (company_select (company_active f)).
Proof.
  unfold company_active, Company.findAll_query.
  destruct (truthy (js_of_str (Company.name f))),
           (truthy (js_of_num (Company.minEmployees f))),
           (truthy (js_of_num (Company.maxEmployees f))); vm_compute; reflexivity.
Qed.

Lemma job_findAll_parses (f : Job.Filters) :
  Sql.parse (Sql.lex (fst (Job.findAll_query f))) = Some (job_select (job_active f)).
Proof.
  unfold job_active, Job.findAll_query.
  destruct (truthy (js_of_str (Job.title f))),
           (truthy (js_of_num (Job.minSalary f))),
           (truthy (Job.hasEquity f)); vm_compute; reflexivity.
Qed.

Lemma cell_test_ge (o : option Z) (a : Z) :
  Sql.cell_test Sql.OpGe (Sql.int_cell o) (Sql.CInt a)
  = match o with Some e => Z.leb a e | None => false end.
Proof.
  destruct o as [e|]; [|reflexivity]. cbn.
  destruct (Z.compare_spec e a), (Z.leb_spec a e); try reflexivity; lia.
Qed.

Lemma cell_test_le (o : option Z) (b : Z) :
  Sql.cell_test Sql.OpLe (Sql.int_cell o) (Sql.CInt b)
  = match o with Some e => Z.leb e b | None => false end.
Proof.
  destruct o as [e|]; [|reflexivity]. cbn.
  destruct (Z.compare_spec e b), (Z.leb_spec e b); try reflexivity; lia.
Qed.

Lemma company_select_exec (b1 b2 b3 : bool) (pat : string) (a b : Z) (st : Store) :
  Sql.exec (company_select (b1, b2, b3))
           ((if b1 then [JStr pat] else []) ++ (if b2 then [JNum a] else [])
              ++ (if b3 then [JNum b] else []))
           st
  = Some (map company_object
              (Sql.sort_by "name"
                 (List.filter
                    (fun c =>
                       (if b1 then Sql.ilike pat (c_name c) else true)
                       && (if b2
                           then match c_num_employees c with
                                | Some e => Z.leb a e | None => false end
                           else true)
                       && (if b3
                           then match c_num_employees c with
                                | Some e => Z.leb e b | None => false end
                           else true))
                    (companies st))), st).
Proof.
  unfold company_select.
  destruct b1, b2, b3;
    cbn -[Sql.matches Sql.project company_items Sql.sort_by];
    rewrite company_items_ok; cbn -[Sql.matches Sql.project company_items Sql.sort_by];
    (match goal with
     | |- Some (_ (_ _ (List.filter ?m ?l)), _) = Some (_ (_ _ (List.filter ?g ?l)), _) =>
         rewrite (List.filter_ext m g); [reflexivity|]
     end;
     intros c; unfold Sql.matches; cbn -[Sql.ilike Sql.cell_test];
     change (Sql.company_get c "num_employees") with (Sql.int_cell (c_num_employees c));
     rewrite ?cell_test_ge, ?cell_test_le; cbn -[Sql.ilike];
     rewrite ?andb_true_r, ?andb_assoc; reflexivity).
Qed.

Lemma company_bound_values_form (f : Company.Filters) :
  company_bound_values f
  = (if (company_active f).1.1
     then [JStr ("%" +:+ default "" (Company.name f) +:+ "%")] else [])
    ++ (if (company_active f).1.2 then [JNum (default 0%Z (Company.minEmployees f))] else [])
    ++ (if (company_active f).2 then [JNum (default 0%Z (Company.maxEmployees f))] else []).
Proof.
  destruct f as [[n|] [a|] [b|]]; unfold company_bound_values, company_active; cbn;
    repeat match goal with
           | |- context [String.eqb ?x ""] => destruct (String.eqb x "")
           | |- context [Z.eqb ?x 0] => destruct (Z.eqb x 0)
           end; reflexivity.
Qed.

Lemma company_where_form (f : Company.Filters) (c : CompanyRow) :
  company_where f c
  = (if (company_active f).1.1
     then Sql.ilike ("%" +:+ default "" (Company.name f) +:+ "%") (c_name c) else true)
    && (if (company_active f).1.2
        then match c_num_employees c with
             | Some e => Z.leb (default 0%Z (Company.minEmployees f)) e
             | None => false
             end
        else true)
    && (if (company_active f).2
        then match c_num_employees c with
             | Some e => Z.leb e (default 0%Z (Company.maxEmployees f))
             | None => false
             end
        else true).
Proof.
  destruct f as [[n|] [a|] [b|]]; unfold company_where, company_active;
    cbn -[Sql.ilike];
    repeat match goal with
           | |- context [String.eqb ?x ""] => destruct (String.eqb x "")
           | |- context [Z.eqb ?x 0] => destruct (Z.eqb x 0)
           end; reflexivity.
Qed.

Lemma pg_company_findAll (st : Store) (f : Company.Filters) :
  pg_query (fst (Company.findAll_query f)) (snd (Company.findAll_query f)) st
  = inr (map company_object
             (Sql.sort_by "name" (List.filter (company_where f) (companies st))), st).
Proof.
  unfold pg_query. rewrite company_findAll_parses, company_findAll_query_values.
  rewrite company_bound_values_form.
  destruct (company_active f) as [[b1 b2] b3] eqn:Hact. cbn [fst snd].
  rewrite company_select_exec.
  erewrite List.filter_ext; [reflexivity|].
  intros c. cbn beta. rewrite company_where_form, Hact. reflexivity.
Qed.

(** X3.  [Company.findAll], on every store and for every filter set: with both
    bounds given and the lower one greater it ends with the bad-request
    error and issues nothing; otherwise it issues one statement, leaves the
    store as it was and returns, ordered by name, exactly the companies that
    pass every active filter.  No match gives the empty list, not an error. *)
Theorem company_findAll_returns (st : Store) (f : Company.Filters) :
  run pg_query (Company.findAll f) st
  = if js_gt (Company.minEmployees f) (Company.maxEmployees f)
    then {| result := inl (BadRequestError "minEmployees cannot be greater than maxEmployees");
            store := st; issued := [] |}
    else {| result := inr (map company_object
                               (Sql.sort_by "name"
                                  (List.filter (company_where f) (companies st))));
            store := st;
            issued := [Company.findAll_query f] |}.
Proof.
  unfold Company.findAll.
  destruct (js_gt (Company.minEmployees f) (Company.maxEmployees f)); [reflexivity|].
  unfold run. cbn [bind db_query run_from app].
  rewrite pg_company_findAll. cbn [bind run_from app].
  rewrite <- surjective_pairing. reflexivity.
Qed.

Lemma joined_items_ok :
  Sql.items_ok (R := JobRow * option CompanyRow) job_list_items = true.
Proof. vm_compute. reflexivity. Qed.

Lemma cell_test_positive (e : option string) :
  Sql.cell_test Sql.OpGt (Sql.num_cell e) (Sql.CNum "0") = equity_positive e.
Proof.
  destruct e as [s|]; [|reflexivity]. unfold equity_positive. cbn.
  destruct (Sql.numeric_value s) as [[m sc]|]; [|reflexivity].
  change (Sql.nat_of_digits "0") with (Some 0).
  cbn [mbind option_bind fst snd Z.of_nat].
  unfold Sql.numeric_compare. cbn [fst snd Z.of_nat].
  change (10 ^ 0)%Z with 1%Z. rewrite Z.mul_1_r.
  change (Z.of_nat 0 * 10 ^ Z.of_nat sc)%Z with 0%Z.
  destruct (Z.compare_spec m 0), (Z.ltb_spec 0 m); try reflexivity; lia.
Qed.

Lemma project_joined (jc : JobRow * option CompanyRow) :
  Sql.project job_list_items jc = listed_job_object jc.
Proof. destruct jc as [j [c|]]; reflexivity. Qed.

Lemma joined_bind_conds (b1 b2 b3 : bool) (pat : string) (a : Z) :
  mapM (Sql.bind_cond (R := JobRow * option CompanyRow)
                      ((if b1 then [JStr pat] else []) ++ (if b2 then [JNum a] else [])))
       (job_conds (b1, b2, b3))
  = Some ((if b1 then [("title", Sql.OpILike, Sql.CText pat)] else [])
            ++ (if b2 then [("salary", Sql.OpGe, Sql.CInt a)] else [])
            ++ (if b3 then [("equity", Sql.OpGt, Sql.CNum "0")] else [])).
Proof. destruct b1, b2, b3; vm_compute; reflexivity. Qed.

Lemma joined_title_column :
  bool_decide (is_Some (Sql.col_type (R := JobRow * option CompanyRow) "title")) = true.
Proof. vm_compute. reflexivity. Qed.

Lemma job_select_exec (b1 b2 b3 : bool) (pat : string) (a : Z) (st : Store) :
  Sql.exec (job_select (b1, b2, b3))
           ((if b1 then [JStr pat] else []) ++ (if b2 then [JNum a] else [])) st
  = Some (map listed_job_object
              (Sql.sort_by "title"
                 (List.filter
                    (fun jc : JobRow * option CompanyRow =>
                       (if b1 then Sql.ilike pat (j_title jc.1) else true)
                       && (if b2
                           then match j_salary jc.1 with
                                | Some s => Z.leb a s | None => false end
                           else true)
                       && (if b3 then equity_positive (j_equity jc.1) else true))
                    (map (fun j => (j, Sql.company_of st j)) (jobs st)))), st).
Proof.
  unfold job_select. cbn [Sql.exec String.eqb Ascii.eqb Bool.eqb andb].
  unfold Sql.select. rewrite joined_bind_conds. cbn [mbind option_bind].
  rewrite joined_items_ok, joined_title_column.
  rewrite (map_ext _ listed_job_object project_joined).
  cbn [mbind option_bind].
  match goal with
  | |- Some (_ (_ _ (List.filter ?m ?l)), _) = Some (_ (_ _ (List.filter ?g ?l)), _) =>
      rewrite (List.filter_ext m g); [reflexivity|]
  end.
  intros jc. unfold Sql.matches.
  destruct b1, b2, b3; cbn -[Sql.ilike Sql.cell_test Sql.joined_get];
    change (Sql.joined_get jc "salary") with (Sql.int_cell (j_salary jc.1));
    change (Sql.joined_get jc "equity") with (Sql.num_cell (j_equity jc.1));
    change (Sql.joined_get jc "title") with (Sql.CText (j_title jc.1));
    rewrite ?cell_test_ge, ?cell_test_positive; cbn -[Sql.ilike];
    rewrite ?andb_true_r, ?andb_assoc; reflexivity.
Qed.

Lemma job_bound_values_form (f : Job.Filters) :
  job_bound_values f
  = (if (job_active f).1.1
     then [JStr ("%" +:+ default "" (Job.title f) +:+ "%")] else [])
    ++ (if (job_active f).1.2 then [JNum (default 0%Z (Job.minSalary f))] else []).
Proof.
  destruct f as [[a|] h [t|]]; unfold job_bound_values, job_active; cbn;
    repeat match goal with
           | |- context [String.eqb ?x ""] => destruct (String.eqb x "")
           | |- context [Z.eqb ?x 0] => destruct (Z.eqb x 0)
           end; reflexivity.
Qed.

Lemma job_where_form (f : Job.Filters) (j : JobRow) :
  job_where f j
  = (if (job_active f).1.1
     then Sql.ilike ("%" +:+ default "" (Job.title f) +:+ "%") (j_title j) else true)
    && (if (job_active f).1.2
        then match j_salary j with
             | Some s => Z.leb (default 0%Z (Job.minSalary f)) s
             | None => false
             end
        else true)
    && (if (job_active f).2 then equity_positive (j_equity j) else true).
Proof.
  destruct f as [[a|] h [t|]]; unfold job_where, job_active;
    cbn -[Sql.ilike equity_positive];
    repeat match goal with
           | |- context [String.eqb ?x ""] => destruct (String.eqb x "")
           | |- context [Z.eqb ?x 0] => destruct (Z.eqb x 0)
           end; reflexivity.
Qed.

Lemma pg_job_findAll (st : Store) (f : Job.Filters) :
  pg_query (fst (Job.findAll_query f)) (snd (Job.findAll_query f)) st
  = inr (map listed_job_object
             (Sql.sort_by "title"
                (List.filter (fun jc => job_where f jc.1)
                             (map (fun j => (j, Sql.company_of st j)) (jobs st)))), st).
Proof.
  unfold pg_query. rewrite job_findAll_parses, job_findAll_query_values.
  rewrite job_bound_values_form.
  destruct (job_active f) as [[b1 b2] b3] eqn:Hact. cbn [fst snd].
  rewrite job_select_exec.
  erewrite List.filter_ext; [reflexivity|].
  intros jc. cbn beta. rewrite job_where_form, Hact. reflexivity.
Qed.

(** X4.  [Job.findAll], on every store and for every filter set: it issues one
    statement, leaves the store as it was and returns, ordered by title,
    exactly the jobs that pass every active filter, each with the name of
    its company.  A missing filter, an empty title and a minimum salary of
    zero ask nothing; [hasEquity] asks for an equity above zero whenever it
    is truthy, whatever its value. *)
Theorem job_findAll_returns (st : Store) (f : Job.Filters) :
  run pg_query (Job.findAll f) st
  = {| result := inr (map listed_job_object
                          (Sql.sort_by "title"
                             (List.filter (fun jc => job_where f jc.1)
                                          (map (fun j => (j, Sql.company_of st j))
                                               (jobs st)))));
       store := st;
       issued := [Job.findAll_query f] |}.
Proof.
  unfold Job.findAll, run. cbn [bind db_query run_from app].
  rewrite pg_job_findAll. cbn [bind run_from app].
  rewrite <- surjective_pairing. reflexivity.
Qed.

(** ** Reading leaves the store *)

Lemma pg_query_select_keeps_store (sql : string) (ps : list JsVal) (st st' : Store)
      (rows : list Obj) items from conds order :
  Sql.parse (Sql.lex sql) = Some (Sql.SSelect items from conds order) ->
  pg_query sql ps st = inr (rows, st') -> st' = st.
Proof.
  intros Hp. unfold pg_query. rewrite Hp. cbn [Sql.exec].
  destruct from as [t|t1 a1 t2 a2 l r].
  - destruct (String.eqb t "companies").
    + destruct (Sql.select _ _ _ _ (companies st)); cbn; congruence.
    + destruct (String.eqb t "jobs"); [|discriminate].
      destruct (Sql.select _ _ _ _ (jobs st)); cbn; congruence.
  - destruct (_ && _); [|discriminate].
    destruct (Sql.select _ _ _ _ _); cbn; congruence.
Qed.

Lemma parse_job_company :
  Sql.parse (Sql.lex Job.company_sql)
  = Some (Sql.SSelect company_items (Sql.FTable "companies") [key_cond "handle" 1] None).
Proof. vm_compute. reflexivity. Qed.

(** X5.  The four reading methods never change the store: whatever the key or
    the filters, and whether they return, find nothing or are rejected, the
    store after [Company.get], [Company.findAll], [Job.get] and
    [Job.findAll] is the store before. *)
Theorem reading_leaves_the_store (st : Store) :
  (forall k, store (run pg_query (Company.get k) st) = st)
  /\ (forall f, store (run pg_query (Company.findAll f) st) = st)
  /\ (forall k, store (run pg_query (Job.get k) st) = st)
  /\ (forall f, store (run pg_query (Job.findAll f) st) = st).
Proof.
  split; [|split; [|split]].
  - intros k. unfold run, Company.get. cbn [bind db_query run_from app].
    destruct (pg_query Company.get_sql [k] st) as [e|[rows st']] eqn:E; [reflexivity|].
    apply (pg_query_select_keeps_store _ _ _ _ _ _ _ _ _ parse_company_get) in E. subst st'.
    destruct rows; reflexivity.
  - intros f. unfold Company.findAll.
    destruct (js_gt _ _); [reflexivity|].
    unfold run. cbn [bind db_query run_from app].
    rewrite pg_company_findAll. reflexivity.
  - intros k. unfold run, Job.get. cbn [bind db_query run_from app].
    destruct (pg_query Job.get_sql [k] st) as [e|[rows st']] eqn:E; [reflexivity|].
    apply (pg_query_select_keeps_store _ _ _ _ _ _ _ _ _ parse_job_get) in E. subst st'.
    destruct rows as [|jobrow rest]; [reflexivity|].
    cbn [row0 truthy negb js_prop bind db_query run_from app].
    destruct (pg_query Job.company_sql _ st) as [e|[crows st']] eqn:E2; [reflexivity|].
    apply (pg_query_select_keeps_store _ _ _ _ _ _ _ _ _ parse_job_company) in E2. subst st'.
    reflexivity.
  - intros f. unfold Job.findAll, run. cbn [bind db_query run_from app].
    rewrite pg_job_findAll. reflexivity.
Qed.

(** ** Removing, then fetching *)

Lemma filter_filter_neg {A} (f g : A -> bool) (l : list A) :
  (forall x, f x = true -> g x = false) ->
  List.filter f (List.filter (fun x => negb (g x)) l) = List.filter f l.
Proof.
  intros Hfg. induction l as [|x l IH]; [reflexivity|]. cbn.
  destruct (g x) eqn:Eg; cbn.
  - destruct (f x) eqn:Ef; [|exact IH]. rewrite (Hfg x Ef) in Eg. discriminate.
  - destruct (f x); [f_equal|]; exact IH.
Qed.

Lemma filter_filter_same_neg {A} (g : A -> bool) (l : list A) :
  List.filter g (List.filter (fun x => negb (g x)) l) = [].
Proof.
  apply filter_none. intros x Hx. apply filter_In in Hx. destruct Hx as [_ Hx].
  destruct (g x); [discriminate|reflexivity].
Qed.

Lemma filter_neg_key_ext {A} (m g : A -> bool) (l : list A) :
  (forall x, m x = g x) ->
  List.filter (fun x => negb (m x)) l = List.filter (fun x => negb (g x)) l.
Proof. intros H. apply List.filter_ext. intros x. rewrite H. reflexivity. Qed.

(** The DELETE of [Company.remove]: the companies with the handle go. *)
Lemma pg_company_remove (k : JsVal) (h : string) (st : Store) :
  Sql.coerce Sql.TText k = Some (Sql.CText h) ->
  exists st',
    pg_query Company.remove_sql [k] st
    = inr (map (Sql.project [("handle", "handle")])
               (List.filter (fun c => bool_decide (c_handle c = h)) (companies st)), st')
    /\ companies st'
       = List.filter (fun c => negb (bool_decide (c_handle c = h))) (companies st).
Proof.
  intros Hk. unfold pg_query. rewrite parse_company_remove.
  cbn -[Sql.matches Sql.project Sql.coerce Sql.cascade]. rewrite Hk.
  cbn -[Sql.matches Sql.project Sql.cascade].
  rewrite filter_company_key.
  rewrite (filter_neg_key_ext _ _ _ (company_key_matches h)).
  eexists. split; [reflexivity|]. reflexivity.
Qed.

Lemma pg_job_remove (k : JsVal) (id : Z) (st : Store) :
  Sql.coerce Sql.TInt k = Some (Sql.CInt id) ->
  pg_query Job.remove_sql [k] st
  = inr (map (Sql.project [("id", "id")])
             (List.filter (fun j => bool_decide (j_id j = id)) (jobs st)),
         Sql.with_jobs st (List.filter (fun j => negb (bool_decide (j_id j = id))) (jobs st))).
Proof.
  intros Hk. unfold pg_query. rewrite parse_job_remove.
  cbn -[Sql.matches Sql.project Sql.coerce]. rewrite Hk.
  cbn -[Sql.matches Sql.project].
  rewrite filter_job_key.
  rewrite (filter_neg_key_ext _ _ _ (job_key_matches id)).
  reflexivity.
Qed.

(** The second SELECT of [Job.get] looks only at the companies. *)
Lemma pg_job_company (v : JsVal) (st : Store) :
  pg_query Job.company_sql [v] st
  = match Sql.coerce Sql.TText v with
    | Some cell =>
        inr (map (Sql.project company_items)
                 (List.filter (Sql.matches [("handle", Sql.OpEq, cell)]) (companies st)), st)
    | None => inl (StorageError "statement rejected")
    end.
Proof.
  unfold pg_query. rewrite parse_job_company.
  cbn -[Sql.matches Sql.project company_items Sql.coerce].
  destruct (Sql.coerce Sql.TText v) as [cell|]; [|reflexivity].
  cbn -[Sql.matches Sql.project company_items].
  rewrite company_items_ok. reflexivity.
Qed.

Lemma run_company_get (k : JsVal) (h : string) (st : Store) :
  Sql.coerce Sql.TText k = Some (Sql.CText h) ->
  result (run pg_query (Company.get k) st)
  = match List.filter (fun c => bool_decide (c_handle c = h)) (companies st) with
    | c :: _ => inr (JObj (company_object c))
    | [] => inl (NotFoundError ("No company: " +:+ js_string k))
    end.
Proof.
  intros Hk. unfold run, Company.get. cbn [bind db_query run_from app].
  rewrite (pg_company_get k h st Hk).
  destruct (List.filter _ (companies st)); reflexivity.
Qed.

Lemma run_job_get (k : JsVal) (id : Z) (st : Store) :
  Sql.coerce Sql.TInt k = Some (Sql.CInt id) ->
  result (run pg_query (Job.get k) st)
  = match List.filter (fun j => bool_decide (j_id j = id)) (jobs st) with
    | j :: _ =>
        inr (JObj [("id", JNum (j_id j)); ("title", JStr (j_title j));
                   ("salary", Sql.cell_to_js (Sql.int_cell (j_salary j)));
                   ("equity", Sql.cell_to_js (Sql.num_cell (j_equity j)));
                   ("company",
                    row0 (map company_object
                              (List.filter
                                 (fun c => bool_decide (c_handle c = j_company_handle j))
                                 (companies st))))])
    | [] => inl (NotFoundError ("No job: " +:+ js_string k))
    end.
Proof.
  intros Hk. unfold run, Job.get. cbn [bind db_query run_from app].
  rewrite (pg_job_get k id st Hk).
  destruct (List.filter _ (jobs st)) as [|j l]; [reflexivity|].
  cbn [map row0 truthy negb bind db_query run_from app js_prop].
  change (prop (Sql.project job_items j) "companyHandle") with (JStr (j_company_handle j)).
  rewrite pg_job_company. cbn [Sql.coerce].
  rewrite filter_company_key. reflexivity.
Qed.

(** X6.  After [Company.remove] has removed a company, [Company.get] on the same
    key finds nothing, and [Company.get] on any other handle returns what it
    returned before: the removal takes the companies with that handle out of
    the table and touches no other. *)
Theorem company_remove_then_get (st : Store) (k : JsVal) (h : string) (c : CompanyRow) :
  Sql.coerce Sql.TText k = Some (Sql.CText h) ->
  In c (companies st) ->
  c_handle c = h ->
  result (run pg_query (Company.remove k) st) = inr tt
  /\ issued (run pg_query (Company.remove k) st) = [(Company.remove_sql, [k])]
  /\ companies (store (run pg_query (Company.remove k) st))
     = List.filter (fun c => negb (bool_decide (c_handle c = h))) (companies st)
  /\ result (run pg_query (Company.get k) (store (run pg_query (Company.remove k) st)))
     = inl (NotFoundError ("No company: " +:+ js_string k))
  /\ (forall h', h' <> h ->
        result (run pg_query (Company.get (JStr h'))
                    (store (run pg_query (Company.remove k) st)))
        = result (run pg_query (Company.get (JStr h')) st)).
Proof.
  intros Hk Hc Hch.
  destruct (pg_company_remove k h st Hk) as (st' & Hq & Hst').
  destruct (filter_some (fun c => bool_decide (c_handle c = h)) (companies st) c Hc)
    as (y & l & E & _ & _).
  { apply bool_decide_eq_true_2, Hch. }
  assert (Hrun : run pg_query (Company.remove k) st
                 = {| result := inr tt; store := st'; issued := [(Company.remove_sql, [k])] |}).
  { unfold run, Company.remove. cbn [bind db_query run_from app].
    rewrite Hq, E. reflexivity. }
  rewrite Hrun. cbn [result store issued].
  split; [reflexivity|]. split; [reflexivity|]. split; [exact Hst'|]. split.
  - rewrite (run_company_get k h st' Hk), Hst'.
    rewrite (filter_filter_same_neg (fun c => bool_decide (c_handle c = h))). reflexivity.
  - intros h' Hne.
    rewrite (run_company_get (JStr h') h' st' eq_refl), (run_company_get (JStr h') h' st eq_refl).
    rewrite Hst'.
    rewrite (filter_filter_neg (fun c => bool_decide (c_handle c = h'))
                               (fun c => bool_decide (c_handle c = h))); [reflexivity|].
    intros x Hx. apply bool_decide_eq_true_1 in Hx.
    apply bool_decide_eq_false_2. congruence.
Qed.

(** X7.  After [Job.remove] has removed a job, [Job.get] on the same key finds
    nothing, [Job.get] on any other id returns what it returned before, and
    the companies are as they were. *)
Theorem job_remove_then_get (st : Store) (k : JsVal) (id : Z) (j : JobRow) :
  Sql.coerce Sql.TInt k = Some (Sql.CInt id) ->
  In j (jobs st) ->
  j_id j = id ->
  result (run pg_query (Job.remove k) st) = inr tt
  /\ issued (run pg_query (Job.remove k) st) = [(Job.remove_sql, [k])]
  /\ jobs (store (run pg_query (Job.remove k) st))
     = List.filter (fun j => negb (bool_decide (j_id j = id))) (jobs st)
  /\ companies (store (run pg_query (Job.remove k) st)) = companies st
  /\ result (run pg_query (Job.get k) (store (run pg_query (Job.remove k) st)))
     = inl (NotFoundError ("No job: " +:+ js_string k))
  /\ (forall id', id' <> id ->
        result (run pg_query (Job.get (JNum id')) (store (run pg_query (Job.remove k) st)))
        = result (run pg_query (Job.get (JNum id')) st)).
Proof.
  intros Hk Hj Hji.
  destruct (filter_some (fun j => bool_decide (j_id j = id)) (jobs st) j Hj)
    as (y & l & E & _ & _).
  { apply bool_decide_eq_true_2, Hji. }
  assert (Hrun : run pg_query (Job.remove k) st
                 = {| result := inr tt;
                      store := Sql.with_jobs st
                                 (List.filter (fun j => negb (bool_decide (j_id j = id)))
                                              (jobs st));
                      issued := [(Job.remove_sql, [k])] |}).
  { unfold run, Job.remove. cbn [bind db_query run_from app].
    rewrite (pg_job_remove k id st Hk), E. reflexivity. }
  rewrite Hrun. cbn [result store issued].
  split; [reflexivity|]. split; [reflexivity|]. split; [reflexivity|].
  split; [reflexivity|]. split.
  - rewrite (run_job_get k id _ Hk). cbn [Sql.with_jobs jobs].
    rewrite (filter_filter_same_neg (fun j => bool_decide (j_id j = id))). reflexivity.
  - intros id' Hne.
    rewrite (run_job_get (JNum id') id' _ eq_refl), (run_job_get (JNum id') id' st eq_refl).
    cbn [Sql.with_jobs jobs companies].
    rewrite (filter_filter_neg (fun j => bool_decide (j_id j = id'))
                               (fun j => bool_decide (j_id j = id))); [reflexivity|].
    intros x Hx. apply bool_decide_eq_true_1 in Hx.
    apply bool_decide_eq_false_2. congruence.
Qed.

Lemma company_remove_then_get_witness :
  let c := {| c_handle := "c2"; c_name := "C2"; c_description := "Desc2";
              c_num_employees := Some 2%Z; c_logo_url := Some "http://c2.img" |} in
  In c (companies sample_store)
  /\ result (run pg_query (Company.remove (JStr "c2")) sample_store) = inr tt
  /\ result (run pg_query (Company.get (JStr "c2"))
                 (store (run pg_query (Company.remove (JStr "c2")) sample_store)))
     = inl (NotFoundError "No company: c2").
Proof.
  intros c.
  assert (Hc : In c (companies sample_store)) by (right; left; reflexivity).
  destruct (company_remove_then_get sample_store (JStr "c2") "c2" c eq_refl Hc eq_refl)
    as (Hres & _ & _ & Hget & _).
  split; [exact Hc|]. split; [exact Hres|exact Hget].
Defined.

Lemma job_remove_then_get_witness :
  let j := {| j_id := 2; j_title := "J2"; j_salary := Some 2%Z; j_equity := Some "0.2";
              j_company_handle := "c1" |} in
  In j (jobs sample_store)
  /\ result (run pg_query (Job.remove (JNum 2)) sample_store) = inr tt
  /\ result (run pg_query (Job.get (JNum 2))
                 (store (run pg_query (Job.remove (JNum 2)) sample_store)))
     = inl (NotFoundError "No job: 2").
Proof.
  intros j.
  assert (Hj : In j (jobs sample_store)) by (right; left; reflexivity).
  destruct (job_remove_then_get sample_store (JNum 2) 2%Z j eq_refl Hj eq_refl)
    as (Hres & _ & _ & _ & Hget & _).
  split; [exact Hj|]. split; [exact Hres|exact Hget].
Defined.

(** ** Creating, then fetching *)

Lemma parse_company_insert :
  Sql.parse (Sql.lex Company.insert_sql)
  = Some (Sql.SInsert "companies" ["handle"; "name"; "description"; "num_employees"; "logo_url"]
                      [Sql.OParam 1; Sql.OParam 2; Sql.OParam 3; Sql.OParam 4; Sql.OParam 5]
                      company_items).
Proof. vm_compute. reflexivity. Qed.

Lemma parse_job_insert :
  Sql.parse (Sql.lex Job.insert_sql)
  = Some (Sql.SInsert "jobs" ["title"; "salary"; "equity"; "company_handle"]
                      [Sql.OParam 1; Sql.OParam 2; Sql.OParam 3; Sql.OParam 4]
                      job_items).
Proof. vm_compute. reflexivity. Qed.

Lemma find_app_Some {A} (f : A -> bool) (l k : list A) :
  is_Some (List.find f l) -> is_Some (List.find f (l ++ k)).
Proof.
  induction l as [|x l IH]; cbn; [intros [y Hy]; discriminate|].
  destruct (f x); [eauto|exact IH].
Qed.

Lemma store_ok_add_company (st : Store) (c : CompanyRow) :
  Sql.store_ok st = true ->
  (forall c', In c' (companies st) -> c_handle c' <> c_handle c) ->
  Sql.store_ok (Sql.with_companies st (companies st ++ [c])) = true.
Proof.
  unfold Sql.store_ok. intros Hok Hfresh.
  apply andb_prop in Hok. destruct Hok as [Hok Hfk].
  apply andb_prop in Hok. destruct Hok as [Hc Hj].
  apply bool_decide_eq_true_1 in Hc.
  cbn [Sql.with_companies companies jobs].
  rewrite Hj. rewrite bool_decide_eq_true_2.
  - cbn [andb]. apply forallb_forall. intros j Hjin.
    pose proof (proj1 (forallb_forall _ _) Hfk j Hjin) as Hs.
    apply bool_decide_eq_true_1 in Hs. apply bool_decide_eq_true_2.
    unfold Sql.company_of in *. cbn [companies]. apply find_app_Some, Hs.
  - rewrite map_app. apply NoDup_app. split; [exact Hc|]. split.
    + intros x Hx Hx'. apply list_elem_of_In in Hx. apply in_map_iff in Hx.
      destruct Hx as (c' & <- & Hc').
      cbn in Hx'. apply list_elem_of_In in Hx'. destruct Hx' as [Hx'|[]].
      apply (Hfresh c' Hc'). congruence.
    + cbn. apply NoDup_singleton.
Qed.

Lemma store_ok_add_job (st : Store) (j : JobRow) (n : Z) :
  Sql.store_ok st = true ->
  (forall j', In j' (jobs st) -> j_id j' <> j_id j) ->
  is_Some (Sql.company_of st j) ->
  Sql.store_ok {| companies := companies st; jobs := jobs st ++ [j]; next_job_id := n |} = true.
Proof.
  unfold Sql.store_ok. intros Hok Hfresh Hco.
  apply andb_prop in Hok. destruct Hok as [Hok Hfk].
  apply andb_prop in Hok. destruct Hok as [Hc Hj].
  apply bool_decide_eq_true_1 in Hj.
  cbn [companies jobs]. rewrite Hc. cbn [andb].
  apply andb_true_intro. split.
  - apply bool_decide_eq_true_2. rewrite map_app. apply NoDup_app. split; [exact Hj|]. split.
    + intros x Hx Hx'. apply list_elem_of_In in Hx. apply in_map_iff in Hx.
      destruct Hx as (j' & <- & Hj').
      cbn in Hx'. apply list_elem_of_In in Hx'. destruct Hx' as [Hx'|[]].
      apply (Hfresh j' Hj'). congruence.
    + cbn. apply NoDup_singleton.
  - rewrite forallb_app. apply andb_true_intro. split.
    + exact Hfk.
    + cbn. rewrite andb_true_r. apply bool_decide_eq_true_2. exact Hco.
Qed.

Lemma filter_unique_handle (cs : list CompanyRow) (c : CompanyRow) :
  NoDup (map c_handle cs) -> In c cs ->
  List.filter (fun c' => bool_decide (c_handle c' = c_handle c)) cs = [c].
Proof.
  induction cs as [|x cs IH]; intros Hnd Hin; [destruct Hin|].
  cbn in Hnd. apply NoDup_cons in Hnd. destruct Hnd as [Hx Hnd]. cbn.
  destruct Hin as [->|Hin].
  - rewrite bool_decide_eq_true_2 by reflexivity. f_equal.
    apply filter_none. intros y Hy. apply bool_decide_eq_false_2. intros Heq.
    apply Hx. rewrite <- Heq. apply list_elem_of_In, in_map, Hy.
  - rewrite bool_decide_eq_false_2; [apply IH; assumption|].
    intros Heq. apply Hx. rewrite Heq. apply list_elem_of_In, in_map, Hin.
Qed.

(** The INSERT of [Company.create] on a store that keeps its constraints
    and has no company with the handle. *)
Lemma pg_company_insert (st : Store) (h n d : string) (e : option Z) (l : option string) :
  Sql.store_ok st = true ->
  (forall c, In c (companies st) -> c_handle c <> h) ->
  pg_query Company.insert_sql [JStr h; JStr n; JStr d; js_of_num e; js_of_str l] st
  = inr ([company_object {| c_handle := h; c_name := n; c_description := d;
                            c_num_employees := e; c_logo_url := l |}],
         Sql.with_companies st
           (companies st ++ [{| c_handle := h; c_name := n; c_description := d;
                                c_num_employees := e; c_logo_url := l |}])).
Proof.
  intros Hok Hfresh. unfold pg_query. rewrite parse_company_insert.
  cbn -[Sql.project company_items Sql.store_ok Sql.coerce].
  change (bool_decide (NoDup ["handle"; "name"; "description"; "num_employees"; "logo_url"]))
    with true.
  rewrite company_items_ok.
  destruct e as [e|], l as [l|];
    cbn -[Sql.store_ok];
    (rewrite store_ok_add_company; [reflexivity|exact Hok|exact Hfresh]).
Qed.

(** X8.  [Company.create] on a store that keeps its constraints and has no
    company with the handle: the duplicate check and the INSERT are issued,
    the company is added at the end of the table, and the row returned is
    the row that [Company.get] returns for the handle afterwards.  It holds
    the supplied handle, name and description, and the number of employees
    and the logo when they were supplied, [null] otherwise. *)
Theorem company_create_then_get
        (st : Store) (data : Obj) (h n d : string) (e : option Z) (l : option string) :
  Sql.store_ok st = true ->
  (forall c, In c (companies st) -> c_handle c <> h) ->
  prop data "handle" = JStr h ->
  prop data "name" = JStr n ->
  prop data "description" = JStr d ->
  prop data "numEmployees" = js_of_num e ->
  prop data "logoUrl" = js_of_str l ->
  let c := {| c_handle := h; c_name := n; c_description := d;
              c_num_employees := e; c_logo_url := l |} in
  result (run pg_query (Company.create data) st) = inr (JObj (company_object c))
  /\ issued (run pg_query (Company.create data) st)
     = [(Company.duplicateCheck_sql, [JStr h]);
        (Company.insert_sql, [JStr h; JStr n; JStr d; js_of_num e; js_of_str l])]
  /\ companies (store (run pg_query (Company.create data) st)) = companies st ++ [c]
  /\ jobs (store (run pg_query (Company.create data) st)) = jobs st
  /\ result (run pg_query (Company.get (JStr h)) (store (run pg_query (Company.create data) st)))
     = inr (JObj (company_object c)).
Proof.
  intros Hok Hfresh Hh Hn Hd He Hl c.
  assert (Hrun : run pg_query (Company.create data) st
                 = {| result := inr (JObj (company_object c));
                      store := Sql.with_companies st (companies st ++ [c]);
                      issued := [(Company.duplicateCheck_sql, [JStr h]);
                                 (Company.insert_sql,
                                  [JStr h; JStr n; JStr d; js_of_num e; js_of_str l])] |}).
  { unfold run, Company.create. cbn [bind db_query run_from app].
    rewrite Hh, Hn, Hd, He, Hl.
    rewrite pg_company_duplicateCheck.
    rewrite (filter_none (fun c => bool_decide (c_handle c = h)))
      by (intros c' Hc'; apply bool_decide_eq_false_2, Hfresh, Hc').
    cbn [map row0 truthy bind db_query run_from app].
    rewrite (pg_company_insert st h n d e l Hok Hfresh). reflexivity. }
  rewrite Hrun. cbn [result store issued Sql.with_companies companies jobs].
  split; [reflexivity|]. split; [reflexivity|]. split; [reflexivity|].
  split; [reflexivity|].
  rewrite (run_company_get (JStr h) h _ eq_refl). cbn [Sql.with_companies companies].
  rewrite List.filter_app.
  rewrite (filter_none (fun c => bool_decide (c_handle c = h)) (companies st))
    by (intros c' Hc'; apply bool_decide_eq_false_2, Hfresh, Hc').
  cbn. rewrite bool_decide_eq_true_2 by reflexivity. reflexivity.
Qed.

Lemma company_create_then_get_witness :
  let st := sample_store in
  let data := [("handle", JStr "new"); ("name", JStr "New");
               ("description", JStr "New Description"); ("numEmployees", JNum 1)] in
  let c := {| c_handle := "new"; c_name := "New"; c_description := "New Description";
              c_num_employees := Some 1%Z; c_logo_url := None |} in
  Sql.store_ok st = true
  /\ (forall c, In c (companies st) -> c_handle c <> "new")
  /\ prop data "logoUrl" = js_of_str None
  /\ result (run pg_query (Company.create data) st) = inr (JObj (company_object c))
  /\ result (run pg_query (Company.get (JStr "new"))
                 (store (run pg_query (Company.create data) st)))
     = inr (JObj (company_object c)).
Proof.
  intros st data c.
  assert (Hok : Sql.store_ok st = true) by (vm_compute; reflexivity).
  assert (Hfresh : forall c, In c (companies st) -> c_handle c <> "new").
  { intros c' [<-|[<-|[<-|[]]]]; discriminate. }
  destruct (company_create_then_get st data "new" "New" "New Description" (Some 1%Z) None
              Hok Hfresh eq_refl eq_refl eq_refl eq_refl eq_refl)
    as (Hres & _ & _ & _ & Hget).
  split; [exact Hok|]. split; [exact Hfresh|]. split; [reflexivity|].
  split; [exact Hres|exact Hget].
Defined.

(** The INSERT of [Job.create] on a store that keeps its constraints, whose
    next id is not in use, for a company that exists. *)
Lemma pg_job_insert (st : Store) (t ch : string) (s : option Z) (q : option string) :
  Sql.store_ok st = true ->
  (forall j, In j (jobs st) -> j_id j <> next_job_id st) ->
  (forall x, q = Some x -> is_Some (Sql.numeric_value x)) ->
  (exists c, In c (companies st) /\ c_handle c = ch) ->
  pg_query Job.insert_sql [JStr t; js_of_num s; js_of_str q; JStr ch] st
  = inr ([job_object {| j_id := next_job_id st; j_title := t; j_salary := s;
                        j_equity := q; j_company_handle := ch |}],
         {| companies := companies st;
            jobs := jobs st ++ [{| j_id := next_job_id st; j_title := t; j_salary := s;
                                   j_equity := q; j_company_handle := ch |}];
            next_job_id := (next_job_id st + 1)%Z |}).
Proof.
  intros Hok Hfresh Hq (c & Hc & Hch). unfold pg_query. rewrite parse_job_insert.
  cbn -[Sql.project job_items Sql.store_ok Sql.coerce].
  change (bool_decide (NoDup ["title"; "salary"; "equity"; "company_handle"])) with true.
  rewrite job_items_ok.
  assert (Hco : forall j, j_company_handle j = ch -> is_Some (Sql.company_of st j)).
  { intros j Hj. unfold Sql.company_of.
    destruct (List.find _ (companies st)) eqn:E; [eauto|].
    exfalso. pose proof (find_none _ _ E c Hc) as Hn. cbn in Hn.
    rewrite Hj, Hch, String.eqb_refl in Hn. discriminate. }
  destruct s as [s|], q as [q|];
    cbn -[Sql.store_ok Sql.numeric_value];
    try (destruct (Hq q eq_refl) as [v ->]; cbn -[Sql.store_ok]);
    (rewrite store_ok_add_job; [reflexivity|exact Hok|exact Hfresh|apply Hco; reflexivity]).
Qed.

(** X9.  [Job.create] on a store that keeps its constraints and whose next id is
    free, for a company that exists: one INSERT is issued, the job is added
    with the generated id, and the row returned holds that id and the
    supplied title, salary, equity and company handle ([null] for a salary
    or an equity that was not supplied).  [Job.get] on the id afterwards
    returns the same job, its handle replaced by the company. *)
Theorem job_create_then_get
        (st : Store) (data : Obj) (t ch : string) (s : option Z) (q : option string)
        (c : CompanyRow) :
  Sql.store_ok st = true ->
  (forall j, In j (jobs st) -> j_id j <> next_job_id st) ->
  In c (companies st) ->
  c_handle c = ch ->
  (forall x, q = Some x -> is_Some (Sql.numeric_value x)) ->
  prop data "title" = JStr t ->
  prop data "salary" = js_of_num s ->
  prop data "equity" = js_of_str q ->
  prop data "companyHandle" = JStr ch ->
  let j := {| j_id := next_job_id st; j_title := t; j_salary := s; j_equity := q;
              j_company_handle := ch |} in
  result (run pg_query (Job.create data) st) = inr (JObj (job_object j))
  /\ issued (run pg_query (Job.create data) st)
     = [(Job.insert_sql, [JStr t; js_of_num s; js_of_str q; JStr ch])]
  /\ jobs (store (run pg_query (Job.create data) st)) = jobs st ++ [j]
  /\ companies (store (run pg_query (Job.create data) st)) = companies st
  /\ result (run pg_query (Job.get (JNum (next_job_id st)))
                 (store (run pg_query (Job.create data) st)))
     = inr (JObj [("id", JNum (next_job_id st)); ("title", JStr t);
                  ("salary", Sql.cell_to_js (Sql.int_cell s));
                  ("equity", Sql.cell_to_js (Sql.num_cell q));
                  ("company", JObj (company_object c))]).
Proof.
  intros Hok Hfresh Hc Hch Hq Ht Hs He Hh j.
  assert (Hrun : run pg_query (Job.create data) st
                 = {| result := inr (JObj (job_object j));
                      store := {| companies := companies st; jobs := jobs st ++ [j];
                                  next_job_id := (next_job_id st + 1)%Z |};
                      issued := [(Job.insert_sql,
                                  [JStr t; js_of_num s; js_of_str q; JStr ch])] |}).
  { unfold run, Job.create. cbn [bind db_query run_from app].
    rewrite Ht, Hs, He, Hh.
    rewrite (pg_job_insert st t ch s q Hok Hfresh Hq); [reflexivity|].
    exists c. split; assumption. }
  rewrite Hrun. cbn [result store issued companies jobs].
  split; [reflexivity|]. split; [reflexivity|]. split; [reflexivity|].
  split; [reflexivity|].
  rewrite (run_job_get (JNum (next_job_id st)) (next_job_id st) _ eq_refl).
  cbn [jobs companies]. rewrite List.filter_app.
  rewrite (filter_none (fun j => bool_decide (j_id j = next_job_id st)) (jobs st))
    by (intros j' Hj'; apply bool_decide_eq_false_2, Hfresh, Hj').
  cbn. rewrite bool_decide_eq_true_2 by reflexivity. cbn.
  assert (Hnd : NoDup (map c_handle (companies st))).
  { unfold Sql.store_ok in Hok. apply andb_prop in Hok. destruct Hok as [Hok _].
    apply andb_prop in Hok. destruct Hok as [Hok _].
    apply bool_decide_eq_true_1 in Hok. exact Hok. }
  rewrite <- Hch. rewrite (filter_unique_handle (companies st) c Hnd Hc). reflexivity.
Qed.

Lemma job_create_then_get_witness :
  let st := sample_store in
  let data := [("title", JStr "New Job"); ("salary", JNum 70000); ("equity", JStr "0.02");
               ("companyHandle", JStr "c1")] in
  let c := {| c_handle := "c1"; c_name := "C1"; c_description := "Desc1";
              c_num_employees := Some 1%Z; c_logo_url := Some "http://c1.img" |} in
  Sql.store_ok st = true
  /\ (forall j, In j (jobs st) -> j_id j <> next_job_id st)
  /\ In c (companies st)
  /\ (forall x, Some "0.02" = Some x -> is_Some (Sql.numeric_value x))
  /\ result (run pg_query (Job.create data) st)
     = inr (JObj [("id", JNum 4); ("title", JStr "New Job"); ("salary", JNum 70000);
                  ("equity", JStr "0.02"); ("companyHandle", JStr "c1")])
  /\ result (run pg_query (Job.get (JNum 4)) (store (run pg_query (Job.create data) st)))
     = inr (JObj [("id", JNum 4); ("title", JStr "New Job"); ("salary", JNum 70000);
                  ("equity", JStr "0.02"); ("company", JObj (company_object c))]).
Proof.
  intros st data c.
  assert (Hok : Sql.store_ok st = true) by (vm_compute; reflexivity).
  assert (Hfresh : forall j, In j (jobs st) -> j_id j <> next_job_id st).
  { intros j' [<-|[<-|[<-|[]]]]; discriminate. }
  assert (Hc : In c (companies st)) by (left; reflexivity).
  assert (Hq : forall x, Some "0.02" = Some x -> is_Some (Sql.numeric_value x)).
  { intros x [= <-]. vm_compute. eauto. }
  destruct (job_create_then_get st data "New Job" "c1" (Some 70000%Z) (Some "0.02") c
              Hok Hfresh Hc eq_refl Hq eq_refl eq_refl eq_refl eq_refl)
    as (Hres & _ & _ & _ & Hget).
  split; [exact Hok|]. split; [exact Hfresh|]. split; [exact Hc|]. split; [exact Hq|].
  split; [exact Hres|exact Hget].
Defined.

(** ** Updating a record that exists *)

Section UpdateExisting.
Context {R : Type} `{Sql.Table R}.

(** A table whose assignments succeed or fail by column and value alone,
    and whose columns read back what was assigned and nothing else. *)
Hypothesis set_any : forall c v r r0,
  is_Some (Sql.set_col c v r0) -> is_Some (Sql.set_col c v r).
Hypothesis get_set_same : forall c v r r',
  Sql.set_col c v r = Some r' -> Sql.get_col r' c = v.
Hypothesis get_set_other : forall c c' v r r',
  Sql.set_col c v r = Some r' -> c' <> c -> Sql.get_col r' c' = Sql.get_col r c'.

Lemma apply_assigns_reads (bas : list (string * Sql.Cell)) (r0 r : R) :
  NoDup (map fst bas) ->
  (forall c v, In (c, v) bas -> is_Some (Sql.set_col c v r0)) ->
  exists r', Sql.apply_assigns bas r = Some r'
             /\ (forall c v, In (c, v) bas -> Sql.get_col r' c = v)
             /\ (forall c, ~ In c (map fst bas) -> Sql.get_col r' c = Sql.get_col r c).
Proof.
  revert r. induction bas as [|[c v] bas IH]; intros r Hnd Hfit.
  - exists r. split; [reflexivity|]. split; [intros c v []|reflexivity].
  - cbn in Hnd. apply NoDup_cons in Hnd. destruct Hnd as [Hc Hnd].
    destruct (set_any c v r r0 (Hfit c v (or_introl eq_refl))) as [r1 Hr1].
    destruct (IH r1 Hnd) as (r' & Hr' & Hin & Hout).
    { intros c' v' Hcv. apply Hfit. right. exact Hcv. }
    exists r'. cbn [Sql.apply_assigns]. rewrite Hr1. cbn [mbind option_bind].
    split; [exact Hr'|]. split.
    + intros c' v' [[= <- <-]|Hcv]; [|apply Hin, Hcv].
      rewrite Hout by (intros Hx; apply Hc, list_elem_of_In, Hx).
      apply (get_set_same _ _ _ _ Hr1).
    + intros c' Hc'. rewrite Hout by (intros Hx; apply Hc'; right; exact Hx).
      apply (get_set_other _ _ _ _ _ Hr1). intros ->. apply Hc'. left. reflexivity.
Qed.

Lemma update_rows_by (bas : list (string * Sql.Cell)) bcs ret (f : R -> R) (tbl : list R) :
  (forall r, In r tbl -> Sql.matches bcs r = true -> Sql.apply_assigns bas r = Some (f r)) ->
  Sql.update_rows bas bcs ret tbl
  = Some (map (fun r => Sql.project ret (f r)) (List.filter (Sql.matches bcs) tbl),
          map (fun r => if Sql.matches bcs r then f r else r) tbl).
Proof.
  induction tbl as [|r tbl IH]; intros Hf; [reflexivity|].
  cbn [Sql.update_rows]. rewrite IH by (intros r' Hr'; apply Hf; right; exact Hr').
  cbn [mbind option_bind fst snd List.filter map].
  destruct (Sql.matches bcs r) eqn:E; [|reflexivity].
  rewrite (Hf r (or_introl eq_refl) E). reflexivity.
Qed.

(** The values bound to the assignments of an accepted field map: one for
    every entry, in order, each the entry's value coerced to its column. *)
Lemma bind_assigns_cells (T : gmap string JsVal) (data : Obj) (k : JsVal) :
  accepted Sql.columns T data = true ->
  exists bas,
    mapM (Sql.bind_assign (map snd data ++ [k]))
         (imap (fun i c => (c, Sql.OParam (i + 1)))
               (map (fun kv => column_of T kv.1) data)) = Some bas
    /\ map fst bas = map (fun kv => column_of T kv.1) data
    /\ (forall c v, In (c, v) bas ->
          exists key x ty, In (key, x) data /\ c = column_of T key
                           /\ Sql.col_type c = Some ty /\ Sql.coerce ty x = Some v)
    /\ (forall key x, In (key, x) data ->
          exists v, In (column_of T key, v) bas).
Proof.
  intros Hacc. destruct (bind_assigns_accepted T data k Hacc) as [bas Hbas].
  exists bas. split; [exact Hbas|].
  apply mapM_Some in Hbas.
  assert (Hat : forall i key x, data !! i = Some (key, x) ->
                  exists ty v, Sql.col_type (column_of T key) = Some ty
                               /\ Sql.coerce ty x = Some v
                               /\ bas !! i = Some (column_of T key, v)).
  { intros i key x Hd.
    assert (Hl : imap (fun i c => (c, Sql.OParam (i + 1)))
                      (map (fun kv => column_of T kv.1) data) !! i
                 = Some (column_of T key, Sql.OParam (i + 1))).
    { rewrite list_lookup_imap.
      change (map (fun kv => column_of T kv.1) data)
        with ((fun kv => column_of T kv.1) <$> data).
      rewrite list_lookup_fmap, Hd. reflexivity. }
    destruct (Forall2_lookup_l _ _ _ _ _ Hbas Hl) as ([c v] & Hb & Hv).
    unfold Sql.bind_assign in Hv. cbn [fst snd Sql.bind_operand] in Hv.
    destruct (Sql.col_type (column_of T key)) as [ty|] eqn:Hty; [|discriminate].
    cbn [mbind option_bind] in Hv.
    rewrite (param_lookup (map snd data) k i x) in Hv.
    2:{ change (map snd data) with (snd <$> data). rewrite list_lookup_fmap, Hd. reflexivity. }
    cbn [mbind option_bind] in Hv.
    destruct (Sql.coerce ty x) as [v'|] eqn:Hco; [|discriminate].
    cbn in Hv. injection Hv as <- <-. exists ty, v'. repeat split; assumption. }
  assert (Hlen : length bas = length data).
  { apply Forall2_length in Hbas. rewrite length_imap, length_map in Hbas.
    symmetry. exact Hbas. }
  split; [|split].
  - apply list_eq. intros i.
    change (map fst bas) with (fst <$> bas).
    change (map (fun kv => column_of T kv.1) data) with ((fun kv => column_of T kv.1) <$> data).
    rewrite !list_lookup_fmap.
    destruct (data !! i) as [[key x]|] eqn:Hd.
    + destruct (Hat i key x Hd) as (ty & v & _ & _ & ->). reflexivity.
    + apply lookup_ge_None in Hd. rewrite <- Hlen in Hd.
      apply lookup_ge_None in Hd. rewrite Hd. reflexivity.
  - intros c v Hin. apply list_elem_of_In, list_elem_of_lookup in Hin.
    destruct Hin as [i Hi].
    destruct (data !! i) as [[key x]|] eqn:Hd.
    + destruct (Hat i key x Hd) as (ty & v' & Hty & Hco & Hb).
      rewrite Hb in Hi. injection Hi as <- <-.
      exists key, x, ty. split; [|repeat split; assumption].
      apply list_elem_of_In, list_elem_of_lookup. exists i. exact Hd.
    + apply lookup_ge_None in Hd. rewrite <- Hlen in Hd.
      apply lookup_ge_None in Hd. rewrite Hd in Hi. discriminate.
  - intros key x Hin. apply list_elem_of_In, list_elem_of_lookup in Hin.
    destruct Hin as [i Hd].
    destruct (Hat i key x Hd) as (ty & v & _ & _ & Hb).
    exists v. apply list_elem_of_In, list_elem_of_lookup. exists i. exact Hb.
Qed.

(** An accepted UPDATE by key, on a table where every value goes into its
    column: the rows with the key are returned as updated, and they take the
    place of the old ones. *)
Lemma update_by (key : string) (kty : Sql.ColType) (kcell : Sql.Cell) (kv : JsVal)
      (T : gmap string JsVal) (data : Obj) (ret : list Sql.Item) (r0 : R) (tbl : list R) :
  Sql.col_type key = Some kty ->
  Sql.coerce kty kv = Some kcell ->
  accepted Sql.columns T data = true ->
  Sql.items_ok ret = true ->
  (forall k x ty v, In (k, x) data -> Sql.col_type (column_of T k) = Some ty ->
                    Sql.coerce ty x = Some v ->
                    is_Some (Sql.set_col (column_of T k) v r0)) ->
  exists f : R -> R,
    Sql.update (imap (fun i c => (c, Sql.OParam (i + 1)))
                     (map (fun kv => column_of T kv.1) data))
               [key_cond key (length (map (fun kv => column_of T kv.1) data) + 1)]
               ret (map snd data ++ [kv]) tbl
    = Some (map (fun r => Sql.project ret (f r))
                (List.filter (Sql.matches [(key, Sql.OpEq, kcell)]) tbl),
            map (fun r => if Sql.matches [(key, Sql.OpEq, kcell)] r then f r else r) tbl)
    /\ (forall r k x, In (k, x) data ->
          exists ty, Sql.col_type (column_of T k) = Some ty
                     /\ Sql.coerce ty x = Some (Sql.get_col (f r) (column_of T k)))
    /\ (forall r c, ~ In c (map (fun kv => column_of T kv.1) data) ->
          Sql.get_col (f r) c = Sql.get_col r c).
Proof.
  intros Hty Hco Hacc Hret Hfit.
  destruct (bind_assigns_cells T data kv Hacc) as (bas & Hbas & Hfst & Hfrom & Hto).
  assert (Hnd : NoDup (map fst bas)).
  { rewrite Hfst. apply andb_prop in Hacc. destruct Hacc as [_ Hnd].
    apply bool_decide_eq_true_1 in Hnd. exact Hnd. }
  assert (Hset : forall c v, In (c, v) bas -> is_Some (Sql.set_col c v r0)).
  { intros c v Hin. destruct (Hfrom c v Hin) as (k & x & ty & Hd & -> & Hcty & Hcx).
    exact (Hfit k x ty v Hd Hcty Hcx). }
  exists (fun r => match Sql.apply_assigns bas r with Some r' => r' | None => r end).
  split; [|split].
  - unfold Sql.update. rewrite Hbas. cbn [mbind option_bind].
    assert (Hcond : mapM (Sql.bind_cond (map snd data ++ [kv]))
                         [key_cond key (length (map (fun kv => column_of T kv.1) data) + 1)]
                    = Some [(key, Sql.OpEq, kcell)]).
    { cbn [mapM]. unfold Sql.bind_cond, key_cond.
      cbn [Sql.cond_col Sql.cond_op Sql.cond_arg Sql.bind_operand].
      rewrite Hty. cbn [mbind option_bind].
      replace (Sql.op_ok kty Sql.OpEq) with true by (destruct kty; reflexivity).
      rewrite length_map. rewrite <- (length_map snd data).
      rewrite param_last. cbn. rewrite Hco. reflexivity. }
    rewrite Hcond. cbn [mbind option_bind].
    assert (Hf : map fst (imap (fun i c => (c, Sql.OParam (i + 1)))
                               (map (fun kv => column_of T kv.1) data))
                 = map (fun kv => column_of T kv.1) data).
    { change (map fst ?l) with (fst <$> l). rewrite fmap_imap.
      unfold compose. cbn [fst].
      rewrite (imap_const (fun c : string => c)). apply list_fmap_id. }
    rewrite Hf. rewrite <- Hfst. rewrite (bool_decide_eq_true_2 _ Hnd), Hret.
    cbn [andb]. apply update_rows_by. intros r _ _.
    destruct (apply_assigns_reads bas r0 r Hnd Hset) as (r' & -> & _). reflexivity.
  - intros r k x Hin. destruct (Hto k x Hin) as [v Hv].
    destruct (Hfrom _ _ Hv) as (k' & x' & ty & Hd' & Hcol & Hcty & Hcx).
    destruct (apply_assigns_reads bas r0 r Hnd Hset) as (r' & Hr' & Hread & _).
    cbn beta. rewrite Hr'. rewrite (Hread _ _ Hv).
    (* the entry with this column is the one at hand: the columns are distinct *)
    assert (x' = x) as ->.
    { apply andb_prop in Hacc. destruct Hacc as [_ Hndd].
      apply bool_decide_eq_true_1 in Hndd.
      apply list_elem_of_In, list_elem_of_lookup in Hin. destruct Hin as [i Hi].
      apply list_elem_of_In, list_elem_of_lookup in Hd'. destruct Hd' as [i' Hi'].
      assert (i = i').
      { apply (NoDup_lookup _ i i' (column_of T k) Hndd).
        - change (map (fun kv => column_of T kv.1) data)
            with ((fun kv => column_of T kv.1) <$> data).
          rewrite list_lookup_fmap, Hi. reflexivity.
        - change (map (fun kv => column_of T kv.1) data)
            with ((fun kv => column_of T kv.1) <$> data).
          rewrite list_lookup_fmap, Hi'. cbn. rewrite Hcol. reflexivity. }
      subst i'. congruence. }
    exists ty. split; assumption.
  - intros r c Hc.
    destruct (apply_assigns_reads bas r0 r Hnd Hset) as (r' & Hr' & _ & Hkeep).
    cbn beta. rewrite Hr'. apply Hkeep. rewrite Hfst. exact Hc.
Qed.
End UpdateExisting.

Lemma coerce_cases (ty : Sql.ColType) (x : JsVal) (v : Sql.Cell) :
  Sql.coerce ty x = Some v ->
  (v = Sql.CNull /\ (x = JNull \/ x = JUndefined))
  \/ match ty with
     | Sql.TText => exists s, v = Sql.CText s
     | Sql.TInt => exists z, v = Sql.CInt z
     | Sql.TNumeric => exists s, v = Sql.CNum s
     end.
Proof.
  destruct x as [| |b|z|s|o|f]; cbn.
  - intros [= <-]. left. split; [reflexivity|right; reflexivity].
  - intros [= <-]. left. split; [reflexivity|left; reflexivity].
  - destruct ty; [intros [= <-]; right; eauto|discriminate|discriminate].
  - destruct ty; intros [= <-]; right; eauto.
  - destruct ty.
    + intros [= <-]. right. eauto.
    + destruct (Sql.int_of_string s); cbn; [intros [= <-]; right; eauto|discriminate].
    + destruct (Sql.numeric_value s); [intros [= <-]; right; eauto|discriminate].
  - discriminate.
  - discriminate.
Qed.

Lemma company_set_any (c : string) (v : Sql.Cell) (r r0 : CompanyRow) :
  is_Some (Sql.company_set c v r0) -> is_Some (Sql.company_set c v r).
Proof.
  destruct r, r0. unfold Sql.company_set.
  repeat (match goal with |- context [String.eqb c ?s] => destruct (String.eqb c s) end);
    destruct v; intros [x Hx]; try discriminate; eauto.
Qed.

Lemma company_get_set_same (c : string) (v : Sql.Cell) (r r' : CompanyRow) :
  Sql.company_set c v r = Some r' -> Sql.company_get r' c = v.
Proof.
  destruct r. unfold Sql.company_set, Sql.company_get.
  repeat (match goal with
          | |- context [String.eqb c ?s] => destruct (String.eqb c s) eqn:?
          end);
    destruct v; intros [= <-]; reflexivity.
Qed.

Lemma company_get_set_other (c c' : string) (v : Sql.Cell) (r r' : CompanyRow) :
  Sql.company_set c v r = Some r' -> c' <> c ->
  Sql.company_get r' c' = Sql.company_get r c'.
Proof.
  destruct r. unfold Sql.company_set, Sql.company_get. intros Hset Hne.
  repeat (match type of Hset with
          | context [String.eqb c ?s] => destruct (String.eqb_spec c s)
          end);
    try discriminate; subst c;
    destruct v; try discriminate; injection Hset as <-;
    repeat (match goal with
            | |- context [String.eqb c' ?s] => destruct (String.eqb_spec c' s)
            end);
    try reflexivity; congruence.
Qed.

Lemma job_set_any (c : string) (v : Sql.Cell) (r r0 : JobRow) :
  is_Some (Sql.job_set c v r0) -> is_Some (Sql.job_set c v r).
Proof.
  destruct r, r0. unfold Sql.job_set.
  repeat (match goal with |- context [String.eqb c ?s] => destruct (String.eqb c s) end);
    destruct v; intros [x Hx]; try discriminate; eauto.
Qed.

Lemma job_get_set_same (c : string) (v : Sql.Cell) (r r' : JobRow) :
  Sql.job_set c v r = Some r' -> Sql.job_get r' c = v.
Proof.
  destruct r. unfold Sql.job_set, Sql.job_get.
  repeat (match goal with
          | |- context [String.eqb c ?s] => destruct (String.eqb c s) eqn:?
          end);
    destruct v; intros [= <-]; reflexivity.
Qed.

Lemma job_get_set_other (c c' : string) (v : Sql.Cell) (r r' : JobRow) :
  Sql.job_set c v r = Some r' -> c' <> c ->
  Sql.job_get r' c' = Sql.job_get r c'.
Proof.
  destruct r. unfold Sql.job_set, Sql.job_get. intros Hset Hne.
  repeat (match type of Hset with
          | context [String.eqb c ?s] => destruct (String.eqb_spec c s)
          end);
    try discriminate; subst c;
    destruct v; try discriminate; injection Hset as <-;
    repeat (match goal with
            | |- context [String.eqb c' ?s] => destruct (String.eqb_spec c' s)
            end);
    try reflexivity; congruence.
Qed.

Lemma find_handle_is_Some (h : string) (l1 l2 : list CompanyRow) :
  map c_handle l1 = map c_handle l2 ->
  is_Some (List.find (fun c => String.eqb (c_handle c) h) l1)
  <-> is_Some (List.find (fun c => String.eqb (c_handle c) h) l2).
Proof.
  revert l2. induction l1 as [|x l1 IH]; intros [|y l2] Heq; try discriminate.
  - reflexivity.
  - cbn in Heq. injection Heq as Hxy Heq. cbn. rewrite Hxy.
    destruct (String.eqb (c_handle y) h); [split; eauto|apply IH, Heq].
Qed.

Lemma forallb_pointwise {A} (f g : A -> bool) (l : list A) :
  (forall x, f x = g x) -> forallb f l = forallb g l.
Proof. intros Hfg. induction l as [|x l IH]; [reflexivity|]. cbn. rewrite Hfg, IH. reflexivity. Qed.

Lemma forallb_of_map {A B} (p : B -> bool) (f : A -> B) (l : list A) :
  forallb p (map f l) = forallb (fun x => p (f x)) l.
Proof. induction l as [|x l IH]; [reflexivity|]. cbn. rewrite IH. reflexivity. Qed.

(** An update that keeps the handles of the companies keeps the
    constraints. *)
Lemma store_ok_same_handles (st : Store) (cs : list CompanyRow) :
  map c_handle cs = map c_handle (companies st) ->
  Sql.store_ok (Sql.with_companies st cs) = Sql.store_ok st.
Proof.
  intros Heq. unfold Sql.store_ok. cbn [Sql.with_companies companies jobs].
  rewrite Heq. f_equal. apply forallb_pointwise. intros j.
  apply bool_decide_ext. unfold Sql.company_of. cbn [companies].
  apply find_handle_is_Some, Heq.
Qed.

(** An update that keeps the ids and the company handles of the jobs keeps
    the constraints. *)
Lemma store_ok_same_job_keys (st : Store) (f : JobRow -> JobRow) :
  (forall j, j_id (f j) = j_id j /\ j_company_handle (f j) = j_company_handle j) ->
  Sql.store_ok (Sql.with_jobs st (map f (jobs st))) = Sql.store_ok st.
Proof.
  intros Hf. unfold Sql.store_ok. cbn [Sql.with_jobs companies jobs].
  rewrite map_map. rewrite (map_ext (fun j => j_id (f j)) j_id) by (intros j; apply Hf).
  f_equal. rewrite forallb_of_map. apply forallb_pointwise. intros j.
  unfold Sql.company_of. cbn [companies]. rewrite (proj2 (Hf j)). reflexivity.
Qed.

Lemma unique_handle (cs : list CompanyRow) (c r : CompanyRow) :
  NoDup (map c_handle cs) -> In c cs -> In r cs -> c_handle r = c_handle c -> r = c.
Proof.
  intros Hnd Hc Hr Heq.
  assert (Hin : In r (List.filter (fun c' => bool_decide (c_handle c' = c_handle c)) cs)).
  { apply filter_In. split; [exact Hr|apply bool_decide_eq_true_2, Heq]. }
  rewrite (filter_unique_handle cs c Hnd Hc) in Hin. destruct Hin as [<-|[]]. reflexivity.
Qed.

Lemma filter_unique_id (js : list JobRow) (j : JobRow) :
  NoDup (map j_id js) -> In j js ->
  List.filter (fun j' => bool_decide (j_id j' = j_id j)) js = [j].
Proof.
  induction js as [|x js IH]; intros Hnd Hin; [destruct Hin|].
  cbn in Hnd. apply NoDup_cons in Hnd. destruct Hnd as [Hx Hnd]. cbn.
  destruct Hin as [->|Hin].
  - rewrite bool_decide_eq_true_2 by reflexivity. f_equal.
    apply filter_none. intros y Hy. apply bool_decide_eq_false_2. intros Heq.
    apply Hx. rewrite <- Heq. apply list_elem_of_In, in_map, Hy.
  - rewrite bool_decide_eq_false_2; [apply IH; assumption|].
    intros Heq. apply Hx. rewrite Heq. apply list_elem_of_In, in_map, Hin.
Qed.

Lemma unique_id (js : list JobRow) (j r : JobRow) :
  NoDup (map j_id js) -> In j js -> In r js -> j_id r = j_id j -> r = j.
Proof.
  intros Hnd Hj Hr Heq.
  assert (Hin : In r (List.filter (fun j' => bool_decide (j_id j' = j_id j)) js)).
  { apply filter_In. split; [exact Hr|apply bool_decide_eq_true_2, Heq]. }
  rewrite (filter_unique_id js j Hnd Hj) in Hin. destruct Hin as [<-|[]]. reflexivity.
Qed.

Lemma company_column_cases (c : string) (ty : Sql.ColType) :
  Sql.assoc c Sql.company_columns = Some ty ->
  (c = "handle" /\ ty = Sql.TText) \/ (c = "name" /\ ty = Sql.TText)
  \/ (c = "description" /\ ty = Sql.TText) \/ (c = "num_employees" /\ ty = Sql.TInt)
  \/ (c = "logo_url" /\ ty = Sql.TText).
Proof.
  unfold Sql.company_columns. cbn [Sql.assoc fst snd].
  repeat (match goal with
          | |- context [String.eqb ?a ?s] => destruct (String.eqb_spec a s)
          end); try discriminate; intros [= <-]; subst; tauto.
Qed.

Lemma job_column_cases (c : string) (ty : Sql.ColType) :
  Sql.assoc c Sql.job_columns = Some ty ->
  (c = "id" /\ ty = Sql.TInt) \/ (c = "title" /\ ty = Sql.TText)
  \/ (c = "salary" /\ ty = Sql.TInt) \/ (c = "equity" /\ ty = Sql.TNumeric)
  \/ (c = "company_handle" /\ ty = Sql.TText).
Proof.
  unfold Sql.job_columns. cbn [Sql.assoc fst snd].
  repeat (match goal with
          | |- context [String.eqb ?a ?s] => destruct (String.eqb_spec a s)
          end); try discriminate; intros [= <-]; subst; tauto.
Qed.

(** The UPDATE of [Company.update] on the handle of a company, with a field
    map that the store accepts, that leaves the handle alone and gives no
    null for the name or the description. *)
Lemma pg_company_update (k : JsVal) (h : string) (data : Obj) (st : Store) (c : CompanyRow) :
  Sql.store_ok st = true ->
  Sql.coerce Sql.TText k = Some (Sql.CText h) ->
  In c (companies st) ->
  c_handle c = h ->
  data <> [] ->
  accepted Sql.company_columns Company.jsToSql data = true ->
  (forall key x, In (key, x) data -> column_of Company.jsToSql key <> "handle") ->
  (forall key x, In (key, x) data ->
     In (column_of Company.jsToSql key) ["name"; "description"] ->
     x <> JNull /\ x <> JUndefined) ->
  exists c',
    pg_query (Company.update_sql
                (join ", " (imap (assignment Company.jsToSql) (Object_keys data)))
                ("$" +:+ dec (length (Object_values data) + 1)))
             (Object_values data ++ [k]) st
    = inr ([company_object c'],
           Sql.with_companies st
             (map (fun r => if bool_decide (c_handle r = h) then c' else r) (companies st)))
    /\ c_handle c' = h
    /\ (forall key x, In (key, x) data ->
          exists ty, Sql.assoc (column_of Company.jsToSql key) Sql.company_columns = Some ty
                     /\ Sql.coerce ty x
                        = Some (Sql.company_get c' (column_of Company.jsToSql key)))
    /\ (forall col, ~ In col (map (fun kv => column_of Company.jsToSql kv.1) data) ->
          Sql.company_get c' col = Sql.company_get c col).
Proof.
  intros Hok Hk Hc Hch Hne Hacc Hkey Hnn.
  assert (Hfit : forall key x ty v,
             In (key, x) data ->
             Sql.col_type (R := CompanyRow) (column_of Company.jsToSql key) = Some ty ->
             Sql.coerce ty x = Some v ->
             is_Some (Sql.set_col (column_of Company.jsToSql key) v c)).
  { intros key x ty v Hin Hty Hco. cbn [Sql.set_col Sql.company_table].
    pose proof (Hkey key x Hin) as Hk1. pose proof (Hnn key x Hin) as Hn1.
    destruct (company_column_cases _ _ Hty) as [[E ->]|[[E ->]|[[E ->]|[[E ->]|[E ->]]]]];
      [congruence| | | |]; rewrite E in *; destruct c;
      destruct (coerce_cases _ _ _ Hco) as [[-> Hx]|[s ->]]; cbn; eauto.
    - exfalso. destruct Hn1 as [H1 H2]; [left; reflexivity|]. destruct Hx; congruence.
    - exfalso. destruct Hn1 as [H1 H2]; [right; left; reflexivity|]. destruct Hx; congruence. }
  destruct (@update_by CompanyRow Sql.company_relation Sql.company_table
                       company_set_any company_get_set_same
                       company_get_set_other "handle" Sql.TText (Sql.CText h) k
                      Company.jsToSql data company_items c (companies st)
                      eq_refl Hk Hacc company_items_ok Hfit)
    as (f & Hup & Hread & Hkeep).
  assert (Hnd : NoDup (map c_handle (companies st))).
  { unfold Sql.store_ok in Hok. apply andb_prop in Hok. destruct Hok as [Hok _].
    apply andb_prop in Hok. destruct Hok as [Hok _].
    apply bool_decide_eq_true_1 in Hok. exact Hok. }
  assert (Hnot : ~ In "handle" (map (fun kv => column_of Company.jsToSql kv.1) data)).
  { intros Hin. apply in_map_iff in Hin. destruct Hin as ([key x] & Heq & Hin).
    exact (Hkey key x Hin Heq). }
  assert (Hh : forall r, c_handle (f r) = c_handle r).
  { intros r. pose proof (Hkeep r "handle" Hnot) as E. cbn in E. congruence. }
  exists (f c). split; [|split; [|split]].
  - unfold pg_query.
    rewrite set_clause_of_keys. unfold Object_keys, Object_values.
    rewrite map_map.
    replace (length (map snd data))
      with (length (map (fun kv => column_of Company.jsToSql kv.1) data))
      by (rewrite !length_map; reflexivity).
    destruct (accepted_columns _ _ _ Hacc) as [Hndc Hin].
    assert (Hp : company_update_parses (map (fun kv => column_of Company.jsToSql kv.1) data)
                 = true).
    { apply (parses_of_all company_update_parses (map fst Sql.company_columns)).
      - exact company_update_parses_all.
      - destruct data; [congruence|discriminate].
      - exact Hndc.
      - exact Hin. }
    apply bool_decide_eq_true_1 in Hp. rewrite Hp.
    unfold update_stmt. cbn [Sql.exec String.eqb Ascii.eqb Bool.eqb].
    rewrite Hup. cbn [mbind option_bind fst snd].
    rewrite filter_company_key.
    pose proof (filter_unique_handle (companies st) c Hnd Hc) as Hone.
    rewrite Hch in Hone. rewrite Hone.
    assert (Hmap : map (fun r => if Sql.matches [("handle", Sql.OpEq, Sql.CText h)] r
                                 then f r else r) (companies st)
                   = map (fun r => if bool_decide (c_handle r = h) then f c else r)
                         (companies st)).
    { apply map_ext_in. intros r Hr. rewrite company_key_matches.
      destruct (bool_decide (c_handle r = h)) eqn:E; [|reflexivity].
      apply bool_decide_eq_true_1 in E.
      rewrite (unique_handle (companies st) c r Hnd Hc Hr) by congruence. reflexivity. }
    rewrite Hmap. cbn [map Sql.checked].
    rewrite store_ok_same_handles, Hok; [reflexivity|].
    rewrite map_map. apply map_ext_in. intros r Hr.
    destruct (bool_decide (c_handle r = h)) eqn:E; [|reflexivity].
    apply bool_decide_eq_true_1 in E. rewrite Hh. congruence.
  - rewrite Hh. exact Hch.
  - intros key x Hin. exact (Hread c key x Hin).
  - intros col Hcol. exact (Hkeep c col Hcol).
Qed.

(** X10.  [Company.update] on the handle of a company, with a non-empty field map
    that the store accepts, that leaves the handle alone and gives no null
    for the name or the description: the call returns the company as it is
    afterwards.  It keeps the handle, every column assigned holds the value
    supplied for it, as the column's type reads it, and every other column
    holds what it held.  The company takes the place of the old one, no
    other company and no job changes, and [Company.get] on the handle
    returns the same company afterwards. *)
Theorem company_update_then_get
        (st : Store) (k : JsVal) (h : string) (data : Obj) (c : CompanyRow) :
  Sql.store_ok st = true ->
  Sql.coerce Sql.TText k = Some (Sql.CText h) ->
  In c (companies st) ->
  c_handle c = h ->
  data <> [] ->
  accepted Sql.company_columns Company.jsToSql data = true ->
  (forall key x, In (key, x) data -> column_of Company.jsToSql key <> "handle") ->
  (forall key x, In (key, x) data ->
     In (column_of Company.jsToSql key) ["name"; "description"] ->
     x <> JNull /\ x <> JUndefined) ->
  exists c',
    result (run pg_query (Company.update k data) st) = inr (JObj (company_object c'))
    /\ c_handle c' = h
    /\ (forall key x, In (key, x) data ->
          exists ty, Sql.assoc (column_of Company.jsToSql key) Sql.company_columns = Some ty
                     /\ Sql.coerce ty x
                        = Some (Sql.company_get c' (column_of Company.jsToSql key)))
    /\ (forall col, ~ In col (map (fun kv => column_of Company.jsToSql kv.1) data) ->
          Sql.company_get c' col = Sql.company_get c col)
    /\ companies (store (run pg_query (Company.update k data) st))
       = map (fun r => if bool_decide (c_handle r = h) then c' else r) (companies st)
    /\ jobs (store (run pg_query (Company.update k data) st)) = jobs st
    /\ result (run pg_query (Company.get k)
                   (store (run pg_query (Company.update k data) st)))
       = inr (JObj (company_object c')).
Proof.
  intros Hok Hk Hc Hch Hne Hacc Hkey Hnn.
  destruct (pg_company_update k h data st c Hok Hk Hc Hch Hne Hacc Hkey Hnn)
    as (c' & Hq & Hh' & Hread & Hkeep).
  exists c'. rewrite (run_company_update pg_query st k data Hne), Hq.
  cbn [result store row0 truthy negb Sql.with_companies companies jobs].
  split; [reflexivity|]. split; [exact Hh'|]. split; [exact Hread|].
  split; [exact Hkeep|]. split; [reflexivity|]. split; [reflexivity|].
  rewrite (run_company_get k h _ Hk). cbn [Sql.with_companies companies].
  assert (Hnd : NoDup (map c_handle (companies st))).
  { unfold Sql.store_ok in Hok. apply andb_prop in Hok. destruct Hok as [Hok _].
    apply andb_prop in Hok. destruct Hok as [Hok _].
    apply bool_decide_eq_true_1 in Hok. exact Hok. }
  assert (Hsame : map c_handle (map (fun r => if bool_decide (c_handle r = h) then c' else r)
                                    (companies st))
                  = map c_handle (companies st)).
  { rewrite map_map. apply map_ext. intros r.
    destruct (bool_decide (c_handle r = h)) eqn:E; [|reflexivity].
    apply bool_decide_eq_true_1 in E. congruence. }
  assert (Hin : In c' (map (fun r => if bool_decide (c_handle r = h) then c' else r)
                           (companies st))).
  { apply in_map_iff. exists c. split; [|exact Hc].
    rewrite bool_decide_eq_true_2 by exact Hch. reflexivity. }
  rewrite <- Hsame in Hnd.
  pose proof (filter_unique_handle _ c' Hnd Hin) as Hone. rewrite Hh' in Hone.
  rewrite Hone. reflexivity.
Qed.

Lemma company_update_then_get_witness :
  let data := [("name", JStr "New"); ("numEmployees", JNum 10); ("logoUrl", JNull)] in
  let c' := {| c_handle := "c1"; c_name := "New"; c_description := "Desc1";
               c_num_employees := Some 10%Z; c_logo_url := None |} in
  Sql.store_ok sample_store = true
  /\ accepted Sql.company_columns Company.jsToSql data = true
  /\ result (run pg_query (Company.update (JStr "c1") data) sample_store)
     = inr (JObj (company_object c'))
  /\ result (run pg_query (Company.get (JStr "c1"))
                 (store (run pg_query (Company.update (JStr "c1") data) sample_store)))
     = inr (JObj (company_object c')).
Proof.
  intros data c'.
  assert (Hok : Sql.store_ok sample_store = true) by (vm_compute; reflexivity).
  assert (Hacc : accepted Sql.company_columns Company.jsToSql data = true)
    by (vm_compute; reflexivity).
  assert (Hkey : forall key x, In (key, x) data -> column_of Company.jsToSql key <> "handle").
  { intros key x [[= <- <-]|[[= <- <-]|[[= <- <-]|[]]]]; vm_compute; discriminate. }
  assert (Hnn : forall key x, In (key, x) data ->
                  In (column_of Company.jsToSql key) ["name"; "description"] ->
                  x <> JNull /\ x <> JUndefined).
  { intros key x [[= <- <-]|[[= <- <-]|[[= <- <-]|[]]]] Hcol.
    - split; discriminate.
    - split; discriminate.
    - exfalso. vm_compute in Hcol. destruct Hcol as [Hcol|[Hcol|[]]]; discriminate. }
  destruct (company_update_then_get
              sample_store (JStr "c1") "c1" data
              {| c_handle := "c1"; c_name := "C1"; c_description := "Desc1";
                 c_num_employees := Some 1%Z; c_logo_url := Some "http://c1.img" |}
              Hok eq_refl (or_introl eq_refl) eq_refl ltac:(discriminate) Hacc Hkey Hnn)
    as (c2 & Hres & _ & _ & _ & _ & _ & Hget).
  split; [exact Hok|]. split; [exact Hacc|].
  assert (Hc2 : company_object c2 = company_object c').
  { assert (E : result (run pg_query (Company.update (JStr "c1") data) sample_store)
                = inr (JObj (company_object c'))) by (vm_compute; reflexivity).
    rewrite Hres in E. congruence. }
  rewrite <- Hc2. split; [exact Hres|exact Hget].
Defined.

(** A name is either not inherited or one of the members. *)
Lemma inherited_cases (k : string) :
  prop Object_prototype k = JUndefined
  \/ In (k, prop Object_prototype k) Object_prototype.
Proof.
  unfold Object_prototype. cbn [prop].
  repeat (match goal with
          | |- context [String.eqb ?a k] => destruct (String.eqb_spec a k) as [<-|_]
          end; [right; cbn; tauto|]).
  left. reflexivity.
Qed.

(** A key of the jobs' table is written as it is: the table of [Job.update]
    is empty, and no column has the text of an inherited member. *)
Lemma job_column_of_column (k : string) (ty : Sql.ColType) :
  Sql.assoc (column_of ∅ k) Sql.job_columns = Some ty -> column_of ∅ k = k.
Proof.
  intros Hty. destruct (inherited_cases k) as [Hu|Hin]; [apply job_column_of, Hu|].
  exfalso. rewrite column_of_lookup, lookup_empty in Hty.
  assert (Hall : forallb (fun km : string * JsVal =>
                            truthy km.2
                            && negb (bool_decide
                                       (is_Some (Sql.assoc (js_string km.2) Sql.job_columns))))
                         Object_prototype = true) by (vm_compute; reflexivity).
  pose proof (proj1 (forallb_forall _ _) Hall _ Hin) as Hm. cbn [snd] in Hm.
  apply andb_prop in Hm. destruct Hm as [Ht Hno].
  rewrite Ht in Hty. apply negb_true_iff, bool_decide_eq_false_1 in Hno.
  apply Hno. rewrite Hty. eauto.
Qed.

Lemma job_columns_of_accepted (data : Obj) :
  accepted Sql.job_columns ∅ data = true ->
  forall key x, In (key, x) data -> column_of ∅ key = key.
Proof.
  intros Hacc key x Hin. apply andb_prop in Hacc. destruct Hacc as [Hall _].
  pose proof (proj1 (forallb_forall _ _) Hall _ Hin) as Hkv. cbn [fst snd] in Hkv.
  destruct (Sql.assoc (column_of ∅ key) Sql.job_columns) as [ty|] eqn:E; [|discriminate].
  exact (job_column_of_column key ty E).
Qed.

(** The UPDATE of [Job.update] on the id of a job, with a field map that the
    store accepts, that leaves the id and the company alone and gives no
    null for the title. *)
Lemma pg_job_update (k : JsVal) (id : Z) (data : Obj) (st : Store) (j : JobRow) :
  Sql.store_ok st = true ->
  Sql.coerce Sql.TInt k = Some (Sql.CInt id) ->
  In j (jobs st) ->
  j_id j = id ->
  data <> [] ->
  accepted Sql.job_columns ∅ data = true ->
  (forall key x, In (key, x) data -> key <> "id" /\ key <> "company_handle") ->
  (forall x, In ("title", x) data -> x <> JNull /\ x <> JUndefined) ->
  exists j',
    pg_query (Job.update_sql
                (join ", " (imap (assignment ∅) (Object_keys data)))
                ("$" +:+ dec (length (Object_values data) + 1)))
             (Object_values data ++ [k]) st
    = inr ([job_object j'],
           Sql.with_jobs st
             (map (fun r => if bool_decide (j_id r = id) then j' else r) (jobs st)))
    /\ j_id j' = id
    /\ j_company_handle j' = j_company_handle j
    /\ (forall key x, In (key, x) data ->
          exists ty, Sql.assoc key Sql.job_columns = Some ty
                     /\ Sql.coerce ty x = Some (Sql.job_get j' key))
    /\ (forall col, ~ In col (Object_keys data) -> Sql.job_get j' col = Sql.job_get j col).
Proof.
  intros Hok Hk Hj Hji Hne Hacc Hkey Hnn.
  assert (Hcols : map (fun kv : string * JsVal => column_of ∅ kv.1) data = Object_keys data).
  { unfold Object_keys. apply map_ext_in. intros [key x] Hin.
    exact (job_columns_of_accepted data Hacc key x Hin). }
  assert (Hfit : forall key x ty v,
             In (key, x) data ->
             Sql.col_type (R := JobRow) (column_of ∅ key) = Some ty ->
             Sql.coerce ty x = Some v ->
             is_Some (Sql.set_col (column_of ∅ key) v j)).
  { intros key x ty v Hin Hty Hco. cbn [Sql.set_col Sql.job_table].
    rewrite (job_columns_of_accepted data Hacc key x Hin) in *.
    pose proof (Hkey key x Hin) as [Hk1 Hk2].
    destruct (job_column_cases _ _ Hty) as [[E ->]|[[E ->]|[[E ->]|[[E ->]|[E ->]]]]];
      [congruence| | | |congruence]; rewrite E in *; destruct j;
      destruct (coerce_cases _ _ _ Hco) as [[-> Hx]|[s ->]]; cbn; eauto.
    exfalso. destruct (Hnn x Hin) as [H1 H2]. destruct Hx; congruence. }
  destruct (@update_by JobRow Sql.job_relation Sql.job_table
                       job_set_any job_get_set_same job_get_set_other
                       "id" Sql.TInt (Sql.CInt id) k ∅ data job_items j (jobs st)
                       eq_refl Hk Hacc job_items_ok Hfit)
    as (f & Hup & Hread & Hkeep).
  assert (Hnd : NoDup (map j_id (jobs st))).
  { unfold Sql.store_ok in Hok. apply andb_prop in Hok. destruct Hok as [Hok _].
    apply andb_prop in Hok. destruct Hok as [_ Hok].
    apply bool_decide_eq_true_1 in Hok. exact Hok. }
  assert (Hnot : forall col, In col ["id"; "company_handle"] ->
                   ~ In col (map (fun kv : string * JsVal => column_of ∅ kv.1) data)).
  { intros col Hcol Hin. rewrite Hcols in Hin. unfold Object_keys in Hin.
    apply in_map_iff in Hin. destruct Hin as ([key x] & Heq & Hin).
    destruct (Hkey key x Hin) as [H1 H2]. cbn in Heq. subst col.
    destruct Hcol as [E|[E|[]]]; congruence. }
  assert (Hsame : forall r, j_id (f r) = j_id r
                            /\ j_company_handle (f r) = j_company_handle r).
  { intros r. split.
    - pose proof (Hkeep r "id" (Hnot _ (or_introl eq_refl))) as E. cbn in E. congruence.
    - pose proof (Hkeep r "company_handle" (Hnot _ (or_intror (or_introl eq_refl)))) as E.
      cbn in E. congruence. }
  exists (f j). split; [|split; [|split; [|split]]].
  - unfold pg_query.
    rewrite set_clause_of_keys. unfold Object_keys, Object_values.
    rewrite map_map.
    replace (length (map snd data))
      with (length (map (fun kv => column_of ∅ kv.1) data))
      by (rewrite !length_map; reflexivity).
    destruct (accepted_columns _ _ _ Hacc) as [Hndc Hin].
    assert (Hp : job_update_parses (map (fun kv => column_of ∅ kv.1) data) = true).
    { apply (parses_of_all job_update_parses (map fst Sql.job_columns)).
      - exact job_update_parses_all.
      - destruct data; [congruence|discriminate].
      - exact Hndc.
      - exact Hin. }
    apply bool_decide_eq_true_1 in Hp. rewrite Hp.
    unfold update_stmt. cbn [Sql.exec String.eqb Ascii.eqb Bool.eqb].
    rewrite Hup. cbn [mbind option_bind fst snd].
    rewrite filter_job_key.
    pose proof (filter_unique_id (jobs st) j Hnd Hj) as Hone.
    rewrite Hji in Hone. rewrite Hone.
    assert (Hmap : map (fun r => if Sql.matches [("id", Sql.OpEq, Sql.CInt id)] r
                                 then f r else r) (jobs st)
                   = map (fun r => if bool_decide (j_id r = id) then f j else r) (jobs st)).
    { apply map_ext_in. intros r Hr. rewrite job_key_matches.
      destruct (bool_decide (j_id r = id)) eqn:E; [|reflexivity].
      apply bool_decide_eq_true_1 in E.
      rewrite (unique_id (jobs st) j r Hnd Hj Hr) by congruence. reflexivity. }
    rewrite <- Hmap. cbn [map Sql.checked].
    rewrite (store_ok_same_job_keys st
               (fun r => if Sql.matches [("id", Sql.OpEq, Sql.CInt id)] r then f r else r)).
    + rewrite Hok. reflexivity.
    + intros r. destruct (Sql.matches _ r); [apply Hsame|split; reflexivity].
  - rewrite (proj1 (Hsame j)). exact Hji.
  - apply Hsame.
  - intros key x Hin. destruct (Hread j key x Hin) as (ty & Hty & Hco).
    rewrite (job_columns_of_accepted data Hacc key x Hin) in Hty, Hco.
    exists ty. split; assumption.
  - intros col Hcol. apply Hkeep. rewrite Hcols. exact Hcol.
Qed.

(** X11.  [Job.update] on the id of a job, with a non-empty field map that the
    store accepts, that leaves the id and the company alone and gives no
    null for the title: the call returns the job as it is afterwards.  It
    keeps the id and the company, every column assigned holds the value
    supplied for it, as the column's type reads it, and every other column
    holds what it held.  The job takes the place of the old one, no other
    job and no company changes, and [Job.get] on the id afterwards returns
    the same job, its handle replaced by the company. *)
Theorem job_update_then_get
        (st : Store) (k : JsVal) (id : Z) (data : Obj) (j : JobRow) :
  Sql.store_ok st = true ->
  Sql.coerce Sql.TInt k = Some (Sql.CInt id) ->
  In j (jobs st) ->
  j_id j = id ->
  data <> [] ->
  accepted Sql.job_columns ∅ data = true ->
  (forall key x, In (key, x) data -> key <> "id" /\ key <> "company_handle") ->
  (forall x, In ("title", x) data -> x <> JNull /\ x <> JUndefined) ->
  exists j',
    result (run pg_query (Job.update k data) st) = inr (JObj (job_object j'))
    /\ j_id j' = id
    /\ j_company_handle j' = j_company_handle j
    /\ (forall key x, In (key, x) data ->
          exists ty, Sql.assoc key Sql.job_columns = Some ty
                     /\ Sql.coerce ty x = Some (Sql.job_get j' key))
    /\ (forall col, ~ In col (Object_keys data) -> Sql.job_get j' col = Sql.job_get j col)
    /\ jobs (store (run pg_query (Job.update k data) st))
       = map (fun r => if bool_decide (j_id r = id) then j' else r) (jobs st)
    /\ companies (store (run pg_query (Job.update k data) st)) = companies st
    /\ result (run pg_query (Job.get k) (store (run pg_query (Job.update k data) st)))
       = inr (JObj [("id", JNum id); ("title", JStr (j_title j'));
                    ("salary", Sql.cell_to_js (Sql.int_cell (j_salary j')));
                    ("equity", Sql.cell_to_js (Sql.num_cell (j_equity j')));
                    ("company",
                     row0 (map company_object
                               (List.filter
                                  (fun c => bool_decide (c_handle c = j_company_handle j))
                                  (companies st))))]).
Proof.
  intros Hok Hk Hj Hji Hne Hacc Hkey Hnn.
  destruct (pg_job_update k id data st j Hok Hk Hj Hji Hne Hacc Hkey Hnn)
    as (j' & Hq & Hid & Hco & Hread & Hkeep).
  exists j'. rewrite (run_job_update pg_query st k data Hne), Hq.
  cbn [result store row0 truthy negb Sql.with_jobs companies jobs].
  split; [reflexivity|]. split; [exact Hid|]. split; [exact Hco|].
  split; [exact Hread|]. split; [exact Hkeep|]. split; [reflexivity|].
  split; [reflexivity|].
  rewrite (run_job_get k id _ Hk). cbn [Sql.with_jobs companies jobs].
  assert (Hnd : NoDup (map j_id (jobs st))).
  { unfold Sql.store_ok in Hok. apply andb_prop in Hok. destruct Hok as [Hok _].
    apply andb_prop in Hok. destruct Hok as [_ Hok].
    apply bool_decide_eq_true_1 in Hok. exact Hok. }
  assert (Hsame : map j_id (map (fun r => if bool_decide (j_id r = id) then j' else r)
                                (jobs st))
                  = map j_id (jobs st)).
  { rewrite map_map. apply map_ext. intros r.
    destruct (bool_decide (j_id r = id)) eqn:E; [|reflexivity].
    apply bool_decide_eq_true_1 in E. congruence. }
  assert (Hin : In j' (map (fun r => if bool_decide (j_id r = id) then j' else r)
                           (jobs st))).
  { apply in_map_iff. exists j. split; [|exact Hj].
    rewrite bool_decide_eq_true_2 by exact Hji. reflexivity. }
  rewrite <- Hsame in Hnd.
  pose proof (filter_unique_id _ j' Hnd Hin) as Hone. rewrite Hid in Hone.
  rewrite Hone, Hid, Hco. reflexivity.
Qed.

Lemma job_update_then_get_witness :
  let data := [("title", JStr "New"); ("salary", JNull); ("equity", JStr "0.5")] in
  let j' := {| j_id := 2; j_title := "New"; j_salary := None; j_equity := Some "0.5";
               j_company_handle := "c1" |} in
  Sql.store_ok sample_store = true
  /\ accepted Sql.job_columns ∅ data = true
  /\ result (run pg_query (Job.update (JNum 2) data) sample_store)
     = inr (JObj (job_object j'))
  /\ result (run pg_query (Job.get (JNum 2))
                 (store (run pg_query (Job.update (JNum 2) data) sample_store)))
     = inr (JObj [("id", JNum 2); ("title", JStr "New"); ("salary", JNull);
                  ("equity", JStr "0.5");
                  ("company",
                   JObj [("handle", JStr "c1"); ("name", JStr "C1");
                         ("description", JStr "Desc1"); ("numEmployees", JNum 1);
                         ("logoUrl", JStr "http://c1.img")])]).
Proof.
  intros data j'.
  assert (Hok : Sql.store_ok sample_store = true) by (vm_compute; reflexivity).
  assert (Hacc : accepted Sql.job_columns ∅ data = true) by (vm_compute; reflexivity).
  assert (Hkey : forall key x, In (key, x) data -> key <> "id" /\ key <> "company_handle").
  { intros key x [[= <- <-]|[[= <- <-]|[[= <- <-]|[]]]]; split; discriminate. }
  assert (Hnn : forall x, In ("title", x) data -> x <> JNull /\ x <> JUndefined).
  { intros x [[= <-]|[[=]|[[=]|[]]]]. split; discriminate. }
  destruct (job_update_then_get
              sample_store (JNum 2) 2%Z data
              {| j_id := 2; j_title := "J2"; j_salary := Some 2%Z; j_equity := Some "0.2";
                 j_company_handle := "c1" |}
              Hok eq_refl (or_intror (or_introl eq_refl)) eq_refl ltac:(discriminate)
              Hacc Hkey Hnn)
    as (j2 & Hres & _ & _ & _ & _ & _ & _ & Hget).
  split; [exact Hok|]. split; [exact Hacc|].
  assert (Hj2 : job_object j2 = job_object j').
  { assert (E : result (run pg_query (Job.update (JNum 2) data) sample_store)
                = inr (JObj (job_object j'))) by (vm_compute; reflexivity).
    rewrite Hres in E. congruence. }
  split; [rewrite <- Hj2; exact Hres|].
  rewrite Hget. unfold job_object in Hj2. injection Hj2 as _ -> -> -> _.
  reflexivity.
Defined.

(** ** The name filter *)

Lemma lower_plain (c : ascii) : plain_char (Sql.lower c) = plain_char c.
Proof. destruct c as [[] [] [] [] [] [] [] []]; vm_compute; reflexivity. Qed.

Lemma lower_string_app (a b : string) :
  Sql.lower_string (a +:+ b) = Sql.lower_string a +:+ Sql.lower_string b.
Proof.
  induction a as [|c a IH]; [reflexivity|].
  change (String c a +:+ b) with (String c (a +:+ b)).
  cbn [Sql.lower_string]. rewrite IH. reflexivity.
Qed.

Lemma lower_string_plain (n : string) :
  Sql.all_chars plain_char (Sql.lower_string n) = Sql.all_chars plain_char n.
Proof.
  induction n as [|c n IH]; [reflexivity|].
  cbn [Sql.lower_string Sql.all_chars]. rewrite lower_plain, IH. reflexivity.
Qed.

Lemma list_ascii_app (a b : string) :
  list_ascii_of_string (a +:+ b) = list_ascii_of_string a ++ list_ascii_of_string b.
Proof.
  induction a as [|c a IH]; [reflexivity|].
  change (String c a +:+ b) with (String c (a +:+ b)).
  cbn [list_ascii_of_string app]. rewrite IH. reflexivity.
Qed.

(** A pattern that is one [%] matches every string. *)
Lemma like_any (s : list ascii) : Sql.like ["%"%char] s = true.
Proof.
  induction s as [|x s IH]; [reflexivity|].
  change (Sql.like ["%"%char] (x :: s))
    with (Sql.like [] (x :: s) || Sql.like ["%"%char] s).
  rewrite IH. apply orb_true_r.
Qed.

(** A pattern of plain characters that ends with [%] asks for a prefix. *)
Lemma like_prefix (n s : string) :
  Sql.all_chars plain_char n = true ->
  Sql.like (list_ascii_of_string n ++ ["%"%char]) (list_ascii_of_string s)
  = String.prefix n s.
Proof.
  revert s. induction n as [|c n IH]; intros s Hn.
  - cbn [list_ascii_of_string app]. rewrite like_any. destruct s; reflexivity.
  - cbn [Sql.all_chars] in Hn. apply andb_prop in Hn. destruct Hn as [Hc Hn].
    unfold plain_char in Hc. apply andb_prop in Hc. destruct Hc as [Hc H3].
    apply andb_prop in Hc. destruct Hc as [H1 H2].
    apply negb_true_iff in H1, H2, H3.
    cbn [list_ascii_of_string app Sql.like]. rewrite H1, H2, H3.
    destruct s as [|x s]; [reflexivity|].
    cbn [list_ascii_of_string String.prefix]. rewrite (IH s Hn).
    destruct (Ascii.eqb_spec x c) as [->|Hne].
    + destruct (ascii_dec c c); [reflexivity|congruence].
    + destruct (ascii_dec c x); [congruence|reflexivity].
Qed.

(** A pattern of plain characters between two [%] asks for an occurrence. *)
Lemma like_occurs (n s : string) :
  Sql.all_chars plain_char n = true ->
  Sql.like ("%"%char :: list_ascii_of_string n ++ ["%"%char]) (list_ascii_of_string s)
  = occurs_in n s.
Proof.
  intros Hn. induction s as [|x s IH].
  - change (Sql.like ("%"%char :: list_ascii_of_string n ++ ["%"%char])
                     (list_ascii_of_string ""))
      with (Sql.like (list_ascii_of_string n ++ ["%"%char]) (list_ascii_of_string "")
            || false).
    rewrite (like_prefix n "" Hn). reflexivity.
  - change (Sql.like ("%"%char :: list_ascii_of_string n ++ ["%"%char])
                     (list_ascii_of_string (String x s)))
      with (Sql.like (list_ascii_of_string n ++ ["%"%char])
                     (list_ascii_of_string (String x s))
            || Sql.like ("%"%char :: list_ascii_of_string n ++ ["%"%char])
                        (list_ascii_of_string s)).
    rewrite IH, (like_prefix n (String x s) Hn). reflexivity.
Qed.

(** A name of plain characters, wrapped in percent signs and matched as an
    ILIKE pattern, is looked for anywhere in the string, letter case
    aside. *)
Lemma ilike_wrapped (n s : string) :
  Sql.all_chars plain_char n = true ->
  Sql.ilike ("%" +:+ n +:+ "%") s
  = occurs_in (Sql.lower_string n) (Sql.lower_string s).
Proof.
  intros Hn. unfold Sql.ilike.
  rewrite !lower_string_app, !list_ascii_app.
  change (list_ascii_of_string (Sql.lower_string "%")) with ["%"%char].
  change (["%"%char] ++ ?l) with ("%"%char :: l).
  apply like_occurs. rewrite lower_string_plain. exact Hn.
Qed.

Lemma occurs_in_empty (s : string) : occurs_in "" s = true.
Proof. destruct s; reflexivity. Qed.

Lemma company_where_passes (f : Company.Filters) (c : CompanyRow) :
  (forall n, Company.name f = Some n -> Sql.all_chars plain_char n = true) ->
  Company.minEmployees f <> Some 0%Z ->
  Company.maxEmployees f <> Some 0%Z ->
  company_where f c = spec_company_passes f c.
Proof.
  intros Hn Hmin Hmax. unfold company_where, spec_company_passes.
  f_equal; [f_equal|].
  - destruct (Company.name f) as [n|]; [|reflexivity].
    destruct (String.eqb_spec n "") as [->|_].
    + cbn [Sql.lower_string]. rewrite occurs_in_empty. reflexivity.
    + apply ilike_wrapped, Hn. reflexivity.
  - destruct (Company.minEmployees f) as [a|]; [|reflexivity].
    destruct (Z.eqb_spec a 0) as [->|_]; [congruence|reflexivity].
  - destruct (Company.maxEmployees f) as [b|]; [|reflexivity].
    destruct (Z.eqb_spec b 0) as [->|_]; [congruence|reflexivity].
Qed.

Lemma job_where_passes (f : Job.Filters) (j : JobRow) :
  (forall t, Job.title f = Some t -> Sql.all_chars plain_char t = true) ->
  Job.minSalary f <> Some 0%Z ->
  job_where f j = job_passes f j.
Proof.
  intros Ht Hmin. unfold job_where, job_passes.
  f_equal. f_equal.
  - destruct (Job.title f) as [t|]; [|reflexivity].
    destruct (String.eqb_spec t "") as [->|_].
    + cbn [Sql.lower_string]. rewrite occurs_in_empty. reflexivity.
    + apply ilike_wrapped, Ht. reflexivity.
  - destruct (Job.minSalary f) as [a|]; [|reflexivity].
    destruct (Z.eqb_spec a 0) as [->|_]; [congruence|reflexivity].
Qed.

(** X12.  [Company.findAll] with a name free of [%], [_] and backslash, no bound
    of zero and no lower bound above the upper: the companies returned are,
    in the order of their names, exactly those whose name contains the given
    one, letter case aside, and whose number of employees is within the
    bounds. *)
Theorem company_findAll_meets_the_filters (st : Store) (f : Company.Filters) :
  (forall n, Company.name f = Some n -> Sql.all_chars plain_char n = true) ->
  Company.minEmployees f <> Some 0%Z ->
  Company.maxEmployees f <> Some 0%Z ->
  js_gt (Company.minEmployees f) (Company.maxEmployees f) = false ->
  result (run pg_query (Company.findAll f) st)
  = inr (map company_object
             (Sql.sort_by "name" (List.filter (spec_company_passes f) (companies st)))).
Proof.
  intros Hn Hmin Hmax Hgt. unfold Company.findAll. rewrite Hgt.
  unfold run. cbn [bind db_query run_from app].
  rewrite pg_company_findAll. cbn [bind run_from app result].
  rewrite (List.filter_ext (company_where f) (spec_company_passes f)); [reflexivity|].
  intros c. apply company_where_passes; assumption.
Qed.

Lemma company_findAll_meets_the_filters_witness :
  let f := {| Company.name := Some "c"; Company.minEmployees := Some 2%Z;
              Company.maxEmployees := None |} in
  (forall n, Company.name f = Some n -> Sql.all_chars plain_char n = true)
  /\ result (run pg_query (Company.findAll f) sample_store)
     = inr (map company_object
                (Sql.sort_by "name"
                   (List.filter (spec_company_passes f) (companies sample_store)))).
Proof.
  intros f.
  assert (Hn : forall n, Company.name f = Some n -> Sql.all_chars plain_char n = true).
  { intros n [= <-]. reflexivity. }
  split; [exact Hn|].
  apply (company_findAll_meets_the_filters sample_store f Hn);
    [discriminate|discriminate|reflexivity].
Defined.

(** X13.  [Job.findAll] with a title free of [%], [_] and backslash and no minimum
    salary of zero: the jobs returned are, in the order of their titles,
    exactly those whose title contains the given one, letter case aside,
    whose salary is at least the minimum and, where [hasEquity] is truthy,
    whose equity is above zero. *)
Theorem job_findAll_meets_the_filters (st : Store) (f : Job.Filters) :
  (forall t, Job.title f = Some t -> Sql.all_chars plain_char t = true) ->
  Job.minSalary f <> Some 0%Z ->
  result (run pg_query (Job.findAll f) st)
  = inr (map listed_job_object
             (Sql.sort_by "title"
                (List.filter (fun jc => job_passes f jc.1)
                             (map (fun j => (j, Sql.company_of st j)) (jobs st))))).
Proof.
  intros Ht Hmin. unfold Job.findAll, run. cbn [bind db_query run_from app].
  rewrite pg_job_findAll. cbn [bind run_from app result].
  rewrite (List.filter_ext (fun jc : JobRow * option CompanyRow => job_where f jc.1)
                           (fun jc => job_passes f jc.1)); [reflexivity|].
  intros jc. apply job_where_passes; assumption.
Qed.

Lemma job_findAll_meets_the_filters_witness :
  let f := {| Job.minSalary := Some 2%Z; Job.hasEquity := JBool true;
              Job.title := Some "j" |} in
  (forall t, Job.title f = Some t -> Sql.all_chars plain_char t = true)
  /\ result (run pg_query (Job.findAll f) sample_store)
     = inr [[("id", JNum 2); ("title", JStr "J2"); ("salary", JNum 2);
             ("equity", JStr "0.2"); ("companyHandle", JStr "c1");
             ("companyName", JStr "C1")]].
Proof.
  intros f.
  assert (Ht : forall t, Job.title f = Some t -> Sql.all_chars plain_char t = true).
  { intros t [= <-]. reflexivity. }
  split; [exact Ht|].
  rewrite (job_findAll_meets_the_filters sample_store f Ht); [|discriminate].
  vm_compute. reflexivity.
Defined.
